(** * nsjail: command line, connection accounting and sub-process management

    A shallow embedding of three translation units of nsjail

      - cmdline.c  (rlimit parsing, the "is a number" test),
      - net.c      (connection text, per-IP connection limit, interface cloning),
      - subproc.c  (child builder, roster of children, reaping, spawning),

    together with the properties of the jail lifecycle that are checked
    against them.

    Conventions of the embedding.
      - C integers are [Z]; where the C type is unsigned the wrap-around is
        written out ([u32], [u64]).
      - A C string is a [string]; the terminating NUL is not stored, reading
        at the length of the string yields the terminator ([None]).
      - Byte arrays are [list byte].
      - Everything the operating system or libc decides (results of system
        calls, content of fresh memory, the clock) is an explicit argument.
      - Externally visible actions are recorded, in order, in a trace of
        [event]s that is threaded with the roster through a small
        state-and-exit monad. *)

From Stdlib Require Import ZArith List Bool Ascii String Lia.
From Stdlib Require Import Strings.Byte DecimalString.
Import ListNotations.

Local Open Scope Z_scope.

(* ================================================================== *)
(** * Machine integers *)

Definition u32 (z : Z) : Z := z mod 2 ^ 32.
Definition u64 (z : Z) : Z := z mod 2 ^ 64.
(** Two's-complement reading of a 64-bit pattern ([time_t], [long]). *)
Definition s64 (z : Z) : Z := (z + 2 ^ 63) mod 2 ^ 64 - 2 ^ 63.

Definition ULONG_MAX : Z := 2 ^ 64 - 1.

(* ================================================================== *)
(** * The parts of libc the sources call *)

Module Libc.

Definition code (c : ascii) : Z := Z.of_nat (nat_of_ascii c).

(** [isdigit] in the C locale. *)
Definition isdigit (c : ascii) : bool := (48 <=? code c) && (code c <=? 57).

Definition isspace (c : ascii) : bool :=
  (code c =? 32) || ((9 <=? code c) && (code c <=? 13)).

Definition tolower (c : ascii) : ascii :=
  if (65 <=? code c) && (code c <=? 90)
  then ascii_of_nat (nat_of_ascii c + 32) else c.

(** [s[i]] for a C string: [None] is the terminating NUL. *)
Definition cstr_at (s : string) (i : nat) : option ascii := String.get i s.

(** [s++] on a [const char *]: the pointer moves one character on. *)
Definition cstr_next (s : string) : string :=
  match s with
  | EmptyString => EmptyString
  | String _ s' => s'
  end.

(** [strcasecmp]: difference of the first pair of characters that differ
    after lower-casing, 0 when there is none. *)
Fixpoint strcasecmp (a b : string) : Z :=
  match a, b with
  | EmptyString, EmptyString => 0
  | EmptyString, String y _ => 0 - code (tolower y)
  | String x _, EmptyString => code (tolower x)
  | String x a', String y b' =>
      if code (tolower x) =? code (tolower y)
      then strcasecmp a' b'
      else code (tolower x) - code (tolower y)
  end.

(** Value of a character as a digit in bases up to 36. *)
Definition digit_value (c : ascii) : option Z :=
  let n := code c in
  if (48 <=? n) && (n <=? 57) then Some (n - 48)
  else if (97 <=? n) && (n <=? 122) then Some (n - 97 + 10)
  else if (65 <=? n) && (n <=? 90) then Some (n - 65 + 10)
  else None.

Definition digit_in (base : Z) (c : ascii) : option Z :=
  match digit_value c with
  | Some d => if d <? base then Some d else None
  | None => None
  end.

(** The digit loop of [strtoul]: consumes the longest run of digits of
    [base]; once the value exceeds [ULONG_MAX] it sticks to [ULONG_MAX]
    and the overflow flag is raised. *)
Fixpoint strtoul_digits (base : Z) (s : string) (acc : Z) (ovf : bool)
  : Z * bool :=
  match s with
  | EmptyString => (acc, ovf)
  | String c s' =>
      match digit_in base c with
      | None => (acc, ovf)
      | Some d =>
          if ovf then strtoul_digits base s' ULONG_MAX true
          else
            let acc' := acc * base + d in
            if acc' >? ULONG_MAX
            then strtoul_digits base s' ULONG_MAX true
            else strtoul_digits base s' acc' false
      end
  end.

Fixpoint skip_space (s : string) : string :=
  match s with
  | String c s' => if isspace c then skip_space s' else s
  | EmptyString => s
  end.

Definition ERANGE : Z := 34.

(** After white space and sign, base 0 selects the radix from the prefix:
    "0x"/"0X" followed by a hexadecimal digit is base 16, another leading
    "0" is base 8, anything else base 10. *)
Definition is_x (c : ascii) : bool := (code c =? 120) || (code c =? 88).

Definition strtoul_unsigned0 (s : string) : Z * bool :=
  match s with
  | String z rest =>
      if code z =? 48 then
        match rest with
        | String x (String h s') =>
            if is_x x
            then match digit_in 16 h with
                 | Some _ => strtoul_digits 16 (String h s') 0 false
                 | None => (0, false)
                 end
            else strtoul_digits 8 s 0 false
        | _ => strtoul_digits 8 s 0 false
        end
      else strtoul_digits 10 s 0 false
  | EmptyString => (0, false)
  end.

(** [strtoul (s, NULL, 0)] with [errno] threaded: the result and the new
    [errno].  A leading minus negates the converted value in
    [unsigned long]; overflow gives [ULONG_MAX] and sets [ERANGE];
    [errno] is otherwise left as it was. *)
Definition strtoul0 (s : string) (errno : Z) : Z * Z :=
  let s1 := skip_space s in
  let '(neg, s2) :=
    match s1 with
    | String c r =>
        if code c =? 45 then (true, r)
        else if code c =? 43 then (false, r)
        else (false, s1)
    | EmptyString => (false, s1)
    end in
  let '(v, ovf) := strtoul_unsigned0 s2 in
  if ovf then (ULONG_MAX, ERANGE)
  else ((if neg then u64 (0 - v) else v), errno).

(** [memcmp (a, b, n) == 0] decides equality of the first [n] bytes; the
    sign of a non-zero result follows the first differing pair. *)
Fixpoint memcmp (a b : list byte) (n : nat) {struct n} : Z :=
  match n with
  | O => 0
  | S n' =>
      match a, b with
      | x :: a', y :: b' =>
          if Byte.eqb x y then memcmp a' b' n'
          else Z.of_N (Byte.to_N x) - Z.of_N (Byte.to_N y)
      | _, _ => 0
      end
  end.

(** [snprintf (buf, s, "%s", txt)] for a plain text: at most [s - 1]
    characters are stored before the terminator. *)
Definition snprintf (s : nat) (txt : string) : string :=
  String.substring 0 (s - 1) txt.

End Libc.

(* ================================================================== *)
(** * common.h: the data shared by the translation units

    The header is not among the sources; the structures are read off the
    fields the three files access. *)

Module Common.

(** [struct sockaddr_in6]; [sin6_addr] is the 16-byte array [s6_addr],
    [sin6_port] is kept in network byte order. *)
Record sockaddr_in6 := {
  sin6_family : Z;
  sin6_port : Z;
  sin6_flowinfo : Z;
  sin6_addr : list byte;
  sin6_scope_id : Z
}.

(** [struct pids_t]: one element of the roster of children. *)
Record pids_t := {
  pid : Z;
  start : Z;
  remote_txt : string;
  remote_addr : sockaddr_in6
}.

(** [sizeof (p->remote_txt)]; every buffer the sources declare for the
    same text ([cs_addr], [ss_addr]) has 64 bytes. *)
Definition sizeof_remote_txt : nat := 64.

(** [struct nsjconf_t], restricted to the fields read or written by the
    functions embedded below; [pids] is the head of the [LIST] of
    children, first element first. *)
Record nsjconf_t := {
  max_conns_per_ip : Z;
  tlimit : Z;
  keep_env : bool;
  argv : list string;
  clone_newnet : bool;
  clone_newuser : bool;
  clone_newns : bool;
  clone_newpid : bool;
  clone_newipc : bool;
  clone_newuts : bool;
  iface_macvtap : option string;
  iface_macvlan : option string;
  rl_as : Z;
  rl_core : Z;
  rl_cpu : Z;
  rl_fsize : Z;
  rl_nofile : Z;
  rl_nproc : Z;
  rl_stack : Z;
  pids : list pids_t
}.

(** Field assignments [nsjconf->f = v]. *)
Definition set_clone_newnet (v : bool) (c : nsjconf_t) : nsjconf_t :=
  {| max_conns_per_ip := max_conns_per_ip c; tlimit := tlimit c;
     keep_env := keep_env c; argv := argv c; clone_newnet := v;
     clone_newuser := clone_newuser c; clone_newns := clone_newns c;
     clone_newpid := clone_newpid c; clone_newipc := clone_newipc c;
     clone_newuts := clone_newuts c; iface_macvtap := iface_macvtap c;
     iface_macvlan := iface_macvlan c; rl_as := rl_as c;
     rl_core := rl_core c; rl_cpu := rl_cpu c; rl_fsize := rl_fsize c;
     rl_nofile := rl_nofile c; rl_nproc := rl_nproc c;
     rl_stack := rl_stack c; pids := pids c |}.

Definition set_clone_newuser (v : bool) (c : nsjconf_t) : nsjconf_t :=
  {| max_conns_per_ip := max_conns_per_ip c; tlimit := tlimit c;
     keep_env := keep_env c; argv := argv c; clone_newnet := clone_newnet c;
     clone_newuser := v; clone_newns := clone_newns c;
     clone_newpid := clone_newpid c; clone_newipc := clone_newipc c;
     clone_newuts := clone_newuts c; iface_macvtap := iface_macvtap c;
     iface_macvlan := iface_macvlan c; rl_as := rl_as c;
     rl_core := rl_core c; rl_cpu := rl_cpu c; rl_fsize := rl_fsize c;
     rl_nofile := rl_nofile c; rl_nproc := rl_nproc c;
     rl_stack := rl_stack c; pids := pids c |}.

Definition set_clone_newns (v : bool) (c : nsjconf_t) : nsjconf_t :=
  {| max_conns_per_ip := max_conns_per_ip c; tlimit := tlimit c;
     keep_env := keep_env c; argv := argv c; clone_newnet := clone_newnet c;
     clone_newuser := clone_newuser c; clone_newns := v;
     clone_newpid := clone_newpid c; clone_newipc := clone_newipc c;
     clone_newuts := clone_newuts c; iface_macvtap := iface_macvtap c;
     iface_macvlan := iface_macvlan c; rl_as := rl_as c;
     rl_core := rl_core c; rl_cpu := rl_cpu c; rl_fsize := rl_fsize c;
     rl_nofile := rl_nofile c; rl_nproc := rl_nproc c;
     rl_stack := rl_stack c; pids := pids c |}.

Definition set_clone_newpid (v : bool) (c : nsjconf_t) : nsjconf_t :=
  {| max_conns_per_ip := max_conns_per_ip c; tlimit := tlimit c;
     keep_env := keep_env c; argv := argv c; clone_newnet := clone_newnet c;
     clone_newuser := clone_newuser c; clone_newns := clone_newns c;
     clone_newpid := v; clone_newipc := clone_newipc c;
     clone_newuts := clone_newuts c; iface_macvtap := iface_macvtap c;
     iface_macvlan := iface_macvlan c; rl_as := rl_as c;
     rl_core := rl_core c; rl_cpu := rl_cpu c; rl_fsize := rl_fsize c;
     rl_nofile := rl_nofile c; rl_nproc := rl_nproc c;
     rl_stack := rl_stack c; pids := pids c |}.

Definition set_clone_newipc (v : bool) (c : nsjconf_t) : nsjconf_t :=
  {| max_conns_per_ip := max_conns_per_ip c; tlimit := tlimit c;
     keep_env := keep_env c; argv := argv c; clone_newnet := clone_newnet c;
     clone_newuser := clone_newuser c; clone_newns := clone_newns c;
     clone_newpid := clone_newpid c; clone_newipc := v;
     clone_newuts := clone_newuts c; iface_macvtap := iface_macvtap c;
     iface_macvlan := iface_macvlan c; rl_as := rl_as c;
     rl_core := rl_core c; rl_cpu := rl_cpu c; rl_fsize := rl_fsize c;
     rl_nofile := rl_nofile c; rl_nproc := rl_nproc c;
     rl_stack := rl_stack c; pids := pids c |}.

Definition set_clone_newuts (v : bool) (c : nsjconf_t) : nsjconf_t :=
  {| max_conns_per_ip := max_conns_per_ip c; tlimit := tlimit c;
     keep_env := keep_env c; argv := argv c; clone_newnet := clone_newnet c;
     clone_newuser := clone_newuser c; clone_newns := clone_newns c;
     clone_newpid := clone_newpid c; clone_newipc := clone_newipc c;
     clone_newuts := v; iface_macvtap := iface_macvtap c;
     iface_macvlan := iface_macvlan c; rl_as := rl_as c;
     rl_core := rl_core c; rl_cpu := rl_cpu c; rl_fsize := rl_fsize c;
     rl_nofile := rl_nofile c; rl_nproc := rl_nproc c;
     rl_stack := rl_stack c; pids := pids c |}.

Definition set_rl_as (v : Z) (c : nsjconf_t) : nsjconf_t :=
  {| max_conns_per_ip := max_conns_per_ip c; tlimit := tlimit c;
     keep_env := keep_env c; argv := argv c; clone_newnet := clone_newnet c;
     clone_newuser := clone_newuser c; clone_newns := clone_newns c;
     clone_newpid := clone_newpid c; clone_newipc := clone_newipc c;
     clone_newuts := clone_newuts c; iface_macvtap := iface_macvtap c;
     iface_macvlan := iface_macvlan c; rl_as := v; rl_core := rl_core c;
     rl_cpu := rl_cpu c; rl_fsize := rl_fsize c; rl_nofile := rl_nofile c;
     rl_nproc := rl_nproc c; rl_stack := rl_stack c; pids := pids c |}.

Definition set_rl_core (v : Z) (c : nsjconf_t) : nsjconf_t :=
  {| max_conns_per_ip := max_conns_per_ip c; tlimit := tlimit c;
     keep_env := keep_env c; argv := argv c; clone_newnet := clone_newnet c;
     clone_newuser := clone_newuser c; clone_newns := clone_newns c;
     clone_newpid := clone_newpid c; clone_newipc := clone_newipc c;
     clone_newuts := clone_newuts c; iface_macvtap := iface_macvtap c;
     iface_macvlan := iface_macvlan c; rl_as := rl_as c; rl_core := v;
     rl_cpu := rl_cpu c; rl_fsize := rl_fsize c; rl_nofile := rl_nofile c;
     rl_nproc := rl_nproc c; rl_stack := rl_stack c; pids := pids c |}.

Definition set_rl_cpu (v : Z) (c : nsjconf_t) : nsjconf_t :=
  {| max_conns_per_ip := max_conns_per_ip c; tlimit := tlimit c;
     keep_env := keep_env c; argv := argv c; clone_newnet := clone_newnet c;
     clone_newuser := clone_newuser c; clone_newns := clone_newns c;
     clone_newpid := clone_newpid c; clone_newipc := clone_newipc c;
     clone_newuts := clone_newuts c; iface_macvtap := iface_macvtap c;
     iface_macvlan := iface_macvlan c; rl_as := rl_as c;
     rl_core := rl_core c; rl_cpu := v; rl_fsize := rl_fsize c;
     rl_nofile := rl_nofile c; rl_nproc := rl_nproc c;
     rl_stack := rl_stack c; pids := pids c |}.

Definition set_rl_fsize (v : Z) (c : nsjconf_t) : nsjconf_t :=
  {| max_conns_per_ip := max_conns_per_ip c; tlimit := tlimit c;
     keep_env := keep_env c; argv := argv c; clone_newnet := clone_newnet c;
     clone_newuser := clone_newuser c; clone_newns := clone_newns c;
     clone_newpid := clone_newpid c; clone_newipc := clone_newipc c;
     clone_newuts := clone_newuts c; iface_macvtap := iface_macvtap c;
     iface_macvlan := iface_macvlan c; rl_as := rl_as c;
     rl_core := rl_core c; rl_cpu := rl_cpu c; rl_fsize := v;
     rl_nofile := rl_nofile c; rl_nproc := rl_nproc c;
     rl_stack := rl_stack c; pids := pids c |}.

Definition set_rl_nofile (v : Z) (c : nsjconf_t) : nsjconf_t :=
  {| max_conns_per_ip := max_conns_per_ip c; tlimit := tlimit c;
     keep_env := keep_env c; argv := argv c; clone_newnet := clone_newnet c;
     clone_newuser := clone_newuser c; clone_newns := clone_newns c;
     clone_newpid := clone_newpid c; clone_newipc := clone_newipc c;
     clone_newuts := clone_newuts c; iface_macvtap := iface_macvtap c;
     iface_macvlan := iface_macvlan c; rl_as := rl_as c;
     rl_core := rl_core c; rl_cpu := rl_cpu c; rl_fsize := rl_fsize c;
     rl_nofile := v; rl_nproc := rl_nproc c; rl_stack := rl_stack c;
     pids := pids c |}.

Definition set_rl_nproc (v : Z) (c : nsjconf_t) : nsjconf_t :=
  {| max_conns_per_ip := max_conns_per_ip c; tlimit := tlimit c;
     keep_env := keep_env c; argv := argv c; clone_newnet := clone_newnet c;
     clone_newuser := clone_newuser c; clone_newns := clone_newns c;
     clone_newpid := clone_newpid c; clone_newipc := clone_newipc c;
     clone_newuts := clone_newuts c; iface_macvtap := iface_macvtap c;
     iface_macvlan := iface_macvlan c; rl_as := rl_as c;
     rl_core := rl_core c; rl_cpu := rl_cpu c; rl_fsize := rl_fsize c;
     rl_nofile := rl_nofile c; rl_nproc := v; rl_stack := rl_stack c;
     pids := pids c |}.

Definition set_rl_stack (v : Z) (c : nsjconf_t) : nsjconf_t :=
  {| max_conns_per_ip := max_conns_per_ip c; tlimit := tlimit c;
     keep_env := keep_env c; argv := argv c; clone_newnet := clone_newnet c;
     clone_newuser := clone_newuser c; clone_newns := clone_newns c;
     clone_newpid := clone_newpid c; clone_newipc := clone_newipc c;
     clone_newuts := clone_newuts c; iface_macvtap := iface_macvtap c;
     iface_macvlan := iface_macvlan c; rl_as := rl_as c;
     rl_core := rl_core c; rl_cpu := rl_cpu c; rl_fsize := rl_fsize c;
     rl_nofile := rl_nofile c; rl_nproc := rl_nproc c; rl_stack := v;
     pids := pids c |}.

Definition set_pids (v : list pids_t) (c : nsjconf_t) : nsjconf_t :=
  {| max_conns_per_ip := max_conns_per_ip c; tlimit := tlimit c;
     keep_env := keep_env c; argv := argv c; clone_newnet := clone_newnet c;
     clone_newuser := clone_newuser c; clone_newns := clone_newns c;
     clone_newpid := clone_newpid c; clone_newipc := clone_newipc c;
     clone_newuts := clone_newuts c; iface_macvtap := iface_macvtap c;
     iface_macvlan := iface_macvlan c; rl_as := rl_as c;
     rl_core := rl_core c; rl_cpu := rl_cpu c; rl_fsize := rl_fsize c;
     rl_nofile := rl_nofile c; rl_nproc := rl_nproc c;
     rl_stack := rl_stack c; pids := v |}.

End Common.

(* ================================================================== *)
(** * cmdline.c *)

Module Cmdline.

Import Libc.

(** ** cmdlineIsANumber

    [for (int i = 0; s[i]; s++) if (!isdigit(s[i]) && s[i] != 'x') return false;]

    The index [i] is never incremented; the pointer [s] is.  The loop
    carries both, and records every character read through [s[i]]
    ([None] for the terminator) so that what is examined can be stated. *)
Fixpoint cmdlineIsANumber_loop (fuel : nat) (s : string) (i : nat)
    (seen : list (option ascii)) : option (bool * list (option ascii)) :=
  match fuel with
  | O => None
  | S fuel' =>
      match cstr_at s i with
      | None => Some (true, seen ++ [None])
      | Some c =>
          if negb (isdigit c) && negb (code c =? 120)
          then Some (false, seen ++ [Some c])
          else cmdlineIsANumber_loop fuel' (cstr_next s) i (seen ++ [Some c])
      end
  end.

Definition cmdlineIsANumber_run (s : string)
  : option (bool * list (option ascii)) :=
  cmdlineIsANumber_loop (S (String.length s)) s 0%nat [].

(** The characters the test accepts. *)
Definition digit_or_x (c : ascii) : bool := isdigit c || (code c =? 120).

Fixpoint string_forallb (f : ascii -> bool) (s : string) : bool :=
  match s with
  | EmptyString => true
  | String c s' => f c && string_forallb f s'
  end.

(** The reads a left-to-right scan makes: every character up to and
    including the first rejected one, or all of them and the terminator. *)
Fixpoint scan_reads (s : string) : list (option ascii) :=
  match s with
  | EmptyString => [None]
  | String c s' =>
      if digit_or_x c then Some c :: scan_reads s' else [Some c]
  end.

(** The test as its callers see it.  The fuel [S (length s)] is never
    exhausted (see [cmdlineIsANumber_run_spec]), so the last branch is
    not taken. *)
Definition cmdlineIsANumber (s : string) : bool :=
  match cmdlineIsANumber_run s with
  | Some (b, _) => b
  | None => false
  end.

(** ** cmdlineParseRLimit *)

Inductive rlimit_resource :=
| RLIMIT_AS | RLIMIT_CORE | RLIMIT_CPU | RLIMIT_FSIZE
| RLIMIT_NOFILE | RLIMIT_NPROC | RLIMIT_STACK.

(** [struct rlimit]. *)
Record rlimit := { rlim_cur : Z; rlim_max : Z }.

(** Why the process was terminated. *)
Inductive fatal :=
| Fatal_getrlimit (res : rlimit_resource)
| Fatal_rlimit_value (res : rlimit_resource) (optarg : string)
| Fatal_strtoul (optarg : string).

(** Modelled from the spec: the macros [LOG_F] and [PLOG_F] of log.h,
    which is not among the sources.  The spec lists a bad command line
    as a config error after which the process exits non-zero, so a call
    of either macro ends the function with [Fatal]. *)
Inductive result (A : Type) :=
| Ok (a : A)
| Fatal (why : fatal).
Arguments Ok {A} a.
Arguments Fatal {A} why.

(** What the function reads from outside: [getrlimit] for each resource
    ([None] is the return value -1) and [errno] as it stands on entry;
    nothing in the function resets it. *)
Record rlimit_env := {
  getrlimit : rlimit_resource -> option rlimit;
  errno_in : Z
}.

Definition cmdlineParseRLimit (env : rlimit_env) (res : rlimit_resource)
    (optarg : string) (mul : Z) : result Z :=
  match getrlimit env res with
  | None => Fatal (Fatal_getrlimit res)
  | Some cur =>
      if strcasecmp optarg "max"%string =? 0 then Ok (rlim_max cur)
      else if strcasecmp optarg "def"%string =? 0 then Ok (rlim_cur cur)
      else if negb (cmdlineIsANumber optarg)
      then Fatal (Fatal_rlimit_value res optarg)
      else
        let '(n, errno) := strtoul0 optarg (errno_in env) in
        let val := u64 (n * mul) in
        if (val =? ULONG_MAX) && negb (errno =? 0)
        then Fatal (Fatal_strtoul optarg)
        else Ok val
  end.

(** ** cmdlineParse: the option cases that set rlimits and namespaces

    [c] is the value [getopt_long] returned.  [None] stands for the
    cases of the [switch] that are not embedded here. *)
Import Common.

Definition MB : Z := 1024 * 1024.

Definition on_ok {A B} (r : result A) (f : A -> B) : result B :=
  match r with
  | Ok a => Ok (f a)
  | Fatal why => Fatal why
  end.

Definition cmdlineParse_case (env : rlimit_env) (c : Z) (optarg : string)
    (nsjconf : nsjconf_t) : option (result nsjconf_t) :=
  if c =? 0x0201 then
    Some (on_ok (cmdlineParseRLimit env RLIMIT_AS optarg MB)
                (fun v => set_rl_as v nsjconf))
  else if c =? 0x0202 then
    Some (on_ok (cmdlineParseRLimit env RLIMIT_CORE optarg MB)
                (fun v => set_rl_core v nsjconf))
  else if c =? 0x0203 then
    Some (on_ok (cmdlineParseRLimit env RLIMIT_CPU optarg 1)
                (fun v => set_rl_cpu v nsjconf))
  else if c =? 0x0204 then
    Some (on_ok (cmdlineParseRLimit env RLIMIT_FSIZE optarg MB)
                (fun v => set_rl_fsize v nsjconf))
  else if c =? 0x0205 then
    Some (on_ok (cmdlineParseRLimit env RLIMIT_NOFILE optarg 1)
                (fun v => set_rl_nofile v nsjconf))
  else if c =? 0x0206 then
    Some (on_ok (cmdlineParseRLimit env RLIMIT_NPROC optarg 1)
                (fun v => set_rl_nproc v nsjconf))
  else if c =? 0x0207 then
    Some (on_ok (cmdlineParseRLimit env RLIMIT_STACK optarg MB)
                (fun v => set_rl_stack v nsjconf))
  else if c =? 78 (* 'N' *) then Some (Ok (set_clone_newnet false nsjconf))
  else if c =? 0x0402 then Some (Ok (set_clone_newuser false nsjconf))
  else if c =? 0x0403 then Some (Ok (set_clone_newns false nsjconf))
  else if c =? 0x0404 then Some (Ok (set_clone_newpid false nsjconf))
  else if c =? 0x0405 then Some (Ok (set_clone_newipc false nsjconf))
  else if c =? 0x0406 then Some (Ok (set_clone_newuts false nsjconf))
  else None.

End Cmdline.

(* ================================================================== *)
(** * Constants of the Linux headers (x86-64) *)

Module Linux.

Definition SIGKILL : Z := 9.
Definition SIGCHLD : Z := 17.
Definition SIGCONT : Z := 18.

Definition CLONE_NEWNS : Z := 0x00020000.
Definition CLONE_NEWUTS : Z := 0x04000000.
Definition CLONE_NEWIPC : Z := 0x08000000.
Definition CLONE_NEWUSER : Z := 0x10000000.
Definition CLONE_NEWPID : Z := 0x20000000.
Definition CLONE_NEWNET : Z := 0x40000000.

End Linux.

(* ================================================================== *)
(** * Processes: what the system decides, what is observed, and the monad *)

Module Proc.

Import Common.

Inductive log_level := DEBUG | INFO | WARNING | ERROR.

Inductive log_arg :=
| AInt (z : Z)
| AStr (s : string).

(** The containment steps of contain.c and sandbox.c, which the child
    builder calls; each one answers [true] or [false]. *)
Inductive contain_step :=
| PrepareEnv | SetupFD | MountFS | DropPrivs
| SetLimits | MakeFdsCOE | SandboxApply.

(** The status [waitpid] stores. *)
Inductive wstatus :=
| WExited (code : Z)
| WSignaled (sig : Z)
| WOther.

Definition WIFEXITED (st : wstatus) : bool :=
  match st with WExited _ => true | _ => false end.
Definition WIFSIGNALED (st : wstatus) : bool :=
  match st with WSignaled _ => true | _ => false end.
Definition WEXITSTATUS (st : wstatus) : Z :=
  match st with WExited c => c | _ => 0 end.
Definition WTERMSIG (st : wstatus) : Z :=
  match st with WSignaled s => s | _ => 0 end.

(** What an observer of the process sees, in order.  [PLog] is a [PLOG_*]
    macro (the message is followed by the text of [errno]). *)
Inductive event :=
| Log (lvl : log_level) (fmt : string) (args : list log_arg)
| PLog (lvl : log_level) (fmt : string) (args : list log_arg)
| LogDirectlyToFD (len : Z)
| Contain (step : contain_step) (ok : bool)
| Execve (path : option string) (args : list string)
         (envp : option (list string)) (ok : bool)
| Pipe2 (fds : option (Z * Z))
| Clone (flags : Z) (ret : Z)
| Close (fd : Z)
| Read (fd : Z) (ret : Z)
| Kill (pid : Z) (sig : Z)
| Waitpid (ret : Z) (st : wstatus)
| Malloc (ok : bool)
| NetCloneMacV (type name iface : string) (pid : Z) (ok : bool)
| ListInsertHead (p : pids_t)
| ListRemove (p : pids_t).

(** A descriptor as the socket calls see it: [getsockopt (SO_TYPE)]
    fails on anything but a socket; for a socket, [getpeername] and
    [getsockname] give an address or fail. *)
Inductive fd_state :=
| FdOther
| FdSocket (peer : option sockaddr_in6) (local : option sockaddr_in6).

(** Everything decided outside the program during one call.  A function
    run with one [os_t] gets the same answer each time it asks about a
    descriptor; [Later.subprocRunChild_later] runs [subprocRunChild] with
    answers that change while it waits. *)
Record os_t := {
  os_fd : Z -> fd_state;
  os_inet_ntop : list byte -> nat -> option string;
  os_pipe2 : option (Z * Z);              (* [None]: pipe2 returned -1 *)
  os_clone : Z;                           (* 0 in the child, -1 on error *)
  os_macv : string -> string -> string -> Z -> bool;
  os_read : nat -> Z;                     (* result of the n-th [read] *)
  os_malloc : option pids_t;              (* content of the fresh block *)
  os_time : Z;                            (* [time (NULL)] *)
  os_stack_addr : sockaddr_in6;           (* an uninitialised local *)
  os_contain : contain_step -> bool;
  os_execve : bool;
  os_environ : list string;
  os_waitpid : list (Z * wstatus)         (* children [waitpid] returns *)
}.

(** How a computation ends: it returns to its caller, the process exits,
    the process image is replaced by [execve], or the model ran out of
    fuel in a loop whose length the system decides. *)
Inductive outcome (A : Type) :=
| Ret (a : A)
| Exited (status : Z)
| Execed
| OutOfFuel.
Arguments Ret {A} a.
Arguments Exited {A} status.
Arguments Execed {A}.
Arguments OutOfFuel {A}.

(** A computation reads and writes [nsjconf] and emits events. *)
Definition M (A : Type) : Type :=
  nsjconf_t -> outcome A * nsjconf_t * list event.

Definition ret {A} (a : A) : M A := fun c => (Ret a, c, []).

Definition bind {A B} (m : M A) (k : A -> M B) : M B :=
  fun c =>
    match m c with
    | (Ret a, c1, e1) =>
        let '(o, c2, e2) := k a c1 in (o, c2, e1 ++ e2)
    | (Exited s, c1, e1) => (Exited s, c1, e1)
    | (Execed, c1, e1) => (Execed, c1, e1)
    | (OutOfFuel, c1, e1) => (OutOfFuel, c1, e1)
    end.

Definition emit (e : event) : M unit := fun c => (Ret tt, c, [e]).
Definition get : M nsjconf_t := fun c => (Ret c, c, []).
Definition put (c' : nsjconf_t) : M unit := fun _ => (Ret tt, c', []).
Definition exit_ {A} (status : Z) : M A := fun c => (Exited status, c, []).
Definition execed {A} : M A := fun c => (Execed, c, []).
Definition out_of_fuel {A} : M A := fun c => (OutOfFuel, c, []).

(** [if (cond) { body }] *)
Definition when (cond : bool) (body : M unit) : M unit :=
  if cond then body else ret tt.

Definition events {A} (r : outcome A * nsjconf_t * list event) : list event :=
  snd r.
Definition final {A} (r : outcome A * nsjconf_t * list event) : nsjconf_t :=
  snd (fst r).
Definition result_of {A} (r : outcome A * nsjconf_t * list event) : outcome A :=
  fst (fst r).

End Proc.

Declare Scope proc_scope.
Delimit Scope proc_scope with proc.
Notation "x <- m ;; k" := (Proc.bind m (fun x => k))
  (at level 61, m at next level, right associativity) : proc_scope.
Notation "m ;; k" := (Proc.bind m (fun _ => k))
  (at level 61, right associativity) : proc_scope.

(* ================================================================== *)
(** * net.c *)

Module Net.

Import Libc Common Proc.
Local Open Scope proc_scope.

(** The size of the array [uint8_t s6_addr[16]] and the size of one of its
    elements, which is what [sizeof] of the dereferenced array gives. *)
Definition sizeof_s6_addr : nat := 16.
Definition sizeof_s6_addr_elem : nat := 1.

(** [ntohs] on a little-endian host. *)
Definition ntohs (p : Z) : Z := (p mod 256) * 256 + (p / 256) mod 256.

(** ["%hu"] *)
Definition fmt_hu (z : Z) : string :=
  NilZero.string_of_uint (N.to_uint (Z.to_N (z mod 65536))).

(** [netCloneMacV] drives libnl; its verdict is the system's. *)
Definition netCloneMacV (os : os_t) (type name iface : string) (pid : Z)
  : M bool :=
  let ok := os_macv os type name iface pid in
  emit (NetCloneMacV type name iface pid ok) ;;
  ret ok.

Definition netCloneNetIfaces (os : os_t) (pid : Z) : M bool :=
  nsjconf <- get ;;
  r1 <- match iface_macvtap nsjconf with
        | Some iface =>
            ok <- netCloneMacV os "macvtap" "vt0" iface pid ;;
            if negb ok
            then emit (Log ERROR "Couldn't setup 'macvtap' interface" []) ;;
                 ret false
            else ret true
        | None => ret true
        end ;;
  if negb r1 then ret false else
  r2 <- match iface_macvlan nsjconf with
        | Some iface =>
            ok <- netCloneMacV os "macvlan" "vl0" iface pid ;;
            if negb ok
            then emit (Log ERROR "Couldn't setup 'macvtap' interface" []) ;;
                 ret false
            else ret true
        | None => ret true
        end ;;
  if negb r2 then ret false else ret true.

Definition netIsSocket (os : os_t) (fd : Z) : bool :=
  match os_fd os fd with
  | FdOther => false
  | FdSocket _ _ => true
  end.

(** [netConnToText (fd, remote, buf, s, addr_or_null)].

    The result is the text left in [buf] and, when the function got as
    far as the [memcpy] and [addr_or_null] is not [NULL], the address it
    stored through it; [None] means that the memory [addr_or_null] points
    to was not written. *)
Definition netConnToText (os : os_t) (fd : Z) (remote : bool) (s : nat)
    (addr_or_null : bool) : M (string * option sockaddr_in6) :=
  if negb (netIsSocket os fd)
  then ret (snprintf s "[STANDALONE_MODE]", None)
  else
    let name :=
      match os_fd os fd with
      | FdSocket peer local => if remote then peer else local
      | FdOther => None
      end in
    match name with
    | None =>
        emit (PLog WARNING (if remote then "getpeername(%d)"
                            else "getsockname(%d)") [AInt fd]) ;;
        ret (snprintf s "[unknown]", None)
    | Some addr =>
        let stored := if addr_or_null then Some addr else None in
        match os_inet_ntop os (sin6_addr addr) s with
        | None =>
            emit (PLog WARNING "inet_ntop()" []) ;;
            ret (snprintf s ("[unknown]:" ++ fmt_hu (ntohs (sin6_port addr))),
                 stored)
        | Some tmp =>
            ret (snprintf s (tmp ++ ":" ++ fmt_hu (ntohs (sin6_port addr))),
                 stored)
        end
    end.

(** The counting loop of [netLimitConns]: [cnt] is an [unsigned int]. *)
Fixpoint netLimitConns_count (addr : sockaddr_in6) (l : list pids_t)
    (cnt : Z) : Z :=
  match l with
  | [] => cnt
  | p :: l' =>
      netLimitConns_count addr l'
        (if memcmp (sin6_addr addr) (sin6_addr (remote_addr p))
                   sizeof_s6_addr_elem =? 0
         then u32 (cnt + 1) else cnt)
  end.

Definition netLimitConns (os : os_t) (connsock : Z) : M bool :=
  nsjconf <- get ;;
  (* 0 means 'unlimited' *)
  if max_conns_per_ip nsjconf =? 0 then ret true else
  r <- netConnToText os connsock true 64 true ;;
  let cs_addr := fst r in
  let addr := match snd r with
              | Some a => a
              | None => os_stack_addr os
              end in
  let cnt := netLimitConns_count addr (pids nsjconf) 0 in
  if cnt >=? max_conns_per_ip nsjconf
  then emit (Log WARNING
               "Rejecting connection from '%s', max_conns_per_ip limit reached: %u"
               [AStr cs_addr; AInt (max_conns_per_ip nsjconf)]) ;;
       ret false
  else ret true.

End Net.

(* ================================================================== *)
(** * subproc.c *)

Module Subproc.

Import Libc Common Linux Proc Net.
Local Open Scope proc_scope.

(** A containment step: the call is observed, its verdict is the
    system's. *)
Definition contain (os : os_t) (step : contain_step) : M bool :=
  let ok := os_contain os step in
  emit (Contain step ok) ;;
  ret ok.

(** [for (int i = 0; nsjconf->argv[i]; i++) LOG_D (" Arg[%d]: '%s'", ...)] *)
Fixpoint log_args (i : Z) (args : list string) : M unit :=
  match args with
  | [] => ret tt
  | a :: args' =>
      emit (Log DEBUG " Arg[%d]: '%s'" [AInt i; AStr a]) ;;
      log_args (i + 1) args'
  end.

(** [argv[0]]: [None] is the [NULL] that ends an empty vector. *)
Definition argv0 (c : nsjconf_t) : option string := hd_error (argv c).
Definition argv0_txt (c : nsjconf_t) : string :=
  match argv0 c with Some a => a | None => "(null)" end.

Definition subprocNewProc (os : os_t) (fd_in fd_out fd_err pipefd : Z)
  : M Z :=
  ok <- contain os PrepareEnv ;;
  when (negb ok) (exit_ 1) ;;
  ok <- contain os SetupFD ;;
  when (negb ok) (exit_ 1) ;;
  ok <- contain os MountFS ;;
  when (negb ok) (exit_ 1) ;;
  ok <- contain os DropPrivs ;;
  when (negb ok) (exit_ 1) ;;
  (* As non-root *)
  ok <- contain os SetLimits ;;
  when (negb ok) (exit_ 1) ;;
  ok <- contain os MakeFdsCOE ;;
  when (negb ok) (exit_ 1) ;;
  (* Should be the last one in the sequence *)
  ok <- contain os SandboxApply ;;
  when (negb ok) (exit_ 1) ;;
  nsjconf <- get ;;
  let env := if keep_env nsjconf then Some (os_environ os) else None in
  emit (Log DEBUG "Trying to execve('%s')" [AStr (argv0_txt nsjconf)]) ;;
  log_args 0 (argv nsjconf) ;;
  emit (Execve (argv0 nsjconf) (argv nsjconf) env (os_execve os)) ;;
  when (os_execve os) execed ;;
  emit (PLog ERROR "execve('%s') failed" [AStr (argv0_txt nsjconf)]) ;;
  exit_ 1.

(** [malloc (sizeof (struct pids_t))]: the block comes with whatever it
    held before. *)
Definition malloc (os : os_t) : M (option pids_t) :=
  emit (Malloc (match os_malloc os with Some _ => true | None => false end)) ;;
  ret (os_malloc os).

Definition LIST_INSERT_HEAD (p : pids_t) : M unit :=
  nsjconf <- get ;;
  put (set_pids (p :: pids nsjconf) nsjconf) ;;
  emit (ListInsertHead p).

Definition subprocAdd (os : os_t) (pid : Z) (sock : Z) : M unit :=
  blk <- malloc os ;;
  match blk with
  | None => emit (PLog ERROR "malloc" [])
  | Some p0 =>
      r <- netConnToText os sock true sizeof_remote_txt true ;;
      let p := {| Common.pid := pid;
                  start := os_time os;
                  remote_txt := fst r;
                  remote_addr := match snd r with
                                 | Some a => a
                                 | None => remote_addr p0
                                 end |} in
      LIST_INSERT_HEAD p ;;
      emit (Log DEBUG
              "Added pid '%d' with start time '%u' to the queue for IP: '%s'"
              [AInt pid; AInt (u32 (start p)); AStr (remote_txt p)])
  end.

(** [LIST_FOREACH] up to the first element with the given pid: the
    element and the list without it. *)
Fixpoint find_remove (pid : Z) (l : list pids_t)
  : option (pids_t * list pids_t) :=
  match l with
  | [] => None
  | p :: l' =>
      if Common.pid p =? pid then Some (p, l')
      else match find_remove pid l' with
           | Some (q, l'') => Some (q, p :: l'')
           | None => None
           end
  end.

Definition subprocRemove (pid : Z) : M unit :=
  nsjconf <- get ;;
  match find_remove pid (pids nsjconf) with
  | Some (p, rest) =>
      emit (Log DEBUG
              "Removing pid '%d' from the queue (IP:'%s', start time:'%u')"
              [AInt (Common.pid p); AStr (remote_txt p); AInt (u32 (start p))]) ;;
      put (set_pids rest nsjconf) ;;
      emit (ListRemove p)
  | None => emit (Log WARNING "PID: %d not found (?)" [AInt pid])
  end.

Definition subprocCount (nsjconf : nsjconf_t) : Z :=
  Z.of_nat (List.length (pids nsjconf)).

(** The [while ((pid = waitpid (-1, &status, WNOHANG)) > 0)] loop.  The
    kernel holds finitely many terminated children; the list is what the
    successive calls return before the first call that returns 0 or -1. *)
Fixpoint subprocReap_wait (ws : list (Z * wstatus)) : M unit :=
  match ws with
  | [] => emit (Waitpid 0 WOther)
  | (pid, status) :: ws' =>
      emit (Waitpid pid status) ;;
      if pid >? 0 then
        when (WIFEXITED status)
          (subprocRemove pid ;;
           c <- get ;;
           emit (Log INFO "PID: %d exited with status: %d, (PIDs left: %d)"
                   [AInt pid; AInt (WEXITSTATUS status); AInt (subprocCount c)])) ;;
        when (WIFSIGNALED status)
          (subprocRemove pid ;;
           c <- get ;;
           emit (Log INFO "PID: %d terminated with signal: %d, (PIDs left: %d)"
                   [AInt pid; AInt (WTERMSIG status); AInt (subprocCount c)])) ;;
        subprocReap_wait ws'
      else ret tt
  end.

(** The second loop of [subprocReap]: the time limit.  [time_t] is a
    64-bit signed integer. *)
Definition subprocReap_tlimit_body (now : Z) (p : pids_t) : M unit :=
  nsjconf <- get ;;
  if tlimit nsjconf =? 0 then ret tt (* continue *) else
  let pid := Common.pid p in
  let diff := s64 (now - start p) in
  when (diff >=? tlimit nsjconf)
    (emit (Log INFO
             "PID: %d run time >= time limit (%ld >= %ld) (%s). Killing it"
             [AInt pid; AInt diff; AInt (tlimit nsjconf); AStr (remote_txt p)]) ;;
     emit (Kill pid SIGCONT) ;;
     emit (PLog DEBUG "Sent SIGCONT to PID: %d" [AInt pid]) ;;
     emit (Kill pid SIGKILL) ;;
     emit (PLog DEBUG "Sent SIGKILL to PID: %d" [AInt pid])).

Fixpoint subprocReap_tlimit_loop (now : Z) (l : list pids_t) : M unit :=
  match l with
  | [] => ret tt
  | p :: l' =>
      subprocReap_tlimit_body now p ;;
      subprocReap_tlimit_loop now l'
  end.

Definition subprocReap_tlimit (os : os_t) : M unit :=
  let now := os_time os in
  nsjconf <- get ;;
  subprocReap_tlimit_loop now (pids nsjconf).

Definition subprocReap (os : os_t) : M unit :=
  subprocReap_wait (os_waitpid os) ;;
  subprocReap_tlimit os.

Fixpoint subprocKillAll_loop (l : list pids_t) : M unit :=
  match l with
  | [] => ret tt
  | p :: l' => emit (Kill (Common.pid p) SIGKILL) ;; subprocKillAll_loop l'
  end.

Definition subprocKillAll : M unit :=
  nsjconf <- get ;;
  subprocKillAll_loop (pids nsjconf).

(** The clone flags computed at the head of [subprocRunChild]. *)
Definition clone_flags (nsjconf : nsjconf_t) : Z :=
  let flags := SIGCHLD in
  let flags := Z.lor flags (if clone_newnet nsjconf then CLONE_NEWNET else 0) in
  let flags := Z.lor flags (if clone_newuser nsjconf then CLONE_NEWUSER else 0) in
  let flags := Z.lor flags (if clone_newns nsjconf then CLONE_NEWNS else 0) in
  let flags := Z.lor flags (if clone_newpid nsjconf then CLONE_NEWPID else 0) in
  let flags := Z.lor flags (if clone_newipc nsjconf then CLONE_NEWIPC else 0) in
  let flags := Z.lor flags (if clone_newuts nsjconf then CLONE_NEWUTS else 0) in
  flags.

(** [while ((sz = read (pipefd[0], log_buf, sizeof (log_buf) - 1)) > 0)]:
    the [k]-th call of [read] returns [os_read os k]. *)
Fixpoint drain_log_pipe (os : os_t) (fuel : nat) (k : nat) (fd : Z)
  : M unit :=
  match fuel with
  | O => out_of_fuel
  | S fuel' =>
      let sz := os_read os k in
      emit (Read fd sz) ;;
      if sz >? 0
      then emit (LogDirectlyToFD sz) ;; drain_log_pipe os fuel' (S k) fd
      else ret tt
  end.

Definition clone_failed_msg : string :=
  "clone(flags=%#x) failed. You probably need root privileges if your system doesn't support CLONE_NEWUSER. Alternatively, you might want to recompile your kernel with support for namespaces".

Definition subprocRunChild (os : os_t) (fuel : nat) (fd_in fd_out fd_err : Z)
  : M unit :=
  admitted <- netLimitConns os fd_in ;;
  if negb admitted then ret tt else
  nsjconf <- get ;;
  let flags := clone_flags nsjconf in
  emit (Log DEBUG "Creating new process with clone flags: %#x" [AInt flags]) ;;
  emit (Pipe2 (os_pipe2 os)) ;;
  match os_pipe2 os with
  | None => emit (PLog ERROR "pipe2(pipefd, O_CLOEXEC) failed" [])
  | Some (pipefd0, pipefd1) =>
      let pid := os_clone os in
      emit (Clone flags pid) ;;
      when (pid =? 0)
        (_ <- subprocNewProc os fd_in fd_out fd_err pipefd1 ;; ret tt) ;;
      if pid =? -1 then
        emit (PLog ERROR clone_failed_msg [AInt flags]) ;;
        emit (Close pipefd0) ;;
        emit (Close pipefd1)
      else
        ok <- netCloneNetIfaces os pid ;;
        when (negb ok)
          (emit (Log ERROR
                   "Couldn't create and put MACVTAP interface into NS of PID '%d'"
                   [AInt pid])) ;;
        drain_log_pipe os fuel 0 pipefd0 ;;
        emit (Close pipefd0) ;;
        subprocAdd os pid fd_in ;;
        r <- netConnToText os fd_in true 64 false ;;
        nsjconf <- get ;;
        emit (Log INFO "PID: %d about to execute '%s' for %s"
                [AInt pid; AStr (argv0_txt nsjconf); AStr (fst r)])
  end.

End Subproc.

(* ================================================================== *)
(** * Notions the properties are stated with *)

Module Spec.

Import Libc Common Proc.

(** A C string holds no NUL before its terminator. *)
Definition cstring (s : string) : Prop :=
  Cmdline.string_forallb (fun c => negb (code c =? 0)) s = true.

Fixpoint lower (s : string) : string :=
  match s with
  | EmptyString => EmptyString
  | String c s' => String (tolower c) (lower s')
  end.

(** The number a run of decimal digits denotes, continuing from [acc]. *)
Fixpoint decimal_from (acc : Z) (s : string) : Z :=
  match s with
  | EmptyString => acc
  | String c s' => decimal_from (acc * 10 + (code c - 48)) s'
  end.

(** A decimal numeral as C writes it: one or more decimal digits, without a
    leading 0 unless it is the numeral 0 itself.  (To [strtoul] with base 0
    a longer string with a leading 0 is an octal numeral.) *)
Definition decimal_numeral (s : string) : bool :=
  match s with
  | EmptyString => false
  | String c t =>
      (negb (code c =? 48) || match t with EmptyString => true | _ => false end)
      && Cmdline.string_forallb isdigit s
  end.

Definition decimal_value (s : string) : Z := decimal_from 0 s.

(** The value [getopt_long] returns for ["--rlimit_<resource>"], from the
    option table of [cmdlineParse]. *)
Definition rlimit_option_code (res : Cmdline.rlimit_resource) : Z :=
  match res with
  | Cmdline.RLIMIT_AS => 0x0201
  | Cmdline.RLIMIT_CORE => 0x0202
  | Cmdline.RLIMIT_CPU => 0x0203
  | Cmdline.RLIMIT_FSIZE => 0x0204
  | Cmdline.RLIMIT_NOFILE => 0x0205
  | Cmdline.RLIMIT_NPROC => 0x0206
  | Cmdline.RLIMIT_STACK => 0x0207
  end.

(** The unit of each resource: megabytes for address space, core, file
    size and stack; 1 for cpu, nofile and nproc. *)
Definition rlimit_unit (res : Cmdline.rlimit_resource) : Z :=
  match res with
  | Cmdline.RLIMIT_AS | Cmdline.RLIMIT_CORE
  | Cmdline.RLIMIT_FSIZE | Cmdline.RLIMIT_STACK => 1024 * 1024
  | Cmdline.RLIMIT_CPU | Cmdline.RLIMIT_NOFILE | Cmdline.RLIMIT_NPROC => 1
  end.

Definition rl_field (res : Cmdline.rlimit_resource) (c : nsjconf_t) : Z :=
  match res with
  | Cmdline.RLIMIT_AS => rl_as c
  | Cmdline.RLIMIT_CORE => rl_core c
  | Cmdline.RLIMIT_CPU => rl_cpu c
  | Cmdline.RLIMIT_FSIZE => rl_fsize c
  | Cmdline.RLIMIT_NOFILE => rl_nofile c
  | Cmdline.RLIMIT_NPROC => rl_nproc c
  | Cmdline.RLIMIT_STACK => rl_stack c
  end.

(** A supervisor whose limits are 1024 (soft) and 4096 (hard) for every
    resource, with [errno] clear. *)
Definition sample_rlimit_env : Cmdline.rlimit_env :=
  {| Cmdline.getrlimit := fun _ => Some {| Cmdline.rlim_cur := 1024;
                                           Cmdline.rlim_max := 4096 |};
     Cmdline.errno_in := 0 |}.

(** *** The child builder *)

(** The containment steps in the order the builder must take them. *)
Definition fixed_order : list contain_step :=
  [PrepareEnv; SetupFD; MountFS; DropPrivs; SetLimits; MakeFdsCOE;
   SandboxApply].

Inductive builder_call :=
| CallContain (step : contain_step)
| CallExecve.

(** The calls of containment steps and of [execve] in a trace. *)
Fixpoint calls_of (ev : list event) : list builder_call :=
  match ev with
  | [] => []
  | Contain step _ :: ev' => CallContain step :: calls_of ev'
  | Execve _ _ _ _ :: ev' => CallExecve :: calls_of ev'
  | _ :: ev' => calls_of ev'
  end.

(** The steps taken when each is fatal on failure: all up to and
    including the first that fails. *)
Fixpoint until_failure (ok : contain_step -> bool) (l : list contain_step)
  : list contain_step :=
  match l with
  | [] => []
  | step :: l' => step :: (if ok step then until_failure ok l' else [])
  end.

Definition all_ok (ok : contain_step -> bool) : bool :=
  forallb ok fixed_order.

(** *** The rate limiter *)

Fixpoint byte_list_eqb (a b : list byte) : bool :=
  match a, b with
  | [], [] => true
  | x :: a', y :: b' => Byte.eqb x y && byte_list_eqb a' b'
  | _, _ => false
  end.

(** Two addresses are the same when all 16 bytes agree. *)
Definition same_ip (a b : sockaddr_in6) : bool :=
  byte_list_eqb (firstn 16 (sin6_addr a)) (firstn 16 (sin6_addr b)).

Definition count_same_ip (addr : sockaddr_in6) (roster : list pids_t) : Z :=
  Z.of_nat (List.length (filter (fun p => same_ip addr (remote_addr p)) roster)).

(** [allow (remote_addr, roster, cap)] *)
Definition allow (addr : sockaddr_in6) (roster : list pids_t) (cap : Z)
  : bool :=
  (cap =? 0) || (count_same_ip addr roster <? cap).

(** What the counting loop compares: the first byte only. *)
Definition same_first_byte (a b : sockaddr_in6) : bool :=
  byte_list_eqb (firstn 1 (sin6_addr a)) (firstn 1 (sin6_addr b)).

(** *** Traces *)

Definition is_insert (e : event) : Prop :=
  match e with ListInsertHead _ => True | _ => False end.

Definition is_log (e : event) : Prop :=
  match e with Log _ _ _ | PLog _ _ _ => True | _ => False end.

(** Events that touch neither the roster nor the net attacher nor the
    allocator. *)
Definition is_bystander (e : event) : Prop :=
  match e with
  | ListInsertHead _ | ListRemove _ | NetCloneMacV _ _ _ _ _ | Malloc _ => False
  | _ => True
  end.

Definition is_clone (e : event) : Prop :=
  match e with Clone _ _ => True | _ => False end.

Definition is_waitpid (e : event) : Prop :=
  match e with Waitpid _ _ => True | _ => False end.

(** The events of the child builder. *)
Definition is_child_event (e : event) : Prop :=
  match e with
  | Contain _ _ | Execve _ _ _ _ | Log _ _ _ | PLog _ _ _ => True
  | _ => False
  end.

(** The events of the parent after a successful [clone]. *)
Definition is_parent_event (e : event) : Prop :=
  match e with
  | Log _ _ _ | PLog _ _ _ | NetCloneMacV _ _ _ _ _ | Read _ _
  | LogDirectlyToFD _ | Close _ | Malloc _ | ListInsertHead _ => True
  | _ => False
  end.

(** The [read]s of a trace, descriptor and result, in order. *)
Fixpoint reads_of (ev : list event) : list (Z * Z) :=
  match ev with
  | [] => []
  | Read fd ret :: ev' => (fd, ret) :: reads_of ev'
  | _ :: ev' => reads_of ev'
  end.

(** *** Clone flags *)

(** Each namespace switch of the configuration with its clone flag. *)
Definition namespace_flags (c : nsjconf_t) : list (bool * Z) :=
  [(clone_newnet c, Linux.CLONE_NEWNET);
   (clone_newuser c, Linux.CLONE_NEWUSER);
   (clone_newns c, Linux.CLONE_NEWNS);
   (clone_newpid c, Linux.CLONE_NEWPID);
   (clone_newipc c, Linux.CLONE_NEWIPC);
   (clone_newuts c, Linux.CLONE_NEWUTS)].

(** The flags of the namespaces that are enabled. *)
Definition requested_flags (c : nsjconf_t) : list Z :=
  map snd (filter fst (namespace_flags c)).

(** The signals a trace sends, in order. *)
Fixpoint signals_of (ev : list event) : list (Z * Z) :=
  match ev with
  | [] => []
  | Kill pid sig :: ev' => (pid, sig) :: signals_of ev'
  | _ :: ev' => signals_of ev'
  end.

(** The signals time-limit enforcement owes a roster: SIGCONT then
    SIGKILL for each record whose age has reached the limit. *)
Definition expired (tlimit now : Z) (p : pids_t) : bool :=
  negb (tlimit =? 0) && (now - start p >=? tlimit).

Definition owed_signals (tlimit now : Z) (roster : list pids_t)
  : list (Z * Z) :=
  flat_map (fun p => if expired tlimit now p
                     then [(pid p, Linux.SIGCONT); (pid p, Linux.SIGKILL)]
                     else []) roster.

(** *** Sample data *)

Definition zero16 : list byte := repeat x00 16.

(** 2001:db8::1 and 2001:db8::2 *)
Definition ip_1 : list byte :=
  [x20; x01; x0d; xb8; x00; x00; x00; x00; x00; x00; x00; x00; x00; x00; x00; x01].
Definition ip_2 : list byte :=
  [x20; x01; x0d; xb8; x00; x00; x00; x00; x00; x00; x00; x00; x00; x00; x00; x02].

Definition sockaddr_of (ip : list byte) (port : Z) : sockaddr_in6 :=
  {| sin6_family := 10; sin6_port := port; sin6_flowinfo := 0;
     sin6_addr := ip; sin6_scope_id := 0 |}.

(** A record of a child serving 2001:db8::1. *)
Definition child_of_ip_1 : pids_t :=
  {| pid := 100; start := 1000; remote_txt := "2001:db8::1:40000";
     remote_addr := sockaddr_of ip_1 16540 |}.

Definition sample_conf (cap tlimit : Z) (roster : list pids_t) : nsjconf_t :=
  {| max_conns_per_ip := cap; tlimit := tlimit; keep_env := false;
     argv := ["/bin/cat"%string];
     clone_newnet := true; clone_newuser := true; clone_newns := true;
     clone_newpid := true; clone_newipc := true; clone_newuts := true;
     iface_macvtap := None; iface_macvlan := None;
     rl_as := 512 * 1024 * 1024; rl_core := 0; rl_cpu := 600;
     rl_fsize := 1024 * 1024; rl_nofile := 32; rl_nproc := 1024;
     rl_stack := 8 * 1024 * 1024;
     pids := roster |}.

(** A system described by what its descriptors are, what [clone] and
    the successive [read]s return, what [malloc] hands out and which
    children [waitpid] reports; every containment step and [execve]
    succeed, [pipe2] gives the descriptors 7 and 8, the clock reads
    2000. *)
Definition sample_os (fds : Z -> fd_state) (clone_ret : Z)
    (reads : nat -> Z) (block : option pids_t)
    (waits : list (Z * wstatus)) : os_t :=
  {| os_fd := fds;
     os_inet_ntop := fun _ _ => Some "2001:db8::2"%string;
     os_pipe2 := Some (7, 8);
     os_clone := clone_ret;
     os_macv := fun _ _ _ _ => true;
     os_read := reads;
     os_malloc := block;
     os_time := 2000;
     os_stack_addr := sockaddr_of zero16 0;
     os_contain := fun _ => true;
     os_execve := true;
     os_environ := [];
     os_waitpid := waits |}.

(** Descriptor 5 is a connection from 2001:db8::2; the others are no
    sockets. *)
Definition conn_from_ip_2 (fd : Z) : fd_state :=
  if fd =? 5
  then FdSocket (Some (sockaddr_of ip_2 16540)) (Some (sockaddr_of zero16 27002))
  else FdOther.

(** A connection from 2001:db8::2 on descriptor 5 for which [clone]
    fails, and one for which [clone] gives the pid 1234 but [malloc]
    fails afterwards; in both the log pipe is at end of file at once. *)
Definition os_clone_fails : os_t :=
  sample_os conn_from_ip_2 (-1) (fun _ => 0) None [].
Definition os_malloc_fails : os_t :=
  sample_os conn_from_ip_2 1234 (fun _ => 0) None [].

(** A configuration with a cap of two connections per address, a time
    limit of 600 seconds and one child on the roster. *)
Definition conf_one_child : nsjconf_t := sample_conf 2 600 [child_of_ip_1].

(** No descriptor is a socket: a standalone mode. *)
Definition standalone_fds (fd : Z) : fd_state := FdOther.

End Spec.

(* ================================================================== *)
(** * Parts of the functions above, named to state facts about them *)

Module Parts.

Import Libc Common Linux Proc Net Subproc Spec.
Local Open Scope proc_scope.

(** The characters of a string. *)
Fixpoint chars (s : string) : list ascii :=
  match s with
  | EmptyString => []
  | String c s' => c :: chars s'
  end.

Fixpoint log_args_events (i : Z) (args : list string) : list event :=
  match args with
  | [] => []
  | a :: args' =>
      Log DEBUG " Arg[%d]: '%s'" [AInt i; AStr a] :: log_args_events (i + 1) args'
  end.

(** The tail of the builder, after the last containment step. *)
Definition builder_exec (os : os_t) : M Z :=
  nsjconf <- get ;;
  let env := if keep_env nsjconf then Some (os_environ os) else None in
  emit (Log DEBUG "Trying to execve('%s')" [AStr (argv0_txt nsjconf)]) ;;
  log_args 0 (argv nsjconf) ;;
  emit (Execve (argv0 nsjconf) (argv nsjconf) env (os_execve os)) ;;
  when (os_execve os) execed ;;
  emit (PLog ERROR "execve('%s') failed" [AStr (argv0_txt nsjconf)]) ;;
  exit_ 1.

(** The record [subprocAdd] builds in a block that held [p0], when
    [netConnToText] answered [r]. *)
Definition record_of (os : os_t) (pid : Z) (p0 : pids_t)
    (r : string * option sockaddr_in6) : pids_t :=
  {| Common.pid := pid;
     start := os_time os;
     remote_txt := fst r;
     remote_addr := match snd r with
                    | Some a => a
                    | None => remote_addr p0
                    end |}.

(** Enforcement cycles one after the other, each under its own clock. *)
Fixpoint enforce_cycles (cycles : list os_t) : M unit :=
  match cycles with
  | [] => ret tt
  | os :: cycles' => subprocReap_tlimit os ;; enforce_cycles cycles'
  end.

Definition no_insert (e : event) : Prop := ~ is_insert e.


(** What the parent does once [clone] returned a child's pid. *)
Definition spawn_parent (os : os_t) (fuel : nat) (pid pipefd0 fd_in : Z)
  : M unit :=
  ok <- netCloneNetIfaces os pid ;;
  when (negb ok)
    (emit (Log ERROR
             "Couldn't create and put MACVTAP interface into NS of PID '%d'"
             [AInt pid])) ;;
  drain_log_pipe os fuel 0 pipefd0 ;;
  emit (Close pipefd0) ;;
  subprocAdd os pid fd_in ;;
  r <- netConnToText os fd_in true 64 false ;;
  nsjconf <- get ;;
  emit (Log INFO "PID: %d about to execute '%s' for %s"
          [AInt pid; AStr (argv0_txt nsjconf); AStr (fst r)]).

(** The first events of a spawn that was admitted. *)
Definition spawn_head (os : os_t) (c : nsjconf_t) : list event :=
  [Log DEBUG "Creating new process with clone flags: %#x" [AInt (clone_flags c)];
   Pipe2 (os_pipe2 os)].

End Parts.

(* ================================================================== *)
(** * Notions for the properties of the roster and of the rate limiter *)

Module Notions.

Import Libc Common Linux Proc Spec.

(** The pids on the roster, first record first. *)
Definition pids_of (c : nsjconf_t) : list Z := map pid (pids c).

(** At most one record per pid. *)
Definition roster_nodup (c : nsjconf_t) : Prop := NoDup (pids_of c).

(** A roster without the records of the given pids. *)
Definition without_pids (gone : list Z) (l : list pids_t) : list pids_t :=
  filter (fun p => negb (existsb (Z.eqb (pid p)) gone)) l.

(** A status [waitpid] reports for a child that has ended. *)
Definition has_ended (st : wstatus) : bool := WIFEXITED st || WIFSIGNALED st.

(** The pids the reap loop removes: those reported as exited or killed by
    a signal, up to the first report whose pid is not positive. *)
Fixpoint reaped_pids (ws : list (Z * wstatus)) : list Z :=
  match ws with
  | [] => []
  | (pid, st) :: ws' =>
      if pid >? 0
      then (if has_ended st then [pid] else []) ++ reaped_pids ws'
      else []
  end.

(** The number of records whose first address byte is that of [addr]. *)
Definition first_byte_count (addr : sockaddr_in6) (roster : list pids_t) : Z :=
  Z.of_nat (List.length
              (filter (fun p => same_first_byte addr (remote_addr p)) roster)).

(** Every address on the roster has at least one byte. *)
Definition addresses_present (roster : list pids_t) : Prop :=
  Forall (fun p => (1 <= List.length (sin6_addr (remote_addr p)))%nat) roster.

(** No first address byte is shared by more records than the cap. *)
Definition within_cap (c : nsjconf_t) : Prop :=
  forall addr, first_byte_count addr (pids c) <= max_conns_per_ip c.

(** The calls of the net attacher in a trace: kind, name given to the new
    link, master interface and outcome. *)
Fixpoint attach_calls (ev : list event) : list (string * string * string * bool) :=
  match ev with
  | [] => []
  | NetCloneMacV type name iface _ ok :: ev' =>
      (type, name, iface, ok) :: attach_calls ev'
  | _ :: ev' => attach_calls ev'
  end.

(** The name [netConnToText] asks the system for. *)
Definition name_of (os : os_t) (fd : Z) (remote : bool) : option sockaddr_in6 :=
  match os_fd os fd with
  | FdSocket peer local => if remote then peer else local
  | FdOther => None
  end.

(** The events of forwarding the chunks that the reads number [k], ...,
    [k + n - 1] returned, in order. *)
Definition forwarded (os : os_t) (fd : Z) (k n : nat) : list event :=
  flat_map (fun i => [Read fd (os_read os i); LogDirectlyToFD (os_read os i)])
           (seq k n).

(** The record of a child [pid] spawned for the connection [fd], in a
    block that held [p0], with [txt] as its text. *)
Definition spawned_record (os : os_t) (pid fd : Z) (p0 : pids_t) (txt : string)
  : pids_t :=
  {| Common.pid := pid;
     start := os_time os;
     remote_txt := txt;
     remote_addr := match name_of os fd true with
                    | Some a => a
                    | None => remote_addr p0
                    end |}.

(** A roster of two children and a system in which [waitpid] reports the
    first as exited and the clock has passed the time limit of both. *)
Definition child_200 : pids_t :=
  {| pid := 200; start := 1000; remote_txt := "[STANDALONE_MODE]";
     remote_addr := sockaddr_of ip_2 0 |}.
Definition conf_two_children : nsjconf_t :=
  sample_conf 2 600 [child_of_ip_1; child_200].
Definition os_reports_100 : os_t :=
  sample_os standalone_fds 0 (fun _ => 0) None [(100, WExited 0)].
Definition os_reports_both : os_t :=
  sample_os standalone_fds 0 (fun _ => 0) None
    [(100, WSignaled 9); (200, WSignaled 9)].

(** A connection from 2001:db8::2 on descriptor 5 whose spawn goes
    through: [clone] gives the pid 1234, the log pipe holds two chunks and
    [malloc] succeeds. *)
Definition os_spawn_ok : os_t :=
  sample_os conn_from_ip_2 1234
    (fun i => match i with 0%nat => 10 | 1%nat => 20 | _ => 0 end)
    (Some child_200) [].

End Notions.


(* ================================================================== *)
(** * subproc.c: a spawn during which the system's answers change *)

Module Later.

Import Libc Common Linux Proc Net Subproc Spec.
Local Open Scope proc_scope.

(** [subprocRunChild] asks the system about [fd_in] three times:
    [netLimitConns] asks for the peer at the start, [subprocAdd] asks for it
    again once the read loop on the log pipe has ended, and [netConnToText]
    a third time for the last log line.  The read loop blocks until the
    child has closed the pipe, so the peer may be gone by then.  Here the
    system answers as [os] up to the end of the read loop, as [os_add]
    during [subprocAdd] (its [getpeername], [malloc] and clock) and as
    [os_log] for the last log line. *)
Definition spawn_parent_later (os os_add os_log : os_t) (fuel : nat)
    (pid pipefd0 fd_in : Z) : M unit :=
  ok <- netCloneNetIfaces os pid ;;
  when (negb ok)
    (emit (Log ERROR
             "Couldn't create and put MACVTAP interface into NS of PID '%d'"
             [AInt pid])) ;;
  drain_log_pipe os fuel 0 pipefd0 ;;
  emit (Close pipefd0) ;;
  subprocAdd os_add pid fd_in ;;
  r <- netConnToText os_log fd_in true 64 false ;;
  nsjconf <- get ;;
  emit (Log INFO "PID: %d about to execute '%s' for %s"
          [AInt pid; AStr (argv0_txt nsjconf); AStr (fst r)]).

Definition subprocRunChild_later (os os_add os_log : os_t) (fuel : nat)
    (fd_in fd_out fd_err : Z) : M unit :=
  admitted <- netLimitConns os fd_in ;;
  if negb admitted then ret tt else
  nsjconf <- get ;;
  let flags := clone_flags nsjconf in
  emit (Log DEBUG "Creating new process with clone flags: %#x" [AInt flags]) ;;
  emit (Pipe2 (os_pipe2 os)) ;;
  match os_pipe2 os with
  | None => emit (PLog ERROR "pipe2(pipefd, O_CLOEXEC) failed" [])
  | Some (pipefd0, pipefd1) =>
      let pid := os_clone os in
      emit (Clone flags pid) ;;
      when (pid =? 0)
        (_ <- subprocNewProc os fd_in fd_out fd_err pipefd1 ;; ret tt) ;;
      if pid =? -1 then
        emit (PLog ERROR clone_failed_msg [AInt flags]) ;;
        emit (Close pipefd0) ;;
        emit (Close pipefd1)
      else
        ok <- netCloneNetIfaces os pid ;;
        when (negb ok)
          (emit (Log ERROR
                   "Couldn't create and put MACVTAP interface into NS of PID '%d'"
                   [AInt pid])) ;;
        drain_log_pipe os fuel 0 pipefd0 ;;
        emit (Close pipefd0) ;;
        subprocAdd os_add pid fd_in ;;
        r <- netConnToText os_log fd_in true 64 false ;;
        nsjconf <- get ;;
        emit (Log INFO "PID: %d about to execute '%s' for %s"
                [AInt pid; AStr (argv0_txt nsjconf); AStr (fst r)])
  end.

(** fe80::1 *)
Definition ip_3 : list byte :=
  [xfe; x80; x00; x00; x00; x00; x00; x00; x00; x00; x00; x00; x00; x00; x00; x01].

(** Descriptor 5 is a connection from fe80::1; and the same descriptor
    once the peer is gone, when [getpeername] fails on it. *)
Definition conn_from_ip_3 (fd : Z) : fd_state :=
  if fd =? 5
  then FdSocket (Some (sockaddr_of ip_3 16540)) (Some (sockaddr_of zero16 27002))
  else FdOther.
Definition conn_peer_gone (fd : Z) : fd_state :=
  if fd =? 5
  then FdSocket None (Some (sockaddr_of zero16 27002))
  else FdOther.

(** A block handed out by [malloc] that still holds the record of an
    earlier child from 2001:db8::1. *)
Definition stale_block : pids_t :=
  {| pid := 99; start := 900; remote_txt := "2001:db8::1:40000";
     remote_addr := sockaddr_of ip_1 16540 |}.

(** A spawn for a connection from fe80::1: [clone] gives the pid 1234 and
    the log pipe is at end of file at once; and the same system after the
    peer has gone. *)
Definition os_ip_3 : os_t :=
  sample_os conn_from_ip_3 1234 (fun _ => 0) (Some stale_block) [].
Definition os_ip_3_gone : os_t :=
  sample_os conn_peer_gone 1234 (fun _ => 0) (Some stale_block) [].

(** A cap of one connection per address, with one child on the roster. *)
Definition conf_cap_1 : nsjconf_t := sample_conf 1 600 [child_of_ip_1].

End Later.

(* ================================================================== *)
(** * cmdline.c: the user and the group of the jail *)

Module CmdlineIds.

Import Libc Cmdline.

(** The password and group databases: [getpwnam] and [getgrnam] give the
    numeric id of a name, or [None] for [NULL]. *)
Record id_env := {
  getpwnam : string -> option Z;
  getgrnam : string -> option Z
}.

(** [(uid_t) strtoull (name, NULL, 0)]; [unsigned long long] and
    [unsigned long] are both 64 bits wide, [uid_t] and [gid_t] 32. *)
Definition numeric_id (name : string) : Z := u32 (fst (strtoul0 name 0)).

(** How the end of [cmdlineParse] comes out: both ids, or the name it
    reported with [LOG_E] before returning false. *)
Inductive ids_result :=
| Ids (uid gid : Z)
| NoSuchUser (user : string)
| NoSuchGroup (group : string).

(** The last part of [cmdlineParse], from [getpwnam (user)] on. *)
Definition cmdlineParse_ids (env : id_env) (user group : string) : ids_result :=
  match (match getpwnam env user with
         | Some uid => Some uid
         | None => if cmdlineIsANumber user then Some (numeric_id user) else None
         end) with
  | None => NoSuchUser user
  | Some uid =>
      match (match getgrnam env group with
             | Some gid => Some gid
             | None => if cmdlineIsANumber group
                       then Some (numeric_id group) else None
             end) with
      | None => NoSuchGroup group
      | Some gid => Ids uid gid
      end
  end.

End CmdlineIds.

(* ================================================================== *)
(** * Notions for the properties of the command line *)

Module CmdlineNotions.

Import Libc Common Linux Cmdline Spec.

(** The value [getopt_long] returns for each option that disables a
    namespace, with the clone flag of that namespace, from the option table
    of [cmdlineParse]. *)
Definition namespace_options : list (Z * Z) :=
  [(78, CLONE_NEWNET); (0x0402, CLONE_NEWUSER); (0x0403, CLONE_NEWNS);
   (0x0404, CLONE_NEWPID); (0x0405, CLONE_NEWIPC); (0x0406, CLONE_NEWUTS)].

(** The number a run of digits denotes in a radix, continuing from [acc]. *)
Fixpoint radix_from (base acc : Z) (s : string) : Z :=
  match s with
  | EmptyString => acc
  | String c s' => radix_from base (acc * base + (code c - 48)) s'
  end.

Definition is_octal_digit (c : ascii) : bool := (48 <=? code c) && (code c <=? 55).

(** "0" followed by octal digits. *)
Definition octal_numeral (s : string) : bool :=
  match s with
  | String z t => (code z =? 48) && string_forallb is_octal_digit t
  | EmptyString => false
  end.

(** "0x" followed by one or more decimal digits. *)
Definition hex_numeral (s : string) : bool :=
  match s with
  | String z (String x (String h t)) =>
      (code z =? 48) && (code x =? 120) && string_forallb isdigit (String h t)
  | _ => false
  end.

(** The digits of a hex numeral. *)
Definition hex_digits (s : string) : string :=
  match s with
  | String _ (String _ t) => t
  | _ => EmptyString
  end.


(** Databases that know only the user and the group "nobody". *)
Definition only_nobody : CmdlineIds.id_env :=
  {| CmdlineIds.getpwnam := fun n => if String.eqb n "nobody" then Some 65534 else None;
     CmdlineIds.getgrnam := fun n => if String.eqb n "nobody" then Some 65534 else None |}.

End CmdlineNotions.


(* ================================================================== *)
(** * net.c: the listening socket *)

Module Listen.

Import Libc Common Proc Net.

Definition EINTR : Z := 4.

(** What an observer sees of the listener: its socket calls, a fatal log
    ([LOG_F]), and the events of the functions it calls. *)
Inductive call :=
| Socket (ret : Z)
| SetsockoptReuseaddr (fd ret : Z)
| Bind (fd port ret : Z)
| Listen (fd ret : Z)
| Accept (fd ret : Z)
| SetsockoptCork (fd ret : Z)
| LogFatal (fmt : string) (args : list log_arg)
| Seen (e : event).

(** What the system answers to the listener during one call: the results
    of [socket], of the two [setsockopt]s, of [bind], [listen] and [accept],
    and [errno] after a failed [accept]. *)
Record listen_os := {
  l_os : os_t;
  l_socket : Z;
  l_reuseaddr : Z;
  l_bind : Z;
  l_listen : Z;
  l_accept : Z;
  l_errno : Z;
  l_cork : Z
}.

(** Computations of the listener: as [M], over [call]s. *)
Definition L (A : Type) : Type :=
  nsjconf_t -> outcome A * nsjconf_t * list call.

Definition lret {A} (a : A) : L A := fun c => (Ret a, c, []).

Definition lbind {A B} (m : L A) (k : A -> L B) : L B :=
  fun c =>
    match m c with
    | (Ret a, c1, e1) =>
        let '(o, c2, e2) := k a c1 in (o, c2, e1 ++ e2)
    | (Exited s, c1, e1) => (Exited s, c1, e1)
    | (Execed, c1, e1) => (Execed, c1, e1)
    | (OutOfFuel, c1, e1) => (OutOfFuel, c1, e1)
    end.

Definition does (k : call) : L unit := fun c => (Ret tt, c, [k]).

Definition lexit {A} (status : Z) : L A := fun c => (Exited status, c, []).

(** A computation of [M] run by the listener. *)
Definition lift {A} (m : M A) : L A :=
  fun c => let '(o, c', ev) := m c in (o, c', map Seen ev).

Definition lwhen (cond : bool) (body : L unit) : L unit :=
  if cond then body else lret tt.

Definition calls {A} (r : outcome A * nsjconf_t * list call) : list call :=
  snd r.
Definition answer {A} (r : outcome A * nsjconf_t * list call) : outcome A :=
  fst (fst r).
Definition conf_after {A} (r : outcome A * nsjconf_t * list call) : nsjconf_t :=
  snd (fst r).

(** [SOMAXCONN] of <sys/socket.h>: 4096 in the current glibc headers (128
    in older ones).  It is only printed, in the report of a failed
    [listen]. *)
Definition SOMAXCONN : Z := 4096.

End Listen.

Declare Scope listen_scope.
Delimit Scope listen_scope with listen.
Notation "x <- m ;; k" := (Listen.lbind m (fun x => k))
  (at level 61, m at next level, right associativity) : listen_scope.
Notation "m ;; k" := (Listen.lbind m (fun _ => k))
  (at level 61, right associativity) : listen_scope.

Module Listener.

Import Libc Common Proc Net Listen.
Local Open Scope listen_scope.

(** Modelled from the spec: the macro [LOG_F] of log.h, which is not among
    the sources; a fatal error ends the process with a non-zero status. *)
Definition LOG_F {A} (fmt : string) (args : list log_arg) : L A :=
  does (LogFatal fmt args) ;; lexit 1.

Definition netGetRecvSocket (los : listen_os) (port : Z) : L Z :=
  lwhen ((port <? 1) || (port >? 65535))
    (LOG_F "TCP port %d out of bounds (0 <= port <= 65535)" [AInt port]) ;;
  let sockfd := l_socket los in
  does (Socket sockfd) ;;
  if sockfd =? -1 then
    lift (emit (PLog ERROR "socket(AF_INET6)" [])) ;; lret (-1)
  else
  does (SetsockoptReuseaddr sockfd (l_reuseaddr los)) ;;
  if l_reuseaddr los =? -1 then
    lift (emit (PLog ERROR "setsockopt(%d, SO_REUSEADDR)" [AInt sockfd])) ;;
    lret (-1)
  else
  does (Bind sockfd port (l_bind los)) ;;
  if l_bind los =? -1 then
    lift (emit (PLog ERROR "bind(port:%d)" [AInt port])) ;; lret (-1)
  else
  does (Listen sockfd (l_listen los)) ;;
  if l_listen los =? -1 then
    lift (emit (PLog ERROR "listen(%d)" [AInt SOMAXCONN])) ;; lret (-1)
  else
  ss_addr <- lift (netConnToText (l_os los) sockfd false 64 false) ;;
  lift (emit (Log INFO "Listening on %s" [AStr (fst ss_addr)])) ;;
  lret sockfd.

Definition netAcceptConn (los : listen_os) (listenfd : Z) : L Z :=
  let connfd := l_accept los in
  does (Accept listenfd connfd) ;;
  if connfd =? -1 then
    lwhen (negb (l_errno los =? EINTR))
      (lift (emit (PLog ERROR "accept(%d)" [AInt listenfd]))) ;;
    lret (-1)
  else
  cs_addr <- lift (netConnToText (l_os los) connfd true 64 false) ;;
  ss_addr <- lift (netConnToText (l_os los) connfd false 64 false) ;;
  lift (emit (Log INFO "New connection from: %s on: %s"
                [AStr (fst cs_addr); AStr (fst ss_addr)])) ;;
  does (SetsockoptCork connfd (l_cork los)) ;;
  lwhen (l_cork los =? -1)
    (lift (emit (PLog WARNING "setsockopt(%d, TCP_CORK)" [AInt connfd]))) ;;
  lret connfd.

(** The socket calls of a trace, without the logs. *)
Fixpoint socket_calls (ks : list call) : list call :=
  match ks with
  | [] => []
  | LogFatal _ _ :: ks' => socket_calls ks'
  | Seen _ :: ks' => socket_calls ks'
  | k :: ks' => k :: socket_calls ks'
  end.

(** The logs of a trace that report an error or a warning. *)
Fixpoint complaints (ks : list call) : list call :=
  match ks with
  | [] => []
  | LogFatal f a :: ks' => LogFatal f a :: complaints ks'
  | Seen (PLog lvl f a) :: ks' => Seen (PLog lvl f a) :: complaints ks'
  | _ :: ks' => complaints ks'
  end.

(** The socket calls [netGetRecvSocket] owes for a port in range: socket,
    SO_REUSEADDR, bind and listen, up to the first that fails. *)
Definition listen_sequence (los : listen_os) (port : Z) : list call :=
  Socket (l_socket los) ::
  if l_socket los =? -1 then [] else
  SetsockoptReuseaddr (l_socket los) (l_reuseaddr los) ::
  if l_reuseaddr los =? -1 then [] else
  Bind (l_socket los) port (l_bind los) ::
  if l_bind los =? -1 then [] else
  [Listen (l_socket los) (l_listen los)].

Definition listen_ok (los : listen_os) : bool :=
  negb (l_socket los =? -1) && negb (l_reuseaddr los =? -1)
  && negb (l_bind los =? -1) && negb (l_listen los =? -1).

(** The call does not close a descriptor. *)
Definition keeps_open (k : call) : Prop := forall fd, k <> Seen (Close fd).

(** A system in which the listener's calls succeed: [socket] gives 3,
    [accept] gives 5, a connection from 2001:db8::2. *)
Definition sample_listen_os : listen_os :=
  {| l_os := Spec.os_clone_fails;
     l_socket := 3; l_reuseaddr := 0; l_bind := 0; l_listen := 0;
     l_accept := 5; l_errno := 0; l_cork := 0 |}.

End Listener.


(* ================================================================== *)
(** * net.c: cloning an interface over netlink *)

Module Netlink.

(** The calls of [netCloneMacV] into libnl, and its error reports. *)
Inductive nl_call :=
| NlSocketAlloc
| NlConnect (err : Z)
| LinkMacvlanAlloc (ok : bool)
| LinkAllocCache (err : Z)
| LinkName2i (iface : string) (index : Z)
| LinkSetName (name : string)
| LinkSetLink (index : Z)
| LinkSetType (type : string)
| LinkSetNsPid (pid : Z)
| LinkAdd (err : Z)
| NlCacheFree
| LinkPut
| NlSocketFree
| NlLogE (fmt : string).

(** What libnl answers during one call: the error codes of [nl_connect],
    [rtnl_link_alloc_cache] and [rtnl_link_add] (negative on failure),
    whether [rtnl_link_macvlan_alloc] gave a link, and the interface index
    from [rtnl_link_name2i] (0 when there is none). *)
Record nl_os := {
  nl_connect : Z;
  nl_macvlan_alloc : bool;
  nl_alloc_cache : Z;
  nl_name2i : Z;
  nl_link_add : Z
}.

(** The three exits of the function. *)
Definition out_sock : list nl_call := [NlSocketFree].
Definition out_link : list nl_call := LinkPut :: out_sock.
Definition out_cache : list nl_call := NlCacheFree :: out_link.

(** [netCloneMacV (type, name, iface, pid)]: the value returned and the
    calls made, in order. *)
Definition netCloneMacV (nl : nl_os) (type name iface : string) (pid : Z)
  : bool * list nl_call :=
  let start := [NlSocketAlloc; NlConnect (nl_connect nl)] in
  if nl_connect nl <? 0 then
    (false, start ++ NlLogE "Unable to connect socket: %s" :: out_sock)
  else
  let start := start ++ [LinkMacvlanAlloc (nl_macvlan_alloc nl)] in
  if negb (nl_macvlan_alloc nl) then
    (false, start ++ NlLogE "rtnl_link_macvlan_alloc(): %s" :: out_sock)
  else
  let start := start ++ [LinkAllocCache (nl_alloc_cache nl)] in
  if nl_alloc_cache nl <? 0 then
    (false, start ++ NlLogE "rtnl_link_alloc_cache(): %s" :: out_link)
  else
  let start := start ++ [LinkName2i iface (nl_name2i nl)] in
  if nl_name2i nl =? 0 then
    (false, start ++ NlLogE "rtnl_link_name2i(): %s" :: out_cache)
  else
  let start := start ++
    [LinkSetName name; LinkSetLink (nl_name2i nl); LinkSetType type;
     LinkSetNsPid pid; LinkAdd (nl_link_add nl)] in
  if nl_link_add nl <? 0 then
    (false, start ++ NlLogE "rtnl_link_add(): %s" :: out_cache)
  else
    (true, start ++ out_cache).

(** How often a call occurs in a trace. *)
Definition is_call (k k' : nl_call) : bool :=
  match k, k' with
  | NlSocketAlloc, NlSocketAlloc => true
  | NlCacheFree, NlCacheFree => true
  | LinkPut, LinkPut => true
  | NlSocketFree, NlSocketFree => true
  | _, _ => false
  end.

Definition occurrences (k : nl_call) (ks : list nl_call) : nat :=
  List.length (filter (is_call k) ks).

(** Every step of the function succeeds. *)
Definition nl_all_ok (nl : nl_os) : bool :=
  negb (nl_connect nl <? 0) && nl_macvlan_alloc nl
  && negb (nl_alloc_cache nl <? 0) && negb (nl_name2i nl =? 0)
  && negb (nl_link_add nl <? 0).

(** The link was allocated; the cache was allocated. *)
Definition link_allocated (nl : nl_os) : bool :=
  negb (nl_connect nl <? 0) && nl_macvlan_alloc nl.
Definition cache_allocated (nl : nl_os) : bool :=
  link_allocated nl && negb (nl_alloc_cache nl <? 0).

End Netlink.

(* ================================================================== *)
(** * Properties *)

(** ** Machine integers *)

Lemma s64_small z : - 2 ^ 63 <= z < 2 ^ 63 -> s64 z = z.
Proof.
  intros H. unfold s64. rewrite Z.mod_small; lia.
Qed.

Lemma u64_small z : 0 <= z < 2 ^ 64 -> u64 z = z.
Proof. intros H. unfold u64. now apply Z.mod_small. Qed.

(** ** Characters and strings *)

Module LibcFacts.

Import Libc.

Lemma code_inj x y : code x = code y -> x = y.
Proof.
  unfold code. intros H. apply Nat2Z.inj in H.
  rewrite <- (ascii_nat_embedding x), <- (ascii_nat_embedding y).
  now rewrite H.
Qed.

Lemma code_eqb x y : (code x =? code y) = Ascii.eqb x y.
Proof.
  destruct (Ascii.eqb_spec x y) as [->|N].
  - apply Z.eqb_refl.
  - apply Z.eqb_neq. intros E. now apply N, code_inj.
Qed.

Lemma code_tolower c :
  code (tolower c) = if (65 <=? code c) && (code c <=? 90)
                     then code c + 32 else code c.
Proof.
  unfold tolower.
  destruct ((65 <=? code c) && (code c <=? 90)) eqn:U; [|reflexivity].
  apply andb_true_iff in U. destruct U as [U1 U2].
  apply Z.leb_le in U1, U2.
  unfold code in *. rewrite nat_ascii_embedding; lia.
Qed.

Lemma code_tolower_nonzero c : code c <> 0 -> code (tolower c) <> 0.
Proof.
  rewrite code_tolower.
  destruct ((65 <=? code c) && (code c <=? 90)) eqn:U; [|easy].
  apply andb_true_iff in U. destruct U as [U1 _]. apply Z.leb_le in U1. lia.
Qed.

Lemma isdigit_tolower c : isdigit c = true -> tolower c = c.
Proof.
  unfold isdigit, tolower. intros H.
  apply andb_true_iff in H. destruct H as [H1 H2].
  apply Z.leb_le in H1, H2.
  replace (code c <=? 90) with true by (symmetry; apply Z.leb_le; lia).
  replace (65 <=? code c) with false by (symmetry; apply Z.leb_gt; lia).
  reflexivity.
Qed.

End LibcFacts.

(** ** cmdline.c: the "is a number" test *)

Module CmdlineFacts.

Import Libc Cmdline Spec Parts LibcFacts.

Lemma digit_or_x_negb c :
  negb (isdigit c) && negb (code c =? 120) = negb (digit_or_x c).
Proof. unfold digit_or_x. now rewrite negb_orb. Qed.

(** The loop with the index stuck at 0, started with enough fuel, is the
    left-to-right scan. *)
Lemma cmdlineIsANumber_loop_scan s : forall fuel seen,
  (String.length s < fuel)%nat ->
  cmdlineIsANumber_loop fuel s 0 seen
  = Some (string_forallb digit_or_x s, seen ++ scan_reads s).
Proof.
  induction s as [|c s IH]; intros fuel seen Hfuel.
  - destruct fuel as [|fuel]; [inversion Hfuel|]. reflexivity.
  - destruct fuel as [|fuel]; [inversion Hfuel|].
    cbn [cmdlineIsANumber_loop cstr_at String.get cstr_next
         string_forallb scan_reads].
    rewrite digit_or_x_negb.
    destruct (digit_or_x c); cbn [negb andb].
    + rewrite IH by (cbn in Hfuel; lia).
      now rewrite <- app_assoc.
    + reflexivity.
Qed.

Lemma cmdlineIsANumber_run_spec s :
  cmdlineIsANumber_run s
  = Some (string_forallb digit_or_x s, scan_reads s).
Proof.
  unfold cmdlineIsANumber_run.
  now rewrite cmdlineIsANumber_loop_scan by lia.
Qed.

Lemma cmdlineIsANumber_forallb s :
  cmdlineIsANumber s = string_forallb digit_or_x s.
Proof.
  unfold cmdlineIsANumber. now rewrite cmdlineIsANumber_run_spec.
Qed.

Lemma string_forallb_forall f s :
  string_forallb f s = true <-> (forall c, In c (chars s) -> f c = true).
Proof.
  induction s as [|a s IH]; cbn.
  - split; [intros _ c []|reflexivity].
  - rewrite andb_true_iff, IH. split.
    + intros [Ha Hs] c [<-|Hc]; auto.
    + intros H. split; [apply H; now left|intros c Hc; apply H; now right].
Qed.

Lemma string_forallb_app f a b :
  string_forallb f (a ++ b) = string_forallb f a && string_forallb f b.
Proof.
  induction a as [|c a IH]; cbn; [reflexivity|].
  now rewrite IH, andb_assoc.
Qed.

Lemma digit_or_x_chars c :
  digit_or_x c = true <->
  In c (chars "0123456789") \/ c = "x"%char.
Proof.
  unfold digit_or_x, isdigit. split.
  - intros H. apply orb_true_iff in H. destruct H as [H|H].
    + left. apply andb_true_iff in H. destruct H as [H1 H2].
      apply Z.leb_le in H1, H2.
      assert (E : exists d, (d < 10)%nat /\ code c = 48 + Z.of_nat d).
      { exists (Z.to_nat (code c - 48)). lia. }
      destruct E as [d [Hd E]].
      assert (Hc : c = ascii_of_nat (48 + d)).
      { apply code_inj. rewrite E. unfold code.
        rewrite nat_ascii_embedding; lia. }
      subst c. clear - Hd.
      do 10 (destruct d as [|d]; [cbn; tauto|]). lia.
    + right. apply code_inj. now apply Z.eqb_eq in H.
  - intros [H| ->]; [|reflexivity].
    cbn in H. repeat (destruct H as [<-|H]; [reflexivity|]). destruct H.
Qed.

Lemma scan_reads_accepted s :
  string_forallb digit_or_x s = true ->
  scan_reads s = map Some (chars s) ++ [None].
Proof.
  induction s as [|c s IH]; cbn; [reflexivity|].
  intros H. apply andb_true_iff in H. destruct H as [Hc Hs].
  now rewrite Hc, IH.
Qed.

(** Whatever the verdict, the characters read are an initial segment of
    the string followed by its terminator: none is skipped. *)
Lemma scan_reads_prefix s :
  exists n, scan_reads s = firstn n (map Some (chars s) ++ [None]).
Proof.
  induction s as [|c s [n IH]]; cbn.
  - now exists 1%nat.
  - destruct (digit_or_x c).
    + exists (S n). cbn. now rewrite IH.
    + now exists 1%nat.
Qed.

(** C9.  [cmdlineIsANumber s] is true exactly when every character of [s]
    is a decimal digit or the character x: the empty string is accepted,
    and an x is accepted between any two accepted strings, not only in a
    leading "0x".  The loop, whose index stays 0 while the pointer
    advances, terminates within [length s + 1] iterations and reads the
    characters of [s] from the first on without skipping any, up to the
    first rejected character or else through all of them to the
    terminator. *)
Theorem cmdlineIsANumber_digits_or_x (s : string) :
  (cmdlineIsANumber s = true <->
   forall c, In c (chars s) -> In c (chars "0123456789") \/ c = "x"%char)
  /\ cmdlineIsANumber "" = true
  /\ (forall a b, cmdlineIsANumber a = true -> cmdlineIsANumber b = true ->
                  cmdlineIsANumber (a ++ "x" ++ b) = true)
  /\ (exists reads,
        cmdlineIsANumber_run s = Some (cmdlineIsANumber s, reads)
        /\ (exists n, reads = firstn n (map Some (chars s) ++ [None]))
        /\ (cmdlineIsANumber s = true ->
            reads = map Some (chars s) ++ [None])).
Proof.
  repeat split.
  - rewrite cmdlineIsANumber_forallb, string_forallb_forall.
    intros H c Hc. apply digit_or_x_chars. auto.
  - rewrite cmdlineIsANumber_forallb, string_forallb_forall.
    intros H c Hc. apply digit_or_x_chars. auto.
  - intros a b. rewrite !cmdlineIsANumber_forallb, !string_forallb_app.
    intros -> ->. reflexivity.
  - exists (scan_reads s). repeat split.
    + rewrite cmdlineIsANumber_forallb. apply cmdlineIsANumber_run_spec.
    + apply scan_reads_prefix.
    + rewrite cmdlineIsANumber_forallb. apply scan_reads_accepted.
Qed.

(** *** Resolution of rlimit values *)

Lemma strcasecmp_eq0 a : forall b,
  cstring a -> cstring b ->
  (strcasecmp a b =? 0) = String.eqb (lower a) (lower b).
Proof.
  unfold cstring.
  induction a as [|x a IH]; intros [|y b] Ha Hb; cbn in *.
  - reflexivity.
  - apply andb_true_iff in Hb. destruct Hb as [Hy _].
    apply negb_true_iff, Z.eqb_neq, code_tolower_nonzero in Hy.
    apply Z.eqb_neq. lia.
  - apply andb_true_iff in Ha. destruct Ha as [Hx _].
    apply negb_true_iff, Z.eqb_neq, code_tolower_nonzero in Hx.
    now apply Z.eqb_neq.
  - apply andb_true_iff in Ha, Hb.
    destruct Ha as [_ Ha], Hb as [_ Hb].
    rewrite <- code_eqb.
    destruct (code (tolower x) =? code (tolower y)) eqn:E; cbn.
    + now apply IH.
    + apply Z.eqb_neq in E. apply Z.eqb_neq. lia.
Qed.

Lemma strcasecmp_lower a b :
  cstring a -> cstring b ->
  (strcasecmp a b =? 0) = true <-> lower a = lower b.
Proof.
  intros Ha Hb. rewrite strcasecmp_eq0 by assumption. apply String.eqb_eq.
Qed.

Lemma isdigit_range c : isdigit c = true <-> 48 <= code c <= 57.
Proof.
  unfold isdigit. rewrite andb_true_iff, !Z.leb_le. tauto.
Qed.

Lemma digit_in_10 c :
  isdigit c = true -> digit_in 10 c = Some (code c - 48).
Proof.
  intros H. apply isdigit_range in H. unfold digit_in, digit_value.
  replace (48 <=? code c) with true by (symmetry; apply Z.leb_le; lia).
  replace (code c <=? 57) with true by (symmetry; apply Z.leb_le; lia).
  cbn. replace (code c - 48 <? 10) with true; [reflexivity|].
  symmetry. apply Z.ltb_lt. lia.
Qed.

Lemma decimal_from_ge s : forall acc,
  0 <= acc -> string_forallb isdigit s = true -> acc <= decimal_from acc s.
Proof.
  induction s as [|c s IH]; intros acc Hacc Hs; cbn in *; [lia|].
  apply andb_true_iff in Hs. destruct Hs as [Hc Hs].
  apply isdigit_range in Hc.
  specialize (IH (acc * 10 + (code c - 48)) ltac:(lia) Hs). lia.
Qed.

(** On a run of decimal digits whose value fits, the digit loop of
    [strtoul] computes the value and does not overflow. *)
Lemma strtoul_digits_decimal s : forall acc,
  0 <= acc -> string_forallb isdigit s = true ->
  decimal_from acc s <= ULONG_MAX ->
  strtoul_digits 10 s acc false = (decimal_from acc s, false).
Proof.
  induction s as [|c s IH]; intros acc Hacc Hs Hfit; cbn in *; [reflexivity|].
  apply andb_true_iff in Hs. destruct Hs as [Hc Hs].
  rewrite (digit_in_10 _ Hc).
  pose proof (proj1 (isdigit_range c) Hc) as Hr.
  pose proof (decimal_from_ge s (acc * 10 + (code c - 48)) ltac:(lia) Hs).
  match goal with |- context [?a >? ?b] => destruct (a >? b) eqn:E end.
  - exfalso. apply Z.gtb_lt in E. lia.
  - apply IH; [lia|assumption|assumption].
Qed.

Lemma isspace_digit c : isdigit c = true -> isspace c = false.
Proof.
  intros H. apply isdigit_range in H. unfold isspace.
  apply orb_false_iff. split.
  - apply Z.eqb_neq. lia.
  - apply andb_false_iff. right. apply Z.leb_gt. lia.
Qed.

Lemma strtoul0_decimal s errno :
  decimal_numeral s = true -> decimal_value s <= ULONG_MAX ->
  strtoul0 s errno = (decimal_value s, errno).
Proof.
  destruct s as [|c s]; [discriminate|].
  unfold decimal_numeral, decimal_value. intros H Hfit.
  apply andb_true_iff in H. destruct H as [Hnz Hd].
  destruct (code c =? 48) eqn:Z0.
  { (* the numeral 0 *)
    cbn [negb orb] in Hnz. destruct s; [|discriminate].
    apply Z.eqb_eq in Z0.
    assert (E : c = "0"%char) by (apply code_inj; exact Z0).
    subst c. reflexivity. }
  pose proof Hd as Hd'. cbn in Hd'.
  apply andb_true_iff in Hd'. destruct Hd' as [Hc _].
  pose proof (proj1 (isdigit_range c) Hc) as Hr.
  unfold strtoul0. cbn [skip_space]. rewrite (isspace_digit _ Hc).
  replace (code c =? 45) with false by (symmetry; apply Z.eqb_neq; lia).
  replace (code c =? 43) with false by (symmetry; apply Z.eqb_neq; lia).
  unfold strtoul_unsigned0. rewrite Z0.
  now rewrite strtoul_digits_decimal by (assumption || lia).
Qed.

Lemma decimal_numeral_forallb s :
  decimal_numeral s = true -> string_forallb digit_or_x s = true.
Proof.
  destruct s as [|c s]; [discriminate|]. unfold decimal_numeral.
  intros H. apply andb_true_iff in H. destruct H as [_ H].
  apply string_forallb_forall. intros a Ha.
  unfold digit_or_x.
  now rewrite (proj1 (string_forallb_forall isdigit _) H a Ha).
Qed.

Lemma decimal_numeral_cstring s : decimal_numeral s = true -> cstring s.
Proof.
  destruct s as [|c s]; [discriminate|]. unfold decimal_numeral, cstring.
  intros H. apply andb_true_iff in H. destruct H as [_ H].
  apply string_forallb_forall. intros a Ha.
  pose proof (proj1 (string_forallb_forall isdigit _) H a Ha) as Hd.
  apply isdigit_range in Hd. apply negb_true_iff, Z.eqb_neq. lia.
Qed.

(** A decimal numeral is neither "max" nor "def" in any letter case. *)
Lemma decimal_numeral_not_word s (w : string) :
  decimal_numeral s = true ->
  string_forallb (fun c => negb (isdigit c)) w = true ->
  cstring w ->
  (strcasecmp s w =? 0) = false.
Proof.
  intros Hs Hw Cw.
  rewrite strcasecmp_eq0 by (auto using decimal_numeral_cstring).
  destruct s as [|c s]; [discriminate|].
  unfold decimal_numeral in Hs.
  apply andb_true_iff in Hs. destruct Hs as [_ Hs]. cbn in Hs.
  apply andb_true_iff in Hs. destruct Hs as [Hc _].
  destruct w as [|y w]; [reflexivity|]. cbn in Hw |- *.
  apply andb_true_iff in Hw. destruct Hw as [Hy _].
  apply negb_true_iff in Hy.
  rewrite (isdigit_tolower _ Hc).
  destruct (Ascii.eqb_spec c (tolower y)) as [E|]; [|reflexivity].
  exfalso. apply isdigit_range in Hc.
  assert (Hy' : ~ (48 <= code y <= 57)).
  { intros R. apply isdigit_range in R. congruence. }
  rewrite E, code_tolower in Hc.
  destruct ((65 <=? code y) && (code y <=? 90)) eqn:U; [|lia].
  apply andb_true_iff in U. destruct U as [U _]. apply Z.leb_le in U. lia.
Qed.

Lemma cstring_max : cstring "max".
Proof. reflexivity. Qed.

Lemma cstring_def : cstring "def".
Proof. reflexivity. Qed.

Local Hint Resolve cstring_max cstring_def : core.

Ltac decide_word H :=
  match goal with
  | |- context [String.eqb ?a ?b] =>
      destruct (String.eqb_spec a b) as [H|H]
  end.

(** The function on every C string, read through case-insensitive
    equality, the character test and [strtoul]. *)
Lemma cmdlineParseRLimit_cases env res optarg mul cur :
  cstring optarg ->
  getrlimit env res = Some cur ->
  cmdlineParseRLimit env res optarg mul =
    if String.eqb (lower optarg) "max" then Ok (rlim_max cur)
    else if String.eqb (lower optarg) "def" then Ok (rlim_cur cur)
    else if string_forallb digit_or_x optarg
    then (let '(n, errno) := strtoul0 optarg (errno_in env) in
          if (u64 (n * mul) =? ULONG_MAX) && negb (errno =? 0)
          then Fatal (Fatal_strtoul optarg)
          else Ok (u64 (n * mul)))
    else Fatal (Fatal_rlimit_value res optarg).
Proof.
  intros C G. unfold cmdlineParseRLimit. rewrite G.
  rewrite !strcasecmp_eq0 by auto.
  change (lower "max") with "max"%string.
  change (lower "def") with "def"%string.
  rewrite cmdlineIsANumber_forallb.
  destruct (String.eqb (lower optarg) "max"); [reflexivity|].
  destruct (String.eqb (lower optarg) "def"); [reflexivity|].
  destruct (string_forallb digit_or_x optarg); reflexivity.
Qed.

(** C6 (amended).  With [getrlimit] answering [cur] for the resource,
    [cmdlineParseRLimit] resolves an argument that is "max" in any letter
    case to the hard limit [rlim_max cur] and one that is "def" in any
    letter case to the soft limit [rlim_cur cur].  Any other argument with
    a character that is neither a decimal digit nor x is fatal.  Any other
    argument made of digits and x only resolves to [strtoul (optarg, 0)]
    times the unit, reduced modulo 2^64, and is fatal only when that
    product is [ULONG_MAX] while [errno] is set; for a decimal numeral,
    that is the numeral 0 or a string of decimal digits that does not
    start with 0, whose product with the unit is below [ULONG_MAX] the
    result is the number times the unit.  [cmdlineParse] passes the unit 1024*1024 for
    address space, core, file size and stack and 1 for cpu, nofile and
    nproc, and stores the result in the field of the resource. *)
Theorem cmdlineParseRLimit_resolution
    (env : rlimit_env) (res : rlimit_resource) (optarg : string) (mul : Z)
    (cur : rlimit) :
  cstring optarg ->
  getrlimit env res = Some cur ->
  (lower optarg = "max"%string ->
   cmdlineParseRLimit env res optarg mul = Ok (rlim_max cur))
  /\ (lower optarg = "def"%string ->
      cmdlineParseRLimit env res optarg mul = Ok (rlim_cur cur))
  /\ (lower optarg <> "max"%string -> lower optarg <> "def"%string ->
      (exists c, In c (chars optarg) /\ digit_or_x c = false) ->
      cmdlineParseRLimit env res optarg mul
      = Fatal (Fatal_rlimit_value res optarg))
  /\ (lower optarg <> "max"%string -> lower optarg <> "def"%string ->
      (forall c, In c (chars optarg) -> digit_or_x c = true) ->
      cmdlineParseRLimit env res optarg mul =
        let '(n, errno) := strtoul0 optarg (errno_in env) in
        if (u64 (n * mul) =? ULONG_MAX) && negb (errno =? 0)
        then Fatal (Fatal_strtoul optarg)
        else Ok (u64 (n * mul)))
  /\ (decimal_numeral optarg = true -> 1 <= mul ->
      decimal_value optarg * mul < ULONG_MAX ->
      cmdlineParseRLimit env res optarg mul
      = Ok (decimal_value optarg * mul))
  /\ (forall nsjconf, exists store,
        cmdlineParse_case env (rlimit_option_code res) optarg nsjconf
        = Some (on_ok (cmdlineParseRLimit env res optarg (rlimit_unit res))
                      store)
        /\ forall v, rl_field res (store v) = v).
Proof.
  intros C G.
  pose proof (cmdlineParseRLimit_cases env res optarg mul cur C G) as E.
  repeat apply conj.
  - intros H. rewrite E, H. reflexivity.
  - intros H. rewrite E, H. reflexivity.
  - intros H1 H2 [c [Hc Hx]]. rewrite E.
    decide_word W1; [contradiction|]. decide_word W2; [contradiction|].
    destruct (string_forallb digit_or_x optarg) eqn:F; [|reflexivity].
    rewrite (proj1 (string_forallb_forall _ _) F c Hc) in Hx. discriminate.
  - intros H1 H2 Hall. rewrite E.
    decide_word W1; [contradiction|]. decide_word W2; [contradiction|].
    now rewrite (proj2 (string_forallb_forall _ _) Hall).
  - intros D Hmul Hfit. unfold cmdlineParseRLimit. rewrite G.
    rewrite !decimal_numeral_not_word by (assumption || reflexivity).
    rewrite cmdlineIsANumber_forallb, (decimal_numeral_forallb _ D).
    cbn [negb].
    assert (Hv : 0 <= decimal_value optarg).
    { destruct optarg as [|c s]; [discriminate|].
      unfold decimal_numeral in D. apply andb_true_iff in D.
      apply (decimal_from_ge _ 0); [lia|apply D]. }
    rewrite strtoul0_decimal by (assumption || nia).
    rewrite u64_small by (unfold ULONG_MAX in *; nia).
    replace (decimal_value optarg * mul =? ULONG_MAX) with false
      by (symmetry; apply Z.eqb_neq; lia).
    reflexivity.
  - intros nsjconf. destruct res;
      (eexists; split;
       [unfold cmdlineParse_case, rlimit_option_code; cbn; reflexivity
       | intros v; reflexivity]).
Qed.

Lemma cmdlineParseRLimit_resolution_witness :
  cstring "16"
  /\ getrlimit sample_rlimit_env RLIMIT_AS
     = Some {| rlim_cur := 1024; rlim_max := 4096 |}
  /\ cmdlineParseRLimit sample_rlimit_env RLIMIT_AS "16" (1024 * 1024)
     = Ok (16 * 1024 * 1024).
Proof.
  split; [reflexivity|]. split; [reflexivity|].
  apply (cmdlineParseRLimit_resolution sample_rlimit_env RLIMIT_AS "16"
           (1024 * 1024) {| rlim_cur := 1024; rlim_max := 4096 |}
           eq_refl eq_refl);
    [reflexivity | lia | vm_compute; reflexivity].
Defined.

(** The numeral 0 resolves to 0.  Digits after a leading 0 are not read in
    decimal: "010" resolves to 8 units and "08" to 0. *)
Example cmdlineParseRLimit_zero_and_leading_zero :
  cmdlineParseRLimit sample_rlimit_env RLIMIT_CORE "0" (1024 * 1024) = Ok 0
  /\ cmdlineParseRLimit sample_rlimit_env RLIMIT_NOFILE "010" 1 = Ok 8
  /\ cmdlineParseRLimit sample_rlimit_env RLIMIT_NOFILE "08" 1 = Ok 0.
Proof. repeat split; vm_compute; reflexivity. Qed.

(** A failing [getrlimit] is fatal whatever the argument. *)
Lemma cmdlineParseRLimit_getrlimit_fails env res optarg mul :
  getrlimit env res = None ->
  cmdlineParseRLimit env res optarg mul = Fatal (Fatal_getrlimit res).
Proof. intros G. unfold cmdlineParseRLimit. now rewrite G. Qed.

(** C6 as stated fails: "MAX" is neither the string "max" nor the string
    "def", and it is no number (the character test rejects it), yet it is
    not fatal: it resolves to the hard limit.  A numeral whose product
    with the unit does not fit 64 bits is not multiplied either: 2^44
    megabytes resolve to 0. *)
Lemma cmdlineParseRLimit_other_string_not_fatal :
  "MAX"%string <> "max"%string
  /\ "MAX"%string <> "def"%string
  /\ cmdlineIsANumber "MAX" = false
  /\ cmdlineParseRLimit sample_rlimit_env RLIMIT_NOFILE "MAX" 1 = Ok 4096
  /\ cmdlineParseRLimit sample_rlimit_env RLIMIT_AS "17592186044416"
       (1024 * 1024) = Ok 0.
Proof.
  repeat split; try discriminate; vm_compute; reflexivity.
Qed.

End CmdlineFacts.

(** ** The process monad *)

Module ProcFacts.

Import Common Proc.
Local Open Scope proc_scope.

(** Every event a computation emits satisfies [P]. *)
Definition emits {A} (P : event -> Prop) (m : M A) : Prop :=
  forall c, Forall P (events (m c)).

Section Laws.

Context {A B : Type}.
Variable P : event -> Prop.

Lemma emits_ret (a : A) : emits P (ret a).
Proof. intros c. constructor. Qed.

Lemma emits_get : emits P get.
Proof. intros c. constructor. Qed.

Lemma emits_put c' : emits P (put c').
Proof. intros c. constructor. Qed.

Lemma emits_exit s : emits P (@exit_ A s).
Proof. intros c. constructor. Qed.

Lemma emits_execed : emits P (@execed A).
Proof. intros c. constructor. Qed.

Lemma emits_out_of_fuel : emits P (@out_of_fuel A).
Proof. intros c. constructor. Qed.

Lemma emits_emit e : P e -> emits P (emit e).
Proof. intros H c. cbn. auto. Qed.

Lemma emits_bind (m : M A) (k : A -> M B) :
  emits P m -> (forall a, emits P (k a)) -> emits P (bind m k).
Proof.
  intros Hm Hk c. specialize (Hm c). unfold bind, events in *.
  destruct (m c) as [[[a| | |] c1] e1]; cbn in *; try assumption.
  specialize (Hk a c1). unfold events in Hk.
  destruct (k a c1) as [[o c2] e2]; cbn in *.
  apply Forall_app. now split.
Qed.

End Laws.

Lemma emits_when P cond body : emits P body -> emits P (when cond body).
Proof. destruct cond; cbn; [auto|intros _; apply emits_ret]. Qed.

(** How a bind runs when its first part returns. *)
Lemma bind_ret_run {A B} (m : M A) (k : A -> M B) c a c1 e1 :
  m c = (Ret a, c1, e1) ->
  bind m k c = (result_of (k a c1), final (k a c1), e1 ++ events (k a c1)).
Proof.
  intros E. unfold bind. rewrite E.
  now destruct (k a c1) as [[o c2] e2].
Qed.

Lemma bind_out_of_fuel_run {A B} (m : M A) (k : A -> M B) c c1 e1 :
  m c = (OutOfFuel, c1, e1) -> bind m k c = (OutOfFuel, c1, e1).
Proof. intros E. unfold bind. now rewrite E. Qed.

Lemma bind_exited_run {A B} (m : M A) (k : A -> M B) c s c1 e1 :
  m c = (Exited s, c1, e1) -> bind m k c = (Exited s, c1, e1).
Proof. intros E. unfold bind. now rewrite E. Qed.

Lemma bind_execed_run {A B} (m : M A) (k : A -> M B) c c1 e1 :
  m c = (Execed, c1, e1) -> bind m k c = (Execed, c1, e1).
Proof. intros E. unfold bind. now rewrite E. Qed.

Lemma bind_emit_run {B} e (k : M B) c :
  (emit e ;; k) c = (result_of (k c), final (k c), e :: events (k c)).
Proof. apply (bind_ret_run (emit e) (fun _ => k) c tt c [e] eq_refl). Qed.

Lemma bind_get_run {B} (k : nsjconf_t -> M B) c :
  (x <- get ;; k x) c = k c c.
Proof.
  unfold bind, get. now destruct (k c c) as [[o c2] e2].
Qed.

End ProcFacts.

(** ** subproc.c: the child builder *)

Module BuilderFacts.

Import Common Proc Subproc Spec Parts ProcFacts.
Local Open Scope proc_scope.

Lemma log_args_run args : forall i c,
  log_args i args c = (Ret tt, c, log_args_events i args).
Proof.
  induction args as [|a args IH]; intros i c; [reflexivity|].
  cbn [log_args log_args_events]. unfold bind, emit.
  now rewrite IH.
Qed.

Lemma calls_of_app a b : calls_of (a ++ b) = calls_of a ++ calls_of b.
Proof.
  induction a as [|e a IH]; [reflexivity|].
  destruct e; cbn; now rewrite ?IH.
Qed.

Lemma calls_of_log_args args : forall i, calls_of (log_args_events i args) = [].
Proof. induction args; intros i; cbn; auto. Qed.

Lemma builder_exec_run os c :
  let r := builder_exec os c in
  result_of r = (if os_execve os then Execed else Exited 1)
  /\ final r = c
  /\ calls_of (events r) = [CallExecve].
Proof.
  unfold builder_exec, bind, get, emit. cbn.
  rewrite log_args_run.
  destruct (os_execve os); cbn;
    rewrite ?calls_of_app, calls_of_log_args; auto.
Qed.

(** One containment step followed by its fatal check. *)
Lemma contain_step_run os step (k : M Z) c :
  (ok <- contain os step ;; when (negb ok) (exit_ 1) ;; k) c
  = if os_contain os step
    then (result_of (k c), final (k c), Contain step true :: events (k c))
    else (Exited 1, c, [Contain step false]).
Proof.
  unfold contain, bind, emit, when, exit_, ret. cbn.
  destruct (os_contain os step); cbn; [|reflexivity].
  now destruct (k c) as [[o c'] ev].
Qed.

Ltac step_case os step :=
  destruct (os_contain os step); cbn;
  [ | repeat split; solve [ reflexivity | discriminate
                          | now exists 1%nat | now exists 2%nat
                          | now exists 3%nat | now exists 4%nat
                          | now exists 5%nat | now exists 6%nat
                          | now exists 7%nat ] ].

(** The whole run of the builder. *)
Lemma subprocNewProc_run os fd_in fd_out fd_err pipefd c :
  let r := subprocNewProc os fd_in fd_out fd_err pipefd c in
  calls_of (events r)
    = map CallContain (until_failure (os_contain os) fixed_order)
      ++ (if all_ok (os_contain os) then [CallExecve] else [])
  /\ (exists k, calls_of (events r)
                = firstn k (map CallContain fixed_order ++ [CallExecve]))
  /\ result_of r
     = (if all_ok (os_contain os) && os_execve os then Execed else Exited 1)
  /\ final r = c.
Proof.
  change (subprocNewProc os fd_in fd_out fd_err pipefd)
    with (ok <- contain os PrepareEnv ;; when (negb ok) (exit_ 1) ;;
          ok <- contain os SetupFD ;; when (negb ok) (exit_ 1) ;;
          ok <- contain os MountFS ;; when (negb ok) (exit_ 1) ;;
          ok <- contain os DropPrivs ;; when (negb ok) (exit_ 1) ;;
          ok <- contain os SetLimits ;; when (negb ok) (exit_ 1) ;;
          ok <- contain os MakeFdsCOE ;; when (negb ok) (exit_ 1) ;;
          ok <- contain os SandboxApply ;; when (negb ok) (exit_ 1) ;;
          builder_exec os).
  destruct (builder_exec_run os c) as [Ro [Rc Re]].
  cbv zeta. rewrite !contain_step_run.
  unfold all_ok, fixed_order. cbn [until_failure forallb map].
  unfold result_of, final, events in *.
  destruct (builder_exec os c) as [[o c'] ev]. cbn [fst snd] in *. subst o c'.
  step_case os PrepareEnv.
  step_case os SetupFD.
  step_case os MountFS.
  step_case os DropPrivs.
  step_case os SetLimits.
  step_case os MakeFdsCOE.
  step_case os SandboxApply.
  rewrite Re. repeat split. now exists 8%nat.
Qed.

Lemma emits_log_args P args :
  (forall i a, P (Log DEBUG " Arg[%d]: '%s'" [AInt i; AStr a])) ->
  forall i, emits P (log_args i args).
Proof.
  intros HP. induction args as [|a args IH]; intros i; cbn.
  - apply emits_ret.
  - apply emits_bind; [apply emits_emit, HP|intros _; apply IH].
Qed.

(** The builder touches neither the roster nor the allocator. *)
Lemma subprocNewProc_bystander os fd_in fd_out fd_err pipefd :
  emits is_bystander (subprocNewProc os fd_in fd_out fd_err pipefd).
Proof.
  unfold subprocNewProc, contain. cbv zeta.
  repeat first
    [ apply emits_bind; [|intros ?]
    | apply emits_when
    | apply emits_emit; exact I
    | apply emits_log_args; intros; exact I
    | apply emits_get | apply emits_ret | apply emits_exit
    | apply emits_execed ].
Qed.

(** C2.  The child builder calls the containment steps in the fixed order
    prepare-environment, setup-file-descriptors, mount-filesystem,
    drop-privileges, set-resource-limits, make-fds-close-on-exec,
    apply-seccomp and then [execve], stopping at the first step that
    fails.  It ends in [execve] replacing the process when every step and
    [execve] succeed, and in exit status 1 otherwise; it never returns to
    its caller. *)
Theorem subprocNewProc_fixed_order_never_returns
    (os : os_t) (fd_in fd_out fd_err pipefd : Z) (c : nsjconf_t) :
  let r := subprocNewProc os fd_in fd_out fd_err pipefd c in
  calls_of (events r)
    = map CallContain (until_failure (os_contain os) fixed_order)
      ++ (if all_ok (os_contain os) then [CallExecve] else [])
  /\ (exists k, calls_of (events r)
                = firstn k (map CallContain fixed_order ++ [CallExecve]))
  /\ result_of r
     = (if all_ok (os_contain os) && os_execve os then Execed else Exited 1)
  /\ (forall v, result_of r <> Ret v).
Proof.
  destruct (subprocNewProc_run os fd_in fd_out fd_err pipefd c)
    as [Hcalls [Hprefix [Hres _]]].
  cbv zeta. repeat split; try assumption.
  intros v. rewrite Hres.
  destruct (all_ok (os_contain os) && os_execve os); discriminate.
Qed.

End BuilderFacts.

(** ** net.c *)

Module NetFacts.

Import Libc Common Proc Net Spec ProcFacts.
Local Open Scope proc_scope.

(** [netConnToText] returns, leaves [nsjconf] alone and only logs. *)
Lemma netConnToText_run os fd remote s want c :
  exists r ev,
    netConnToText os fd remote s want c = (Ret r, c, ev)
    /\ Forall is_log ev.
Proof.
  unfold netConnToText.
  destruct (netIsSocket os fd); cbn [negb].
  2:{ eexists _, _. split; [reflexivity|constructor]. }
  destruct (match os_fd os fd with
            | FdOther => None
            | FdSocket peer local => if remote then peer else local
            end) as [addr|].
  - destruct (os_inet_ntop os (sin6_addr addr) s);
      eexists _, _; (split; [reflexivity|]); repeat constructor.
  - eexists _, _. split; [reflexivity|]. repeat constructor.
Qed.

(** Without a socket the text is the sentinel and nothing is stored
    through the address pointer. *)
Lemma netConnToText_standalone os fd remote s want c :
  os_fd os fd = FdOther ->
  netConnToText os fd remote s want c
  = (Ret (snprintf s "[STANDALONE_MODE]", None), c, []).
Proof.
  intros H. unfold netConnToText, netIsSocket. now rewrite H.
Qed.

(** The rate limiter returns a verdict, leaves [nsjconf] alone and only
    logs. *)
Lemma netLimitConns_run os fd c :
  exists b ev,
    netLimitConns os fd c = (Ret b, c, ev) /\ Forall is_log ev.
Proof.
  unfold netLimitConns, bind, get. cbn.
  destruct (max_conns_per_ip c =? 0).
  { eexists _, _. split; [reflexivity|constructor]. }
  destruct (netConnToText_run os fd true 64 true c) as [r [ev [E L]]].
  rewrite E.
  match goal with |- context [?a >=? ?b] => destruct (a >=? b) end; cbn;
    eexists _, _; (split; [reflexivity|]).
  - apply Forall_app. split; [assumption|]. repeat constructor.
  - now rewrite app_nil_r.
Qed.

Lemma netLimitConns_unlimited os fd c :
  max_conns_per_ip c = 0 -> netLimitConns os fd c = (Ret true, c, []).
Proof.
  intros H. unfold netLimitConns, bind, get. cbn. now rewrite H.
Qed.

Lemma byte_list_eqb_eq a : forall b, byte_list_eqb a b = true <-> a = b.
Proof.
  induction a as [|x a IH]; intros [|y b]; cbn; try easy.
  rewrite andb_true_iff, IH. split.
  - intros [E ->]. apply Byte.byte_dec_bl in E. now subst.
  - intros E. inversion E. subst. split; [|reflexivity].
    now apply Byte.byte_dec_lb.
Qed.

Lemma byte_eqb_false x y : Byte.eqb x y = false -> Byte.to_N x <> Byte.to_N y.
Proof.
  intros E H.
  assert (S : Some x = Some y).
  { rewrite <- (Byte.of_to_N x), <- (Byte.of_to_N y). now rewrite H. }
  inversion S. subst y.
  assert (Byte.eqb x x = true) by (now apply Byte.byte_dec_lb).
  congruence.
Qed.

(** [memcmp] over the first [n] bytes decides their equality. *)
Lemma memcmp_firstn n : forall a b,
  (n <= List.length a)%nat -> (n <= List.length b)%nat ->
  (memcmp a b n =? 0) = byte_list_eqb (firstn n a) (firstn n b).
Proof.
  induction n as [|n IH]; intros a b Ha Hb; [cbn; reflexivity|].
  destruct a as [|x a]; [inversion Ha|].
  destruct b as [|y b]; [inversion Hb|].
  cbn [memcmp firstn byte_list_eqb]. cbn in Ha, Hb.
  destruct (Byte.eqb x y) eqn:E; cbn [andb].
  - apply IH; lia.
  - apply byte_eqb_false in E. apply Z.eqb_neq. lia.
Qed.

(** The counting loop counts the records whose first address byte is the
    connection's first address byte. *)
Lemma netLimitConns_count_first_byte addr roster : forall cnt,
  (1 <= List.length (sin6_addr addr))%nat ->
  Forall (fun p => (1 <= List.length (sin6_addr (remote_addr p)))%nat) roster ->
  0 <= cnt -> cnt + Z.of_nat (List.length roster) < 2 ^ 32 ->
  netLimitConns_count addr roster cnt
  = cnt + Z.of_nat (List.length
                      (filter (fun p => same_first_byte addr (remote_addr p))
                              roster)).
Proof.
  induction roster as [|p roster IH]; intros cnt Ha Hr Hc Hfit;
    cbn [netLimitConns_count filter]; [cbn; lia|].
  inversion Hr as [|? ? Hp Hr']; subst.
  unfold sizeof_s6_addr_elem. rewrite memcmp_firstn by assumption.
  fold (same_first_byte addr (remote_addr p)).
  cbn [List.length] in Hfit.
  destruct (same_first_byte addr (remote_addr p)).
  - unfold u32. rewrite Z.mod_small by lia.
    rewrite IH by (assumption || lia). cbn [List.length]. lia.
  - rewrite IH by (assumption || lia). reflexivity.
Qed.

(** C1 at a failing input.  The cap is 1 and the roster holds one child,
    serving 2001:db8::1.  A connection arrives from 2001:db8::2: no
    record has its 16-byte address, so the count is 0 and the connection
    is to be admitted; [netLimitConns] counts the record all the same
    (the addresses share their first byte, the only one it compares) and
    rejects the connection. *)
Theorem netLimitConns_compares_first_byte_only :
  let os := sample_os conn_from_ip_2 1234 (fun _ => 0) None [] in
  let nsjconf := sample_conf 1 600 [child_of_ip_1] in
  ip_2 <> ip_1
  /\ count_same_ip (sockaddr_of ip_2 16540) (pids nsjconf) = 0
  /\ allow (sockaddr_of ip_2 16540) (pids nsjconf) (max_conns_per_ip nsjconf)
     = true
  /\ result_of (netLimitConns os 5 nsjconf) = Ret false.
Proof.
  cbv zeta. repeat split; try discriminate; vm_compute; reflexivity.
Qed.

End NetFacts.

(** ** subproc.c: the roster *)

Module RosterFacts.

Import Libc Common Linux Proc Net Subproc Spec Parts ProcFacts NetFacts.
Local Open Scope proc_scope.

(** *** subprocAdd *)

Lemma subprocAdd_no_memory os pid sock c :
  os_malloc os = None ->
  subprocAdd os pid sock c
  = (Ret tt, c, [Malloc false; PLog ERROR "malloc" []]).
Proof.
  intros H. unfold subprocAdd, malloc, bind, emit, ret. now rewrite H.
Qed.

Lemma subprocAdd_inserts os pid sock c p0 r ev :
  os_malloc os = Some p0 ->
  netConnToText os sock true sizeof_remote_txt true c = (Ret r, c, ev) ->
  let p := record_of os pid p0 r in
  subprocAdd os pid sock c
  = (Ret tt, set_pids (p :: pids c) c,
     Malloc true :: ev ++
     [ListInsertHead p;
      Log DEBUG "Added pid '%d' with start time '%u' to the queue for IP: '%s'"
        [AInt pid; AInt (u32 (start p)); AStr (remote_txt p)]]).
Proof.
  intros Hm Ht.
  unfold subprocAdd, malloc, LIST_INSERT_HEAD, bind, emit, ret, get, put.
  rewrite Hm. cbn. rewrite Ht. cbn.
  unfold record_of. reflexivity.
Qed.

(** In a standalone mode the text is the sentinel and the address of the
    record is whatever the block held. *)
Lemma subprocAdd_standalone os pid sock c p0 :
  os_fd os sock = FdOther ->
  os_malloc os = Some p0 ->
  pids (final (subprocAdd os pid sock c))
  = {| Common.pid := pid; start := os_time os;
       remote_txt := "[STANDALONE_MODE]";
       remote_addr := remote_addr p0 |} :: pids c.
Proof.
  intros Hfd Hm.
  rewrite (subprocAdd_inserts os pid sock c p0 _ _ Hm
             (netConnToText_standalone os sock true _ true c Hfd)).
  reflexivity.
Qed.

(** Whatever the system answers, [subprocAdd] returns, and either leaves
    [nsjconf] alone or inserts one record at the head of the roster. *)
Lemma subprocAdd_run os pid sock c :
  exists c' ev,
    subprocAdd os pid sock c = (Ret tt, c', ev)
    /\ ((c' = c /\ Forall (fun e => ~ is_insert e) ev)
        \/ (exists p, c' = set_pids (p :: pids c) c
                      /\ Common.pid p = pid
                      /\ In (ListInsertHead p) ev)).
Proof.
  destruct (os_malloc os) as [p0|] eqn:Hm.
  - destruct (netConnToText_run os sock true sizeof_remote_txt true c)
      as [r [ev [Ht _]]].
    rewrite (subprocAdd_inserts os pid sock c p0 r ev Hm Ht).
    eexists _, _. split; [reflexivity|]. right.
    eexists. split; [reflexivity|]. split; [reflexivity|].
    right. apply in_or_app. right. now left.
  - rewrite (subprocAdd_no_memory os pid sock c Hm).
    eexists _, _. split; [reflexivity|]. left. split; [reflexivity|].
    repeat constructor; intros [].
Qed.

(** C5 at a failing input.  In a standalone mode (descriptor 0 is no
    socket) [malloc] hands out a block that last held the record of a
    child serving 2001:db8::1.  The text of the new record is the sentinel
    "[STANDALONE_MODE]", but its address bytes are not zero: they are the
    bytes the block held. *)
Theorem subprocAdd_standalone_address_not_zeroed :
  let os := sample_os standalone_fds 1234 (fun _ => 0) (Some child_of_ip_1) [] in
  let r := subprocAdd os 1234 0 (sample_conf 0 600 []) in
  exists p,
    pids (final r) = [p]
    /\ Common.pid p = 1234
    /\ remote_txt p = "[STANDALONE_MODE]"%string
    /\ sin6_addr (remote_addr p) = ip_1
    /\ sin6_addr (remote_addr p) <> zero16.
Proof.
  cbv zeta. eexists. split; [vm_compute; reflexivity|].
  repeat split. discriminate.
Qed.

(** *** subprocRemove *)

Lemma find_remove_absent pid l :
  ~ In pid (map Common.pid l) -> find_remove pid l = None.
Proof.
  induction l as [|p l IH]; cbn; [reflexivity|].
  intros H. destruct (Z.eqb_spec (Common.pid p) pid) as [E|N].
  - exfalso. apply H. now left.
  - rewrite IH; [reflexivity|]. intros I. apply H. now right.
Qed.

Lemma subprocRemove_unknown pid c :
  ~ In pid (map Common.pid (pids c)) ->
  subprocRemove pid c
  = (Ret tt, c, [Log WARNING "PID: %d not found (?)" [AInt pid]]).
Proof.
  intros H. unfold subprocRemove, bind, get. cbn.
  now rewrite (find_remove_absent _ _ H).
Qed.

(** *** The time limit *)

Lemma signals_of_app a b : signals_of (a ++ b) = signals_of a ++ signals_of b.
Proof.
  induction a as [|e a IH]; [reflexivity|].
  destruct e; cbn; now rewrite ?IH.
Qed.

(** One iteration of the time-limit loop. *)
Lemma subprocReap_tlimit_body_run now p c :
  exists ev,
    subprocReap_tlimit_body now p c = (Ret tt, c, ev)
    /\ Forall is_bystander ev
    /\ (tlimit c = 0 -> ev = [])
    /\ (- 2 ^ 63 <= now - start p < 2 ^ 63 ->
        signals_of ev
        = if expired (tlimit c) now p
          then [(Common.pid p, SIGCONT); (Common.pid p, SIGKILL)] else []).
Proof.
  unfold subprocReap_tlimit_body, expired, bind, get. cbn.
  destruct (Z.eqb_spec (tlimit c) 0) as [E|N].
  - exists []. repeat split; auto.
  - destruct (s64 (now - start p) >=? tlimit c) eqn:D; cbn;
      eexists; (split; [reflexivity|]); (split; [repeat constructor|]);
      (split; [intros; contradiction|]);
      intros R; rewrite (s64_small _ R) in D; now rewrite D.
Qed.

Lemma subprocReap_tlimit_loop_run now l : forall c,
  exists ev,
    subprocReap_tlimit_loop now l c = (Ret tt, c, ev)
    /\ Forall is_bystander ev
    /\ (tlimit c = 0 -> ev = [])
    /\ (Forall (fun p => - 2 ^ 63 <= now - start p < 2 ^ 63) l ->
        signals_of ev = owed_signals (tlimit c) now l).
Proof.
  induction l as [|p l IH]; intros c; cbn [subprocReap_tlimit_loop].
  - exists []. repeat split; auto.
  - destruct (subprocReap_tlimit_body_run now p c) as [e1 [R1 [B1 [Z1 S1]]]].
    destruct (IH c) as [e2 [R2 [B2 [Z2 S2]]]].
    exists (e1 ++ e2). split; [|split; [|split]].
    + rewrite (bind_ret_run _ _ _ _ _ _ R1), R2. reflexivity.
    + apply Forall_app. now split.
    + intros T. now rewrite Z1, Z2.
    + intros F. inversion F as [|? ? Fp Fl]; subst.
      rewrite signals_of_app, S1, S2 by assumption. reflexivity.
Qed.

Lemma subprocReap_tlimit_run os c :
  exists ev,
    subprocReap_tlimit os c = (Ret tt, c, ev)
    /\ Forall is_bystander ev
    /\ (tlimit c = 0 -> ev = [])
    /\ (Forall (fun p => - 2 ^ 63 <= os_time os - start p < 2 ^ 63) (pids c) ->
        signals_of ev = owed_signals (tlimit c) (os_time os) (pids c)).
Proof.
  unfold subprocReap_tlimit, bind, get. cbn.
  destruct (subprocReap_tlimit_loop_run (os_time os) (pids c) c)
    as [ev [R H]].
  exists ev. now rewrite R.
Qed.

Lemma enforce_cycles_run cycles : forall c,
  exists ev, enforce_cycles cycles c = (Ret tt, c, ev)
             /\ Forall is_bystander ev.
Proof.
  induction cycles as [|os cycles IH]; intros c; cbn [enforce_cycles].
  - exists []. split; [reflexivity|constructor].
  - destruct (subprocReap_tlimit_run os c) as [e1 [R1 [B1 _]]].
    destruct (IH c) as [e2 [R2 B2]].
    exists (e1 ++ e2). split.
    + rewrite (bind_ret_run _ _ _ _ _ _ R1), R2. reflexivity.
    + apply Forall_app. now split.
Qed.

(** C4.  Time-limit enforcement never changes [nsjconf], so in particular
    never the roster, and emits no roster insertion or removal.  With
    [tlimit] 0 it does nothing at all.  Otherwise the signals it sends
    are, record by record in roster order, SIGCONT and then SIGKILL to the
    pid of each record whose age [now - start] is at least [tlimit], and
    nothing for the other records.  Any number of enforcement cycles in a
    row leaves the roster as it was. *)
Theorem time_limit_enforcement_keeps_roster (os : os_t) (c : nsjconf_t) :
  let r := subprocReap_tlimit os c in
  result_of r = Ret tt
  /\ final r = c
  /\ Forall is_bystander (events r)
  /\ (tlimit c = 0 -> events r = [])
  /\ (0 <= os_time os < 2 ^ 63 ->
      Forall (fun p => 0 <= start p < 2 ^ 63) (pids c) ->
      signals_of (events r) = owed_signals (tlimit c) (os_time os) (pids c))
  /\ (forall cycles,
        result_of (enforce_cycles cycles c) = Ret tt
        /\ pids (final (enforce_cycles cycles c)) = pids c
        /\ Forall is_bystander (events (enforce_cycles cycles c))).
Proof.
  cbv zeta.
  destruct (subprocReap_tlimit_run os c) as [ev [R [B [Z0 S]]]].
  rewrite R. cbn. repeat split; try assumption.
  - intros Hnow Hst. apply S.
    eapply Forall_impl; [|exact Hst]. cbn. intros p Hp. lia.
  - destruct (enforce_cycles_run cycles c) as [ev' [R' _]]. now rewrite R'.
  - destruct (enforce_cycles_run cycles c) as [ev' [R' _]]. now rewrite R'.
  - destruct (enforce_cycles_run cycles c) as [ev' [R' B']]. now rewrite R'.
Qed.

(** A child that has run 1000 seconds under a limit of 600 is sent
    SIGCONT and SIGKILL at each of two cycles and stays on the roster. *)
Example enforce_twice_sample :
  let os := sample_os standalone_fds 0 (fun _ => 0) None [] in
  let r := enforce_cycles [os; os] (sample_conf 0 600 [child_of_ip_1]) in
  signals_of (events r) = [(100, 18); (100, 9); (100, 18); (100, 9)]
  /\ pids (final r) = [child_of_ip_1].
Proof. cbv zeta. split; vm_compute; reflexivity. Qed.

(** The time-limit loop signals pids of the roster only. *)
Lemma subprocReap_tlimit_body_targets now p c :
  Forall (fun e => forall q sg, e = Kill q sg -> q = Common.pid p)
         (events (subprocReap_tlimit_body now p c)).
Proof.
  unfold subprocReap_tlimit_body, bind, get, events. cbn.
  destruct (tlimit c =? 0); [constructor|].
  destruct (s64 (now - start p) >=? tlimit c); cbn;
    repeat constructor; intros q sg E; inversion E; reflexivity.
Qed.

Lemma subprocReap_tlimit_targets os c :
  Forall (fun e => forall q sg, e = Kill q sg -> In q (map Common.pid (pids c)))
         (events (subprocReap_tlimit os c)).
Proof.
  unfold subprocReap_tlimit. rewrite bind_get_run.
  generalize (pids c) as l. induction l as [|p l IH];
    cbn [subprocReap_tlimit_loop]; [constructor|].
  destruct (subprocReap_tlimit_body_run (os_time os) p c) as [e1 [R1 _]].
  pose proof (subprocReap_tlimit_body_targets (os_time os) p c) as T1.
  rewrite R1 in T1. rewrite (bind_ret_run _ _ _ _ _ _ R1).
  unfold events in *. cbn [snd] in *. apply Forall_app. split.
  - eapply Forall_impl; [|exact T1]. cbn. intros e H q sg E.
    left. symmetry. eauto.
  - eapply Forall_impl; [|exact IH]. cbn. intros e H q sg E.
    right. eauto.
Qed.

(** Reaping a child that has no record. *)
Lemma subprocReap_unknown_pid os pid st c :
  os_waitpid os = [(pid, st)] -> 0 < pid -> st <> WOther ->
  ~ In pid (map Common.pid (pids c)) ->
  In (Log WARNING "PID: %d not found (?)" [AInt pid])
     (events (subprocReap os c))
  /\ final (subprocReap os c) = c.
Proof.
  intros W Hpid Hst Habs. unfold subprocReap. rewrite W.
  pose proof (subprocRemove_unknown pid c Habs) as Rm.
  destruct (subprocReap_tlimit_run os c) as [e2 [R2 _]].
  assert (Hwait : exists e1,
    subprocReap_wait [(pid, st)] c
    = (Ret tt, c,
       Waitpid pid st :: Log WARNING "PID: %d not found (?)" [AInt pid] :: e1)).
  { cbn [subprocReap_wait]. rewrite bind_emit_run.
    replace (pid >? 0) with true by (symmetry; apply Z.gtb_lt; lia).
    destruct st as [code|sig|]; [| |contradiction];
      cbn [WIFEXITED WIFSIGNALED when].
    - rewrite (bind_ret_run (subprocRemove pid ;; _) _ c tt c
                 [Log WARNING "PID: %d not found (?)" [AInt pid];
                  Log INFO "PID: %d exited with status: %d, (PIDs left: %d)"
                    [AInt pid; AInt (WEXITSTATUS (WExited code));
                     AInt (subprocCount c)]]).
      + eexists. cbn. reflexivity.
      + rewrite (bind_ret_run _ _ _ _ _ _ Rm). rewrite bind_get_run.
        reflexivity.
    - rewrite (bind_ret_run (ret tt) _ c tt c [] eq_refl).
      rewrite (bind_ret_run (subprocRemove pid ;; _) _ c tt c
                 [Log WARNING "PID: %d not found (?)" [AInt pid];
                  Log INFO "PID: %d terminated with signal: %d, (PIDs left: %d)"
                    [AInt pid; AInt (WTERMSIG (WSignaled sig));
                     AInt (subprocCount c)]]).
      + eexists. cbn. reflexivity.
      + rewrite (bind_ret_run _ _ _ _ _ _ Rm). rewrite bind_get_run.
        reflexivity. }
  destruct Hwait as [e1 Hwait].
  rewrite (bind_ret_run _ _ _ _ _ _ Hwait), R2.
  unfold result_of, final, events. cbn [fst snd]. split; [|reflexivity].
  right. now left.
Qed.

End RosterFacts.

(** ** subproc.c: spawning *)

Module SpawnFacts.

Import Libc Common Linux Proc Net Subproc Spec Parts.
Import ProcFacts NetFacts BuilderFacts RosterFacts.
Local Open Scope proc_scope.

Lemma bystander_no_insert e : is_bystander e -> no_insert e.
Proof. destruct e; cbn; intros H I; auto. Qed.

Lemma log_bystander e : is_log e -> is_bystander e.
Proof. destruct e; cbn; auto. Qed.

Lemma Forall_log_bystander ev : Forall is_log ev -> Forall is_bystander ev.
Proof. apply Forall_impl, log_bystander. Qed.

Lemma Forall_bystander_no_insert ev :
  Forall is_bystander ev -> Forall no_insert ev.
Proof. apply Forall_impl, bystander_no_insert. Qed.

(** The net attacher returns, leaves [nsjconf] alone and inserts
    nothing. *)
Lemma netCloneNetIfaces_run os pid c :
  exists b ev,
    netCloneNetIfaces os pid c = (Ret b, c, ev) /\ Forall no_insert ev.
Proof.
  unfold netCloneNetIfaces, netCloneMacV, bind, get, emit, ret. cbn.
  destruct (iface_macvtap c) as [i1|]; cbn;
    [destruct (os_macv os "macvtap" "vt0" i1 pid); cbn|];
    (destruct (iface_macvlan c) as [i2|]; cbn;
     [destruct (os_macv os "macvlan" "vl0" i2 pid); cbn|]);
    eexists _, _; (split; [reflexivity|]);
    repeat constructor; intros [].
Qed.

(** The read loop leaves [nsjconf] alone and emits reads and forwarded
    chunks only.  When it returns, its last event is a [read] that
    returned 0 or less. *)
Lemma drain_log_pipe_run os fd fuel : forall k c,
  exists o ev,
    drain_log_pipe os fuel k fd c = (o, c, ev)
    /\ Forall is_bystander ev
    /\ (o = OutOfFuel
        \/ (o = Ret tt /\ exists ev' sz, ev = ev' ++ [Read fd sz] /\ sz <= 0)).
Proof.
  induction fuel as [|fuel IH]; intros k c; cbn [drain_log_pipe].
  - exists OutOfFuel, []. repeat split; auto.
  - unfold bind at 1. unfold emit at 1.
    destruct (os_read os k >? 0) eqn:E.
    + destruct (IH (S k) c) as [o [ev [R [B T]]]].
      unfold bind at 1. unfold emit at 1. rewrite R.
      exists o, (Read fd (os_read os k) :: LogDirectlyToFD (os_read os k) :: ev).
      split; [reflexivity|]. split; [repeat constructor; assumption|].
      destruct T as [->|[-> [ev' [sz [-> Hsz]]]]]; [now left|right].
      split; [reflexivity|].
      now exists (Read fd (os_read os k) :: LogDirectlyToFD (os_read os k) :: ev'), sz.
    + exists (Ret tt), [Read fd (os_read os k)].
      split; [reflexivity|]. split; [repeat constructor|]. right.
      split; [reflexivity|]. exists [], (os_read os k).
      split; [reflexivity|].
      rewrite Z.gtb_ltb in E. apply Z.ltb_ge in E. lia.
Qed.

(** With fuel beyond the index of a [read] that returns 0 or less, the
    loop returns. *)
Lemma drain_log_pipe_returns os fd n : forall fuel k c,
  os_read os (k + n) <= 0 -> (n < fuel)%nat ->
  exists ev, drain_log_pipe os fuel k fd c = (Ret tt, c, ev)
             /\ Forall is_bystander ev.
Proof.
  induction n as [|n IH]; intros fuel k c Hr Hf;
    (destruct fuel as [|fuel]; [inversion Hf|]); cbn [drain_log_pipe];
    unfold bind at 1; unfold emit at 1.
  - rewrite Nat.add_0_r in Hr.
    replace (os_read os k >? 0) with false
      by (symmetry; rewrite Z.gtb_ltb; apply Z.ltb_ge; lia).
    eexists. split; [reflexivity|repeat constructor].
  - destruct (os_read os k >? 0).
    + destruct (IH fuel (S k) c) as [ev [R B]];
        [now rewrite Nat.add_succ_comm|lia|].
      unfold bind at 1. unfold emit at 1. rewrite R.
      eexists. split; [reflexivity|repeat constructor; assumption].
    + eexists. split; [reflexivity|repeat constructor].
Qed.

(** The events of the parent up to the end of the read loop, and from
    the close on. *)
Lemma spawn_parent_run os fuel pid pipefd0 fd_in c :
  exists o c' ev,
    spawn_parent os fuel pid pipefd0 fd_in c = (o, c', ev)
    /\ ((o = OutOfFuel /\ c' = c /\ Forall no_insert ev)
        \/ (o = Ret tt
            /\ exists pre sz post,
                 ev = pre ++ Read pipefd0 sz :: Close pipefd0 :: post
                 /\ Forall no_insert pre
                 /\ sz <= 0
                 /\ ((c' = c /\ Forall no_insert post)
                     \/ exists p, c' = set_pids (p :: pids c) c
                                  /\ Common.pid p = pid
                                  /\ In (ListInsertHead p) post))).
Proof.
  unfold spawn_parent.
  destruct (netCloneNetIfaces_run os pid c) as [b [e1 [R1 N1]]].
  rewrite (bind_ret_run _ _ _ _ _ _ R1).
  set (warn := when (negb b) _).
  assert (Hw : exists e2, warn c = (Ret tt, c, e2) /\ Forall no_insert e2).
  { subst warn. destruct b; cbn; eexists; (split; [reflexivity|]);
      repeat constructor. intros []. }
  destruct Hw as [e2 [R2 N2]].
  rewrite (bind_ret_run _ _ _ _ _ _ R2).
  destruct (drain_log_pipe_run os pipefd0 fuel 0%nat c) as [o [e3 [R3 [B3 T3]]]].
  apply Forall_bystander_no_insert in B3.
  destruct T3 as [->|[-> [e3' [sz [E3 Hsz]]]]].
  - rewrite (bind_out_of_fuel_run _ _ _ _ _ R3).
    unfold result_of, final, events. cbn [fst snd].
    eexists _, _, _. split; [reflexivity|]. left.
    repeat split. rewrite !Forall_app. auto.
  - rewrite (bind_ret_run _ _ _ _ _ _ R3), bind_emit_run.
    destruct (subprocAdd_run os pid fd_in c) as [c' [e4 [R4 H4]]].
    rewrite (bind_ret_run _ _ _ _ _ _ R4).
    destruct (netConnToText_run os fd_in true 64 false c') as [r [e5 [R5 L5]]].
    rewrite (bind_ret_run _ _ _ _ _ _ R5), bind_get_run.
    unfold emit, result_of, final, events. cbn [fst snd].
    eexists _, _, _. split; [reflexivity|]. right. split; [reflexivity|].
    subst e3. rewrite Forall_app in B3. destruct B3 as [B3 _].
    exists (e1 ++ e2 ++ e3'), sz. eexists. split; [|split; [|split]].
    + rewrite <- !app_assoc. cbn. reflexivity.
    + rewrite !Forall_app. auto.
    + assumption.
    + destruct H4 as [[-> N4]|[p [-> [Hp I4]]]].
      * left. split; [reflexivity|].
        rewrite !Forall_app. repeat split; try assumption.
        -- apply Forall_bystander_no_insert, Forall_log_bystander, L5.
        -- repeat constructor. intros [].
      * right. exists p. repeat split; try assumption.
        apply in_or_app. now left.
Qed.

(** *** The runs of [subprocRunChild], case by case *)

Lemma subprocRunChild_rejected os fuel fd_in fd_out fd_err c ev0 :
  netLimitConns os fd_in c = (Ret false, c, ev0) ->
  subprocRunChild os fuel fd_in fd_out fd_err c = (Ret tt, c, ev0).
Proof.
  intros H. unfold subprocRunChild.
  rewrite (bind_ret_run _ _ _ _ _ _ H). cbn. now rewrite app_nil_r.
Qed.

Lemma subprocRunChild_no_pipe os fuel fd_in fd_out fd_err c ev0 :
  netLimitConns os fd_in c = (Ret true, c, ev0) ->
  os_pipe2 os = None ->
  subprocRunChild os fuel fd_in fd_out fd_err c
  = (Ret tt, c,
     ev0 ++ spawn_head os c ++ [PLog ERROR "pipe2(pipefd, O_CLOEXEC) failed" []]).
Proof.
  intros H P. unfold subprocRunChild, spawn_head.
  rewrite (bind_ret_run _ _ _ _ _ _ H). cbn [negb].
  rewrite bind_get_run. cbv zeta. rewrite !bind_emit_run, P.
  reflexivity.
Qed.

Lemma subprocRunChild_in_child os fuel fd_in fd_out fd_err c ev0 r0 w0 :
  netLimitConns os fd_in c = (Ret true, c, ev0) ->
  os_pipe2 os = Some (r0, w0) ->
  os_clone os = 0 ->
  subprocRunChild os fuel fd_in fd_out fd_err c
  = ((if all_ok (os_contain os) && os_execve os then Execed else Exited 1),
     c,
     ev0 ++ spawn_head os c ++ Clone (clone_flags c) 0
         :: events (subprocNewProc os fd_in fd_out fd_err w0 c)).
Proof.
  intros H P K. unfold subprocRunChild, spawn_head.
  rewrite (bind_ret_run _ _ _ _ _ _ H). cbn [negb].
  rewrite bind_get_run. cbv zeta. rewrite !bind_emit_run, P, K.
  rewrite bind_emit_run.
  destruct (subprocNewProc_run os fd_in fd_out fd_err w0 c)
    as [_ [_ [Ro Rc]]].
  change (0 =? 0) with true. cbn [when].
  unfold result_of, final, events in *.
  destruct (subprocNewProc os fd_in fd_out fd_err w0 c) as [[o c'] ev] eqn:Run.
  cbn [fst snd] in *. subst o c'.
  destruct (all_ok (os_contain os) && os_execve os).
  - rewrite (bind_execed_run _ _ _ _ _
               (bind_execed_run _ (fun _ => ret tt) _ _ _ Run)).
    reflexivity.
  - rewrite (bind_exited_run _ _ _ _ _ _
               (bind_exited_run _ (fun _ => ret tt) _ _ _ _ Run)).
    reflexivity.
Qed.

Lemma subprocRunChild_clone_failed os fuel fd_in fd_out fd_err c ev0 r0 w0 :
  netLimitConns os fd_in c = (Ret true, c, ev0) ->
  os_pipe2 os = Some (r0, w0) ->
  os_clone os = -1 ->
  subprocRunChild os fuel fd_in fd_out fd_err c
  = (Ret tt, c,
     ev0 ++ spawn_head os c ++
     [Clone (clone_flags c) (-1);
      PLog ERROR clone_failed_msg [AInt (clone_flags c)];
      Close r0; Close w0]).
Proof.
  intros H P K. unfold subprocRunChild, spawn_head.
  rewrite (bind_ret_run _ _ _ _ _ _ H). cbn [negb].
  rewrite bind_get_run. cbv zeta. rewrite !bind_emit_run, P, K.
  reflexivity.
Qed.

Lemma subprocRunChild_in_parent os fuel fd_in fd_out fd_err c ev0 r0 w0 :
  netLimitConns os fd_in c = (Ret true, c, ev0) ->
  os_pipe2 os = Some (r0, w0) ->
  os_clone os <> 0 -> os_clone os <> -1 ->
  subprocRunChild os fuel fd_in fd_out fd_err c
  = (result_of (spawn_parent os fuel (os_clone os) r0 fd_in c),
     final (spawn_parent os fuel (os_clone os) r0 fd_in c),
     ev0 ++ spawn_head os c ++ Clone (clone_flags c) (os_clone os)
         :: events (spawn_parent os fuel (os_clone os) r0 fd_in c)).
Proof.
  intros H P K0 K1. unfold subprocRunChild, spawn_head.
  rewrite (bind_ret_run _ _ _ _ _ _ H). cbn [negb].
  rewrite bind_get_run. cbv zeta. rewrite !bind_emit_run, P.
  rewrite bind_emit_run.
  apply Z.eqb_neq in K0, K1. rewrite K0. cbn [when].
  rewrite (bind_ret_run (ret tt) _ c tt c [] eq_refl). rewrite K1.
  fold (spawn_parent os fuel (os_clone os) r0 fd_in).
  reflexivity.
Qed.

(** *** Where [clone] is called *)

Ltac emits_auto :=
  repeat first
    [ apply emits_bind; [|intros ?]
    | apply emits_when
    | apply emits_emit; cbn; solve [ exact I | intros [] ]
    | apply emits_ret | apply emits_get | apply emits_put
    | apply emits_exit | apply emits_execed | apply emits_out_of_fuel
    | match goal with
      | |- emits _ (if ?b then _ else _) => destruct b
      | |- emits _ (match ?x with Some _ => _ | None => _ end) => destruct x
      end ].

(** The kinds of events each part of a spawn emits. *)
Lemma netConnToText_parent_events os fd remote s want :
  emits is_parent_event (netConnToText os fd remote s want).
Proof. unfold netConnToText. cbv zeta. emits_auto. Qed.

Lemma drain_log_pipe_parent_events os fd fuel : forall k,
  emits is_parent_event (drain_log_pipe os fuel k fd).
Proof.
  induction fuel as [|fuel IH]; intros k; cbn [drain_log_pipe]; cbv zeta.
  - apply emits_out_of_fuel.
  - emits_auto. apply IH.
Qed.

Lemma subprocNewProc_child_events os fd_in fd_out fd_err pipefd :
  emits is_child_event (subprocNewProc os fd_in fd_out fd_err pipefd).
Proof.
  unfold subprocNewProc, contain. cbv zeta.
  repeat first [ apply emits_log_args; intros; exact I
               | progress emits_auto ].
Qed.

Lemma spawn_parent_events os fuel pid pipefd0 fd_in :
  emits is_parent_event (spawn_parent os fuel pid pipefd0 fd_in).
Proof.
  unfold spawn_parent, netCloneNetIfaces, netCloneMacV, subprocAdd,
    Subproc.malloc, LIST_INSERT_HEAD.
  cbv zeta.
  repeat first [ apply netConnToText_parent_events
               | apply drain_log_pipe_parent_events
               | progress emits_auto ].
Qed.

Lemma child_event_no_clone e : is_child_event e -> ~ is_clone e.
Proof. destruct e; cbn; auto. Qed.

Lemma parent_event_no_clone e : is_parent_event e -> ~ is_clone e.
Proof. destruct e; cbn; auto. Qed.

Lemma parent_event_no_waitpid e : is_parent_event e -> ~ is_waitpid e.
Proof. destruct e; cbn; auto. Qed.

Lemma in_clone_split (pre post : list event) f ret f' ret' :
  Forall (fun e => ~ is_clone e) pre ->
  Forall (fun e => ~ is_clone e) post ->
  In (Clone f ret) (pre ++ Clone f' ret' :: post) ->
  f = f' /\ ret = ret'.
Proof.
  intros Hpre Hpost I. apply in_app_or in I. destruct I as [I|[I|I]].
  - rewrite Forall_forall in Hpre. destruct (Hpre _ I Logic.I).
  - now inversion I.
  - rewrite Forall_forall in Hpost. destruct (Hpost _ I Logic.I).
Qed.

Lemma log_no_clone ev : Forall is_log ev -> Forall (fun e => ~ is_clone e) ev.
Proof. apply Forall_impl. intros [] L C; auto. Qed.

(** Every call of [clone] in a run of [subprocRunChild] carries the flags
    computed from the configuration and the result the system gave. *)
Lemma subprocRunChild_clone_event os fuel fd_in fd_out fd_err c f ret :
  In (Clone f ret) (events (subprocRunChild os fuel fd_in fd_out fd_err c)) ->
  f = clone_flags c /\ ret = os_clone os.
Proof.
  destruct (netLimitConns_run os fd_in c) as [b [ev0 [R0 L0]]].
  pose proof (log_no_clone _ L0) as N0.
  assert (Nh : Forall (fun e => ~ is_clone e) (ev0 ++ spawn_head os c)).
  { apply Forall_app. split; [assumption|]. repeat constructor; intros []. }
  destruct b.
  2:{ rewrite (subprocRunChild_rejected _ _ _ _ _ _ _ R0). unfold events; cbn [snd]. intros I.
      rewrite Forall_forall in N0. destruct (N0 _ I Logic.I). }
  destruct (os_pipe2 os) as [[r0 w0]|] eqn:P.
  2:{ rewrite (subprocRunChild_no_pipe _ _ _ _ _ _ _ R0 P). unfold events; cbn [snd]. intros I.
      rewrite app_assoc in I. apply in_app_or in I. destruct I as [I|I].
      - rewrite Forall_forall in Nh. destruct (Nh _ I Logic.I).
      - destruct I as [I|[]]. discriminate. }
  destruct (Z.eq_dec (os_clone os) 0) as [K0|K0];
    [|destruct (Z.eq_dec (os_clone os) (-1)) as [K1|K1]].
  - rewrite (subprocRunChild_in_child _ _ _ _ _ _ _ _ _ R0 P K0). unfold events; cbn [snd].
    rewrite app_assoc, K0. apply in_clone_split; [assumption|].
    eapply Forall_impl; [apply child_event_no_clone|].
    apply subprocNewProc_child_events.
  - rewrite (subprocRunChild_clone_failed _ _ _ _ _ _ _ _ _ R0 P K1). unfold events; cbn [snd].
    rewrite app_assoc, K1. apply in_clone_split; [assumption|].
    repeat constructor; intros [].
  - rewrite (subprocRunChild_in_parent _ _ _ _ _ _ _ _ _ R0 P K0 K1). unfold events; cbn [snd].
    rewrite app_assoc. apply in_clone_split; [assumption|].
    eapply Forall_impl; [apply parent_event_no_clone|].
    apply spawn_parent_events.
Qed.

(** Once the connection is admitted and [pipe2] succeeded, [clone] is
    called exactly once, with the flags computed from the configuration;
    otherwise it is not called. *)
Lemma subprocRunChild_clones_once os fuel fd_in fd_out fd_err c :
  let ev := events (subprocRunChild os fuel fd_in fd_out fd_err c) in
  (forall r0 w0,
     result_of (netLimitConns os fd_in c) = Ret true ->
     os_pipe2 os = Some (r0, w0) ->
     exists pre post,
       ev = pre ++ Clone (clone_flags c) (os_clone os) :: post
       /\ Forall (fun e => ~ is_clone e) pre
       /\ Forall (fun e => ~ is_clone e) post)
  /\ (result_of (netLimitConns os fd_in c) = Ret false \/ os_pipe2 os = None ->
      Forall (fun e => ~ is_clone e) ev).
Proof.
  cbv zeta.
  destruct (netLimitConns_run os fd_in c) as [b [ev0 [R0 L0]]].
  pose proof (log_no_clone _ L0) as N0.
  assert (Nh : Forall (fun e => ~ is_clone e) (ev0 ++ spawn_head os c)).
  { apply Forall_app. split; [assumption|]. repeat constructor; intros []. }
  split.
  - intros r0 w0 Ha P. rewrite R0 in Ha. unfold result_of in Ha.
    cbn [fst] in Ha. inversion Ha; subst b.
    exists (ev0 ++ spawn_head os c).
    destruct (Z.eq_dec (os_clone os) 0) as [K0|K0];
      [|destruct (Z.eq_dec (os_clone os) (-1)) as [K1|K1]].
    + rewrite (subprocRunChild_in_child _ _ _ _ _ _ _ _ _ R0 P K0).
      unfold events at 1; cbn [snd]. rewrite K0. eexists.
      split; [now rewrite <- app_assoc|]. split; [assumption|].
      eapply Forall_impl; [apply child_event_no_clone|].
      apply subprocNewProc_child_events.
    + rewrite (subprocRunChild_clone_failed _ _ _ _ _ _ _ _ _ R0 P K1).
      unfold events; cbn [snd]. rewrite K1. eexists.
      split; [now rewrite <- app_assoc|]. split; [assumption|].
      repeat constructor; intros [].
    + rewrite (subprocRunChild_in_parent _ _ _ _ _ _ _ _ _ R0 P K0 K1).
      unfold events at 1; cbn [snd]. eexists.
      split; [now rewrite <- app_assoc|]. split; [assumption|].
      eapply Forall_impl; [apply parent_event_no_clone|].
      apply spawn_parent_events.
  - intros H. destruct b.
    + destruct H as [H|P].
      { rewrite R0 in H. discriminate H. }
      rewrite (subprocRunChild_no_pipe _ _ _ _ _ _ _ R0 P).
      unfold events; cbn [snd]. rewrite app_assoc.
      apply Forall_app. split; [assumption|]. repeat constructor; intros [].
    + rewrite (subprocRunChild_rejected _ _ _ _ _ _ _ R0).
      unfold events; cbn [snd]. assumption.
Qed.

(** C7.  The flags [subprocRunChild] passes to [clone] are SIGCHLD
    bitwise-or the flags of exactly the namespaces enabled in the
    configuration: the low byte of the mask is SIGCHLD, the bit of each of
    CLONE_NEWNET, CLONE_NEWUSER, CLONE_NEWNS, CLONE_NEWPID, CLONE_NEWIPC
    and CLONE_NEWUTS is set when its namespace is enabled and absent when
    it is disabled, and no other bit is set.  Every call of [clone] in a
    run of [subprocRunChild] carries these flags, and there is such a call:
    once the connection is admitted and [pipe2] has succeeded,
    [subprocRunChild] calls [clone] exactly once, with these flags, whatever
    [clone] returns and however the run goes on; when the connection is
    rejected or [pipe2] fails it does not call [clone]. *)
Theorem clone_flags_sigchld_or_enabled_namespaces (c : nsjconf_t) :
  clone_flags c = fold_left Z.lor (requested_flags c) SIGCHLD
  /\ Z.land (clone_flags c) 0xff = SIGCHLD
  /\ Forall (fun nf : bool * Z => Z.land (clone_flags c) (snd nf)
                       = if fst nf then snd nf else 0)
            (namespace_flags c)
  /\ clone_flags c = SIGCHLD + fold_left Z.add (requested_flags c) 0
  /\ (forall os fuel fd_in fd_out fd_err f ret,
        In (Clone f ret)
           (events (subprocRunChild os fuel fd_in fd_out fd_err c)) ->
        f = clone_flags c)
  /\ (forall os fuel fd_in fd_out fd_err r0 w0,
        result_of (netLimitConns os fd_in c) = Ret true ->
        os_pipe2 os = Some (r0, w0) ->
        exists pre post,
          events (subprocRunChild os fuel fd_in fd_out fd_err c)
          = pre ++ Clone (clone_flags c) (os_clone os) :: post
          /\ Forall (fun e => ~ is_clone e) pre
          /\ Forall (fun e => ~ is_clone e) post)
  /\ (forall os fuel fd_in fd_out fd_err,
        result_of (netLimitConns os fd_in c) = Ret false
        \/ os_pipe2 os = None ->
        Forall (fun e => ~ is_clone e)
               (events (subprocRunChild os fuel fd_in fd_out fd_err c))).
Proof.
  split; [|split; [|split; [|split; [|split; [|split]]]]].
  5:{ intros os fuel fd_in fd_out fd_err f ret I.
      now apply (subprocRunChild_clone_event _ _ _ _ _ _ _ _ I). }
  5:{ intros os fuel fd_in fd_out fd_err.
      exact (proj1 (subprocRunChild_clones_once os fuel fd_in fd_out fd_err c)). }
  5:{ intros os fuel fd_in fd_out fd_err.
      exact (proj2 (subprocRunChild_clones_once os fuel fd_in fd_out fd_err c)). }
  all: unfold clone_flags, requested_flags, namespace_flags;
    destruct (clone_newnet c), (clone_newuser c), (clone_newns c),
      (clone_newpid c), (clone_newipc c), (clone_newuts c);
    first [ reflexivity | repeat constructor ].
Qed.

Lemma clone_flags_sigchld_or_enabled_namespaces_witness :
  result_of (netLimitConns Notions.os_spawn_ok 5 conf_one_child) = Ret true
  /\ os_pipe2 Notions.os_spawn_ok = Some (7, 8)
  /\ clone_flags conf_one_child
     = Z.lor SIGCHLD
         (Z.lor CLONE_NEWNET
            (Z.lor CLONE_NEWUSER
               (Z.lor CLONE_NEWNS
                  (Z.lor CLONE_NEWPID (Z.lor CLONE_NEWIPC CLONE_NEWUTS)))))
  /\ exists pre post,
       events (subprocRunChild Notions.os_spawn_ok 3 5 5 5 conf_one_child)
       = pre ++ Clone (clone_flags conf_one_child) (os_clone Notions.os_spawn_ok) :: post
       /\ Forall (fun e => ~ is_clone e) pre
       /\ Forall (fun e => ~ is_clone e) post.
Proof.
  split; [reflexivity|]. split; [reflexivity|]. split; [reflexivity|].
  exact (proj1 (proj2 (proj2 (proj2 (proj2 (proj2
           (clone_flags_sigchld_or_enabled_namespaces conf_one_child))))))
           Notions.os_spawn_ok 3%nat 5 5 5 7 8 eq_refl eq_refl).
Defined.

(** C3 (amended).  In every run of [subprocRunChild], of any length,
    either no record is inserted and [nsjconf] is as before, or [clone]
    returned a child's pid and the trace splits into a part without any
    insertion, then the [read] on the pipe's read end that ended the read
    loop by returning 0 (end of file) or a negative value (an error), then
    the [close] of that read end, and only then the part in which the
    record of the child is inserted at the head of the roster. *)
Theorem roster_insert_only_after_drain_and_close
    (os : os_t) (fuel : nat) (fd_in fd_out fd_err : Z) (c : nsjconf_t) :
  let r := subprocRunChild os fuel fd_in fd_out fd_err c in
  (Forall no_insert (events r) /\ final r = c)
  \/ (exists r0 w0 pre sz post p,
        os_pipe2 os = Some (r0, w0)
        /\ os_clone os <> 0 /\ os_clone os <> -1
        /\ result_of r = Ret tt
        /\ events r = pre ++ Read r0 sz :: Close r0 :: post
        /\ Forall no_insert pre
        /\ sz <= 0
        /\ In (ListInsertHead p) post
        /\ Common.pid p = os_clone os
        /\ final r = set_pids (p :: pids c) c).
Proof.
  cbv zeta.
  destruct (netLimitConns_run os fd_in c) as [b [ev0 [R0 L0]]].
  assert (N0 : Forall no_insert ev0)
    by now apply Forall_bystander_no_insert, Forall_log_bystander.
  assert (Nh : Forall no_insert (ev0 ++ spawn_head os c)).
  { apply Forall_app. split; [assumption|]. repeat constructor; intros []. }
  destruct b.
  2:{ rewrite (subprocRunChild_rejected _ _ _ _ _ _ _ R0). now left. }
  destruct (os_pipe2 os) as [[r0 w0]|] eqn:P.
  2:{ rewrite (subprocRunChild_no_pipe _ _ _ _ _ _ _ R0 P). left.
      split; [|reflexivity]. unfold events; cbn [snd].
      rewrite app_assoc. apply Forall_app. split; [assumption|].
      repeat constructor; intros []. }
  destruct (Z.eq_dec (os_clone os) 0) as [K0|K0];
    [|destruct (Z.eq_dec (os_clone os) (-1)) as [K1|K1]].
  - rewrite (subprocRunChild_in_child _ _ _ _ _ _ _ _ _ R0 P K0). left.
    split; [|reflexivity]. unfold events; cbn [snd].
    rewrite app_assoc. apply Forall_app. split; [assumption|].
    constructor; [intros []|].
    apply Forall_bystander_no_insert, subprocNewProc_bystander.
  - rewrite (subprocRunChild_clone_failed _ _ _ _ _ _ _ _ _ R0 P K1). left.
    split; [|reflexivity]. unfold events; cbn [snd].
    rewrite app_assoc. apply Forall_app. split; [assumption|].
    repeat constructor; intros [].
  - rewrite (subprocRunChild_in_parent _ _ _ _ _ _ _ _ _ R0 P K0 K1).
    destruct (spawn_parent_run os fuel (os_clone os) r0 fd_in c)
      as [o [c' [ev [R H]]]].
    rewrite R. unfold result_of, final, events; cbn [fst snd].
    destruct H as [[-> [-> N]]
                  |[-> [pre [sz [post [-> [Npre [Hsz H]]]]]]]].
    + left. split; [|reflexivity].
      rewrite app_assoc. apply Forall_app. split; [assumption|].
      constructor; [intros []|assumption].
    + destruct H as [[-> Npost]|[p [-> [Hp Ip]]]].
      * left. split; [|reflexivity].
        rewrite app_assoc. apply Forall_app. split; [assumption|].
        constructor; [intros []|].
        apply Forall_app. split; [assumption|].
        repeat constructor; try (intros []). assumption.
      * right.
        exists r0, w0,
          ((ev0 ++ spawn_head os c) ++ Clone (clone_flags c) (os_clone os) :: pre),
          sz, post, p.
        repeat split; try assumption.
        -- rewrite <- !app_assoc. reflexivity.
        -- apply Forall_app. split; [assumption|].
           constructor; [intros []|assumption].
Qed.

(** C3 as stated fails.  On a console, with [clone] returning the pid
    1234, the first [read] on the log pipe fails with -1.  The loop ends,
    the read end is closed and the record of 1234 is inserted, although no
    [read] ever returned 0: no end of file was seen. *)
Lemma roster_insert_without_eof :
  let os := sample_os standalone_fds 1234 (fun _ => -1) (Some child_of_ip_1) [] in
  let r := subprocRunChild os 8 0 1 2 (sample_conf 0 600 []) in
  result_of r = Ret tt
  /\ reads_of (events r) = [(7, -1)]
  /\ map Common.pid (pids (final r)) = [1234]
  /\ (exists p, In (ListInsertHead p) (events r)).
Proof.
  cbv zeta. split; [|split; [|split]]; try (vm_compute; reflexivity).
  eexists. vm_compute. do 6 right. left. reflexivity.
Qed.

(** C8.  When [clone] fails, [subprocRunChild] returns to its caller with
    [nsjconf], and so the roster, unchanged, and its trace holds no call
    of the net attacher, no allocation and no roster insertion or
    removal.  When the connection had been admitted and the pipe created,
    the trace ends with the failed [clone], the error report and the
    close of both ends of the log pipe. *)
Theorem clone_failure_leaves_roster_alone
    (os : os_t) (fuel : nat) (fd_in fd_out fd_err : Z) (c : nsjconf_t) :
  os_clone os = -1 ->
  let r := subprocRunChild os fuel fd_in fd_out fd_err c in
  result_of r = Ret tt
  /\ final r = c
  /\ Forall is_bystander (events r)
  /\ (forall ev0 r0 w0,
        netLimitConns os fd_in c = (Ret true, c, ev0) ->
        os_pipe2 os = Some (r0, w0) ->
        events r
        = ev0 ++ spawn_head os c ++
          [Clone (clone_flags c) (-1);
           PLog ERROR clone_failed_msg [AInt (clone_flags c)];
           Close r0; Close w0]).
Proof.
  intros K. cbv zeta.
  destruct (netLimitConns_run os fd_in c) as [b [ev0 [R0 L0]]].
  apply Forall_log_bystander in L0.
  destruct b.
  2:{ rewrite (subprocRunChild_rejected _ _ _ _ _ _ _ R0).
      repeat split; try assumption. intros ? ? ? H. congruence. }
  destruct (os_pipe2 os) as [[r0 w0]|] eqn:P.
  2:{ rewrite (subprocRunChild_no_pipe _ _ _ _ _ _ _ R0 P).
      repeat split; [|intros ? ? ? _ H; discriminate].
      unfold events; cbn [snd]. apply Forall_app. split; [assumption|].
      repeat constructor. }
  rewrite (subprocRunChild_clone_failed _ _ _ _ _ _ _ _ _ R0 P K).
  repeat split.
  - unfold events; cbn [snd]. apply Forall_app. split; [assumption|].
    repeat constructor.
  - intros ev0' r0' w0' H H'. unfold events; cbn [snd]. congruence.
Qed.

Lemma clone_failure_leaves_roster_alone_witness :
  os_clone os_clone_fails = -1
  /\ result_of (subprocRunChild os_clone_fails 8 5 5 5 conf_one_child) = Ret tt
  /\ final (subprocRunChild os_clone_fails 8 5 5 5 conf_one_child)
     = conf_one_child
  /\ events (subprocRunChild os_clone_fails 8 5 5 5 conf_one_child)
     = spawn_head os_clone_fails conf_one_child ++
       [Clone (clone_flags conf_one_child) (-1);
        PLog ERROR clone_failed_msg [AInt (clone_flags conf_one_child)];
        Close 7; Close 8].
Proof.
  split; [reflexivity|].
  destruct (clone_failure_leaves_roster_alone os_clone_fails 8 5 5 5
              conf_one_child eq_refl) as [Hres [Hfin [_ Hev]]].
  split; [exact Hres|]. split; [exact Hfin|].
  exact (Hev [] 7 8 eq_refl eq_refl).
Defined.

(** A spawn whose allocation fails, once the read loop has ended. *)
Lemma spawn_parent_no_memory os fuel pid pipefd0 fd_in c k :
  os_malloc os = None -> os_read os k <= 0 -> (k < fuel)%nat ->
  exists ev,
    spawn_parent os fuel pid pipefd0 fd_in c = (Ret tt, c, ev)
    /\ In (Malloc false) ev
    /\ Forall no_insert ev.
Proof.
  intros Hm Hr Hf. unfold spawn_parent.
  destruct (netCloneNetIfaces_run os pid c) as [b [e1 [R1 N1]]].
  rewrite (bind_ret_run _ _ _ _ _ _ R1).
  set (warn := when (negb b) _).
  assert (Hw : exists e2, warn c = (Ret tt, c, e2) /\ Forall no_insert e2).
  { subst warn. destruct b; cbn; eexists; (split; [reflexivity|]);
      repeat constructor. intros []. }
  destruct Hw as [e2 [R2 N2]].
  rewrite (bind_ret_run _ _ _ _ _ _ R2).
  destruct (drain_log_pipe_returns os pipefd0 k fuel 0%nat c Hr Hf)
    as [e3 [R3 B3]].
  apply Forall_bystander_no_insert in B3.
  rewrite (bind_ret_run _ _ _ _ _ _ R3), bind_emit_run.
  rewrite (bind_ret_run _ _ _ _ _ _ (subprocAdd_no_memory os pid fd_in c Hm)).
  destruct (netConnToText_run os fd_in true 64 false c) as [r [e5 [R5 L5]]].
  rewrite (bind_ret_run _ _ _ _ _ _ R5), bind_get_run.
  unfold emit, result_of, final, events. cbn [fst snd].
  eexists. split; [reflexivity|]. split.
  - apply in_or_app. right. apply in_or_app. right. apply in_or_app. right.
    right. now left.
  - rewrite !Forall_app. repeat split; try assumption.
    constructor; [intros []|].
    rewrite !Forall_app. repeat split.
    + repeat constructor; intros [].
    + apply Forall_bystander_no_insert, Forall_log_bystander, L5.
    + repeat constructor. intros [].
Qed.

(** C10.  [clone] has returned the pid of a child and [malloc] fails in
    [subprocAdd]: once the read loop has ended, [subprocRunChild] returns
    with the child cloned and not reaped, nothing inserted and [nsjconf]
    unchanged, so that the roster has no record of the pid.  The rate
    limiter therefore decides as if the child did not exist, time-limit
    enforcement never signals it, and [subprocReap], when the child is
    reported by [waitpid], logs that the pid was not found. *)
Theorem lost_child_when_malloc_fails
    (os : os_t) (fuel : nat) (fd_in fd_out fd_err : Z) (c : nsjconf_t)
    (ev0 : list event) (r0 w0 : Z) (k : nat) :
  netLimitConns os fd_in c = (Ret true, c, ev0) ->
  os_pipe2 os = Some (r0, w0) ->
  0 < os_clone os ->
  os_malloc os = None ->
  os_read os k <= 0 -> (k < fuel)%nat ->
  ~ In (os_clone os) (map Common.pid (pids c)) ->
  let r := subprocRunChild os fuel fd_in fd_out fd_err c in
  result_of r = Ret tt
  /\ In (Clone (clone_flags c) (os_clone os)) (events r)
  /\ In (Malloc false) (events r)
  /\ Forall no_insert (events r)
  /\ Forall (fun e => ~ is_waitpid e) (events r)
  /\ final r = c
  /\ ~ In (os_clone os) (map Common.pid (pids (final r)))
  /\ (forall os' fd, netLimitConns os' fd (final r) = netLimitConns os' fd c)
  /\ (forall os',
        Forall (fun e => forall sg, e <> Kill (os_clone os) sg)
               (events (subprocReap_tlimit os' (final r))))
  /\ (forall os' st,
        os_waitpid os' = [(os_clone os, st)] -> st <> WOther ->
        In (Log WARNING "PID: %d not found (?)" [AInt (os_clone os)])
           (events (subprocReap os' (final r)))).
Proof.
  intros R0 P Hpid Hm Hr Hf Habs. cbv zeta.
  rewrite (subprocRunChild_in_parent _ _ _ _ _ _ _ _ _ R0 P) by lia.
  pose proof (spawn_parent_events os fuel (os_clone os) r0 fd_in c) as Ev.
  destruct (spawn_parent_no_memory os fuel (os_clone os) r0 fd_in c k Hm Hr Hf)
    as [ev [R [Im Ni]]].
  rewrite R in Ev |- *. unfold result_of, final, events in *.
  cbn [fst snd] in *.
  assert (L0 : Forall is_log ev0).
  { destruct (netLimitConns_run os fd_in c) as [b [ev0' [R0' L0]]].
    congruence. }
  split; [reflexivity|]. split; [|split; [|split; [|split; [|split;
    [|split; [|split; [|split]]]]]]].
  - apply in_or_app. right. apply in_or_app. right. now left.
  - apply in_or_app. right. apply in_or_app. right. now right.
  - rewrite !Forall_app. repeat split.
    + now apply Forall_bystander_no_insert, Forall_log_bystander.
    + repeat constructor; intros [].
    + constructor; [intros []|assumption].
  - rewrite !Forall_app. repeat split.
    + eapply Forall_impl; [|exact L0]. intros [] L W; auto.
    + repeat constructor; intros [].
    + constructor; [intros []|].
      eapply Forall_impl; [apply parent_event_no_waitpid|exact Ev].
  - reflexivity.
  - assumption.
  - reflexivity.
  - intros os'. pose proof (subprocReap_tlimit_targets os' c) as T.
    eapply Forall_impl; [|exact T]. cbn. intros e H sg E.
    apply Habs. eauto.
  - intros os' st W Hst.
    now apply (subprocReap_unknown_pid os' (os_clone os) st c).
Qed.

Lemma lost_child_when_malloc_fails_witness :
  netLimitConns os_malloc_fails 5 conf_one_child = (Ret true, conf_one_child, [])
  /\ os_pipe2 os_malloc_fails = Some (7, 8)
  /\ 0 < os_clone os_malloc_fails
  /\ os_malloc os_malloc_fails = None
  /\ os_read os_malloc_fails 0 <= 0
  /\ (0 < 1)%nat
  /\ ~ In (os_clone os_malloc_fails) (map Common.pid (pids conf_one_child))
  /\ result_of (subprocRunChild os_malloc_fails 1 5 5 5 conf_one_child) = Ret tt
  /\ final (subprocRunChild os_malloc_fails 1 5 5 5 conf_one_child)
     = conf_one_child.
Proof.
  assert (H1 : netLimitConns os_malloc_fails 5 conf_one_child
               = (Ret true, conf_one_child, [])) by reflexivity.
  assert (H3 : 0 < os_clone os_malloc_fails) by reflexivity.
  assert (H5 : os_read os_malloc_fails 0 <= 0) by (cbn; lia).
  assert (H6 : (0 < 1)%nat) by lia.
  assert (H7 : ~ In (os_clone os_malloc_fails)
                    (map Common.pid (pids conf_one_child))).
  { cbn. intros [H|[]]. discriminate. }
  do 7 (split; [assumption || reflexivity|]).
  destruct (lost_child_when_malloc_fails os_malloc_fails 1 5 5 5
              conf_one_child [] 7 8 0%nat H1 eq_refl H3 eq_refl H5 H6 H7)
    as [Hres [_ [_ [_ [_ [Hfin _]]]]]].
  split; [exact Hres|exact Hfin].
Defined.

End SpawnFacts.

(** ** subproc.c: more on the roster *)

Module RosterMore.

Import Libc Common Linux Proc Net Subproc Spec Parts Notions.
Import ProcFacts NetFacts RosterFacts.
Local Open Scope proc_scope.

Lemma set_pids_same c : set_pids (pids c) c = c.
Proof. now destruct c. Qed.

Lemma set_pids_twice l l' c : set_pids l (set_pids l' c) = set_pids l c.
Proof. reflexivity. Qed.

Lemma pids_set_pids l c : pids (set_pids l c) = l.
Proof. reflexivity. Qed.

(** What [find_remove] finds is the first record with the pid. *)
Lemma find_remove_some pid l : forall p l',
  find_remove pid l = Some (p, l') ->
  exists l1 l2,
    l = l1 ++ p :: l2 /\ l' = l1 ++ l2 /\ Common.pid p = pid
    /\ ~ In pid (map Common.pid l1).
Proof.
  induction l as [|q l IH]; intros p l' H; cbn in H; [discriminate|].
  destruct (Z.eqb_spec (Common.pid q) pid) as [E|N].
  - inversion H; subst. exists [], l'. repeat split. intros [].
  - destruct (find_remove pid l) as [[p0 l0]|] eqn:F; [|discriminate].
    inversion H; subst.
    destruct (IH _ _ eq_refl) as [l1 [l2 [-> [-> [Hp Hn]]]]].
    exists (q :: l1), l2. repeat split; auto.
    intros [I|I]; [now apply N|now apply Hn].
Qed.

Lemma find_remove_present pid l :
  In pid (map Common.pid l) -> exists p l', find_remove pid l = Some (p, l').
Proof.
  induction l as [|q l IH]; cbn; [intros []|]. intros H.
  destruct (Z.eqb_spec (Common.pid q) pid) as [E|N]; [eauto|].
  destruct H as [H|H]; [contradiction|].
  destruct (IH H) as [p [l' ->]]. eauto.
Qed.

Lemma subprocRemove_known pid c p rest :
  find_remove pid (pids c) = Some (p, rest) ->
  subprocRemove pid c
  = (Ret tt, set_pids rest c,
     [Log DEBUG "Removing pid '%d' from the queue (IP:'%s', start time:'%u')"
        [AInt (Common.pid p); AStr (remote_txt p); AInt (u32 (start p))];
      ListRemove p]).
Proof.
  intros F. unfold subprocRemove, bind, get. cbn. now rewrite F.
Qed.

(** [subprocRemove] takes the first record with the pid off the roster
    and keeps the others in their order; for a pid without a record it
    changes nothing and warns. *)
Theorem subprocRemove_removes_first_match (pid : Z) (c : nsjconf_t) :
  let r := subprocRemove pid c in
  result_of r = Ret tt
  /\ ((~ In pid (pids_of c)
       /\ final r = c
       /\ events r = [Log WARNING "PID: %d not found (?)" [AInt pid]])
      \/ (exists l1 p l2,
            pids c = l1 ++ p :: l2
            /\ Common.pid p = pid
            /\ ~ In pid (map Common.pid l1)
            /\ final r = set_pids (l1 ++ l2) c
            /\ In (ListRemove p) (events r)
            /\ subprocCount (final r) = subprocCount c - 1)).
Proof.
  cbv zeta. destruct (find_remove pid (pids c)) as [[p rest]|] eqn:F.
  - rewrite (subprocRemove_known _ _ _ _ F). split; [reflexivity|]. right.
    destruct (find_remove_some _ _ _ _ F) as [l1 [l2 [E [-> [Hp Hn]]]]].
    exists l1, p, l2. repeat split; auto.
    + cbn. auto.
    + unfold subprocCount, final. cbn. rewrite E, !length_app. cbn. lia.
  - assert (Habs : ~ In pid (pids_of c)).
    { intros I. destruct (find_remove_present _ _ I) as [p [l' E]].
      unfold pids_of in *. congruence. }
    rewrite (subprocRemove_unknown _ _ Habs). split; [reflexivity|]. now left.
Qed.

(** *** Insert, then remove *)

(** A record added by [subprocAdd] is the one [subprocRemove] finds for
    its pid: adding and then removing gives back the configuration and the
    roster exactly, whatever else the roster holds. *)
Theorem subprocAdd_then_subprocRemove
    (os : os_t) (pid sock : Z) (c : nsjconf_t) (p0 : pids_t) :
  os_malloc os = Some p0 ->
  let added := final (subprocAdd os pid sock c) in
  result_of ((subprocAdd os pid sock ;; subprocRemove pid) c) = Ret tt
  /\ final ((subprocAdd os pid sock ;; subprocRemove pid) c) = c
  /\ subprocCount added = subprocCount c + 1
  /\ (exists p, pids added = p :: pids c /\ Common.pid p = pid
                /\ start p = os_time os).
Proof.
  intros Hm. cbv zeta.
  destruct (netConnToText_run os sock true sizeof_remote_txt true c)
    as [r [ev [Ht _]]].
  pose proof (subprocAdd_inserts os pid sock c p0 r ev Hm Ht) as Ha.
  cbv zeta in Ha.
  rewrite (bind_ret_run _ _ _ _ _ _ Ha), Ha.
  assert (F : find_remove pid (pids (set_pids (record_of os pid p0 r :: pids c) c))
              = Some (record_of os pid p0 r, pids c)).
  { cbn. now rewrite Z.eqb_refl. }
  rewrite (subprocRemove_known _ _ _ _ F).
  unfold result_of, final, events. cbn [fst snd].
  rewrite set_pids_twice, set_pids_same. repeat split.
  - unfold subprocCount. cbn [pids set_pids List.length]. lia.
  - eexists. repeat split.
Qed.

Lemma subprocAdd_then_subprocRemove_witness :
  os_malloc (sample_os standalone_fds 1234 (fun _ => 0) (Some child_of_ip_1) [])
  = Some child_of_ip_1
  /\ final ((subprocAdd
               (sample_os standalone_fds 1234 (fun _ => 0) (Some child_of_ip_1) [])
               1234 0 ;; subprocRemove 1234) conf_one_child)
     = conf_one_child.
Proof.
  split; [reflexivity|].
  apply (subprocAdd_then_subprocRemove
           (sample_os standalone_fds 1234 (fun _ => 0) (Some child_of_ip_1) [])
           1234 0 conf_one_child child_of_ip_1 eq_refl).
Defined.

(** *** One record per pid *)

Lemma without_pids_cons gone p l :
  without_pids gone (p :: l)
  = if existsb (Z.eqb (Common.pid p)) gone
    then without_pids gone l else p :: without_pids gone l.
Proof.
  unfold without_pids. cbn [filter].
  now destruct (existsb (Z.eqb (Common.pid p)) gone).
Qed.

Lemma without_pids_nil l : without_pids [] l = l.
Proof.
  induction l as [|p l IH]; [reflexivity|].
  rewrite without_pids_cons. cbn [existsb]. now rewrite IH.
Qed.

Lemma without_pids_absent pid l :
  ~ In pid (map Common.pid l) -> without_pids [pid] l = l.
Proof.
  induction l as [|p l IH]; [reflexivity|]. intros H.
  rewrite without_pids_cons. cbn [existsb].
  destruct (Z.eqb_spec (Common.pid p) pid) as [E|N]; cbn [orb].
  - exfalso. apply H. now left.
  - rewrite IH; [reflexivity|]. intros I. apply H. now right.
Qed.

Lemma without_pids_app gone a b :
  without_pids gone (a ++ b) = without_pids gone a ++ without_pids gone b.
Proof. unfold without_pids. apply filter_app. Qed.

Lemma without_pids_more g1 g2 l :
  without_pids g2 (without_pids g1 l) = without_pids (g1 ++ g2) l.
Proof.
  induction l as [|p l IH]; [reflexivity|].
  rewrite !without_pids_cons, existsb_app.
  destruct (existsb (Z.eqb (Common.pid p)) g1); cbn [orb]; [assumption|].
  rewrite without_pids_cons.
  destruct (existsb (Z.eqb (Common.pid p)) g2); now rewrite IH.
Qed.

Lemma in_pids_without gone l q :
  In q (map Common.pid (without_pids gone l)) <->
  In q (map Common.pid l) /\ ~ In q gone.
Proof.
  unfold without_pids. rewrite !in_map_iff. split.
  - intros [p [<- I]]. apply filter_In in I. destruct I as [I E].
    split; [eauto|]. intros G. apply negb_true_iff in E.
    assert (existsb (Z.eqb (Common.pid p)) gone = true); [|congruence].
    apply existsb_exists. exists (Common.pid p). split; [assumption|].
    apply Z.eqb_refl.
  - intros [[p [<- I]] G]. exists p. split; [reflexivity|].
    apply filter_In. split; [assumption|]. apply negb_true_iff.
    destruct (existsb (Z.eqb (Common.pid p)) gone) eqn:E; [|reflexivity].
    apply existsb_exists in E. destruct E as [x [Ix Ex]].
    apply Z.eqb_eq in Ex. subst x. contradiction.
Qed.

Lemma nodup_without gone l :
  NoDup (map Common.pid l) -> NoDup (map Common.pid (without_pids gone l)).
Proof.
  induction l as [|p l IH]; [auto|]. cbn [map].
  intros H. inversion H as [|? ? Hn Hl]; subst.
  rewrite without_pids_cons.
  destruct (existsb (Z.eqb (Common.pid p)) gone); cbn [map]; [auto|].
  constructor; [|auto]. intros I.
  apply (in_pids_without gone l) in I. now apply Hn.
Qed.

(** With one record per pid, removing the first record of a pid removes
    every record of it. *)
Lemma subprocRemove_nodup pid c :
  roster_nodup c ->
  exists ev,
    subprocRemove pid c
    = (Ret tt, set_pids (without_pids [pid] (pids c)) c, ev)
    /\ signals_of ev = [].
Proof.
  unfold roster_nodup, pids_of. intros N.
  destruct (find_remove pid (pids c)) as [[p rest]|] eqn:F.
  - rewrite (subprocRemove_known _ _ _ _ F).
    destruct (find_remove_some _ _ _ _ F) as [l1 [l2 [E [-> [Hp Hn]]]]].
    rewrite E in N |- *. rewrite map_app in N. cbn [map] in N.
    apply NoDup_remove_2 in N. rewrite Hp in N.
    assert (N2 : ~ In pid (map Common.pid l2)).
    { intros I. apply N. apply in_or_app. now right. }
    rewrite without_pids_app, without_pids_cons. cbn [existsb].
    rewrite Hp, Z.eqb_refl. cbn [orb].
    rewrite (without_pids_absent _ _ Hn), (without_pids_absent _ _ N2).
    eexists. split; reflexivity.
  - assert (Habs : ~ In pid (map Common.pid (pids c))).
    { intros I. destruct (find_remove_present _ _ I) as [p [l' E]]. congruence. }
    rewrite (subprocRemove_unknown _ _ Habs).
    rewrite (without_pids_absent _ _ Habs), set_pids_same.
    eexists. split; reflexivity.
Qed.

Lemma roster_nodup_without gone c :
  roster_nodup c -> roster_nodup (set_pids (without_pids gone (pids c)) c).
Proof. unfold roster_nodup, pids_of. cbn [pids set_pids]. apply nodup_without. Qed.

(** *** The reap loop *)

(** The body of the reap loop for one reported child, followed by
    whatever comes next. *)
Lemma reap_one_run {B} pid st (k : M B) c :
  roster_nodup c ->
  exists ev,
    (when (WIFEXITED st)
       (subprocRemove pid ;;
        c0 <- get ;;
        emit (Log INFO "PID: %d exited with status: %d, (PIDs left: %d)"
                [AInt pid; AInt (WEXITSTATUS st); AInt (subprocCount c0)])) ;;
     when (WIFSIGNALED st)
       (subprocRemove pid ;;
        c0 <- get ;;
        emit (Log INFO "PID: %d terminated with signal: %d, (PIDs left: %d)"
                [AInt pid; AInt (WTERMSIG st); AInt (subprocCount c0)])) ;;
     k) c
    = (let c1 := set_pids (without_pids (if has_ended st then [pid] else [])
                                        (pids c)) c in
       (result_of (k c1), final (k c1), ev ++ events (k c1)))
    /\ signals_of ev = [].
Proof.
  intros N. destruct (subprocRemove_nodup pid c N) as [e1 [R1 S1]].
  cbv zeta.
  destruct st as [code|sig|]; cbn [WIFEXITED WIFSIGNALED when has_ended orb].
  - rewrite (bind_ret_run (subprocRemove pid ;; _) _ c tt
               (set_pids (without_pids [pid] (pids c)) c)
               (e1 ++ [Log INFO "PID: %d exited with status: %d, (PIDs left: %d)"
                         [AInt pid; AInt (WEXITSTATUS (WExited code));
                          AInt (subprocCount
                                  (set_pids (without_pids [pid] (pids c)) c))]])).
    + rewrite (bind_ret_run (ret tt) _ _ tt _ [] eq_refl).
      unfold result_of, final, events. cbn [fst snd app].
      eexists. split; [reflexivity|].
      rewrite !signals_of_app, S1. reflexivity.
    + rewrite (bind_ret_run _ _ _ _ _ _ R1), bind_get_run. reflexivity.
  - rewrite (bind_ret_run (ret tt) _ c tt c [] eq_refl).
    rewrite (bind_ret_run (subprocRemove pid ;; _) _ c tt
               (set_pids (without_pids [pid] (pids c)) c)
               (e1 ++ [Log INFO "PID: %d terminated with signal: %d, (PIDs left: %d)"
                         [AInt pid; AInt (WTERMSIG (WSignaled sig));
                          AInt (subprocCount
                                  (set_pids (without_pids [pid] (pids c)) c))]])).
    + unfold result_of, final, events. cbn [fst snd app].
      eexists. split; [reflexivity|].
      rewrite !signals_of_app, S1. reflexivity.
    + rewrite (bind_ret_run _ _ _ _ _ _ R1), bind_get_run. reflexivity.
  - rewrite without_pids_nil, set_pids_same.
    rewrite !(bind_ret_run (ret tt) _ c tt c [] eq_refl).
    unfold result_of, final, events. cbn [fst snd app].
    exists []. split; reflexivity.
Qed.

(** The reap loop on a roster with one record per pid. *)
Lemma subprocReap_wait_run ws : forall c,
  roster_nodup c ->
  exists ev,
    subprocReap_wait ws c
    = (Ret tt, set_pids (without_pids (reaped_pids ws) (pids c)) c, ev)
    /\ signals_of ev = [].
Proof.
  induction ws as [|[pid st] ws IH]; intros c N;
    cbn [subprocReap_wait reaped_pids].
  - rewrite without_pids_nil, set_pids_same. eexists. split; reflexivity.
  - rewrite bind_emit_run. destruct (pid >? 0).
    + destruct (reap_one_run pid st (subprocReap_wait ws) c N) as [e1 [R1 S1]].
      cbv zeta in R1.
      set (gone := if has_ended st then [pid] else []) in *.
      destruct (IH _ (roster_nodup_without gone c N)) as [e2 [R2 S2]].
      cbn [pids set_pids] in R2. rewrite set_pids_twice, without_pids_more in R2.
      rewrite R1, R2.
      unfold result_of, final, events. cbn [fst snd].
      eexists. split; [reflexivity|].
      cbn [signals_of]. rewrite signals_of_app, S1, S2. reflexivity.
    + rewrite without_pids_nil, set_pids_same.
      unfold ret, result_of, final, events. cbn [fst snd].
      eexists. split; reflexivity.
Qed.

Lemma in_signals_of q sg ev :
  In (q, sg) (signals_of ev) -> In (Kill q sg) ev.
Proof.
  induction ev as [|e ev IH]; [intros []|].
  destruct e; cbn; intros J; try solve [right; auto].
  destruct J as [J|J]; [left; congruence|right; auto].
Qed.

Lemma without_pids_all gone l :
  (forall q, In q (map Common.pid l) -> In q gone) -> without_pids gone l = [].
Proof.
  induction l as [|p l IH]; [reflexivity|]. intros H.
  rewrite without_pids_cons.
  assert (E : existsb (Z.eqb (Common.pid p)) gone = true).
  { apply existsb_exists. exists (Common.pid p).
    split; [apply H; now left|apply Z.eqb_refl]. }
  rewrite E. apply IH. intros q I. apply H. now right.
Qed.

(** The whole of [subprocReap] on a roster with one record per pid. *)
Lemma subprocReap_run os c :
  roster_nodup c ->
  exists e1 e2,
    subprocReap os c
    = (Ret tt, set_pids (without_pids (reaped_pids (os_waitpid os)) (pids c)) c,
       e1 ++ e2)
    /\ signals_of e1 = []
    /\ Forall (fun e => forall q sg, e = Kill q sg ->
                 In q (map Common.pid
                         (without_pids (reaped_pids (os_waitpid os)) (pids c))))
              e2.
Proof.
  intros N. unfold subprocReap.
  destruct (subprocReap_wait_run (os_waitpid os) c N) as [e1 [R1 S1]].
  rewrite (bind_ret_run _ _ _ _ _ _ R1).
  set (c1 := set_pids _ c).
  destruct (subprocReap_tlimit_run os c1) as [e2 [R2 _]].
  pose proof (subprocReap_tlimit_targets os c1) as T. rewrite R2 in T |- *.
  exists e1, e2. split; [reflexivity|]. split; [assumption|exact T].
Qed.

(** [subprocReap] takes off the roster exactly the children [waitpid]
    reports as exited or killed by a signal, keeps the other records in their
    order and everything else in the configuration, and keeps the roster
    at one record per pid. *)
Theorem subprocReap_removes_ended_children (os : os_t) (c : nsjconf_t) :
  roster_nodup c ->
  let r := subprocReap os c in
  result_of r = Ret tt
  /\ final r = set_pids (without_pids (reaped_pids (os_waitpid os)) (pids c)) c
  /\ (forall q, In q (pids_of (final r)) <->
                In q (pids_of c) /\ ~ In q (reaped_pids (os_waitpid os)))
  /\ roster_nodup (final r)
  /\ subprocCount (final r) <= subprocCount c.
Proof.
  intros N. cbv zeta.
  destruct (subprocReap_run os c N) as [e1 [e2 [R _]]]. rewrite R.
  unfold result_of, final. cbn [fst snd].
  split; [reflexivity|]. split; [reflexivity|]. split; [|split].
  - intros q. unfold pids_of. cbn [pids set_pids]. apply in_pids_without.
  - now apply roster_nodup_without.
  - unfold subprocCount. cbn [pids set_pids]. unfold without_pids.
    pose proof (filter_length_le
                  (fun p => negb (existsb (Z.eqb (Common.pid p))
                                          (reaped_pids (os_waitpid os))))
                  (pids c)).
    lia.
Qed.

Lemma subprocReap_removes_ended_children_witness :
  roster_nodup conf_two_children
  /\ final (subprocReap os_reports_100 conf_two_children)
     = set_pids [child_200] conf_two_children.
Proof.
  assert (N : roster_nodup conf_two_children).
  { unfold roster_nodup, pids_of. cbn.
    repeat constructor; cbn; intuition discriminate. }
  split; [exact N|].
  exact (proj1 (proj2 (subprocReap_removes_ended_children
                         os_reports_100 conf_two_children N))).
Defined.

(** On a roster with one record per pid: within one call of
    [subprocReap], a child that was just reaped is never sent a signal by the
    time-limit loop, even if its time was up: signals go only to pids still
    on the roster. *)
Theorem subprocReap_never_signals_reaped_child (os : os_t) (c : nsjconf_t) :
  roster_nodup c ->
  forall q sg,
    In (q, sg) (signals_of (events (subprocReap os c))) ->
    In q (pids_of c)
    /\ ~ In q (reaped_pids (os_waitpid os))
    /\ In q (pids_of (final (subprocReap os c))).
Proof.
  intros N q sg I.
  destruct (subprocReap_run os c N) as [e1 [e2 [R [S1 T]]]].
  rewrite R in I |- *. unfold events, final in *. cbn [fst snd] in *.
  rewrite signals_of_app, S1 in I. cbn [app] in I.
  apply in_signals_of in I. rewrite Forall_forall in T.
  specialize (T _ I q sg eq_refl).
  unfold pids_of. cbn [pids set_pids].
  pose proof (proj1 (in_pids_without _ _ _) T) as [H1 H2]. auto.
Qed.

Lemma subprocReap_never_signals_reaped_child_witness :
  roster_nodup conf_two_children
  /\ signals_of (events (subprocReap os_reports_100 conf_two_children))
     = [(200, 18); (200, 9)]
  /\ ~ In 200 (reaped_pids (os_waitpid os_reports_100)).
Proof.
  assert (N : roster_nodup conf_two_children).
  { unfold roster_nodup, pids_of. cbn.
    repeat constructor; cbn; intuition discriminate. }
  split; [exact N|]. split; [reflexivity|].
  apply (subprocReap_never_signals_reaped_child
           os_reports_100 conf_two_children N 200 18).
  cbn. now left.
Defined.

(** *** Killing all *)

Lemma subprocKillAll_loop_run l c :
  subprocKillAll_loop l c
  = (Ret tt, c, map (fun p => Kill (Common.pid p) SIGKILL) l).
Proof.
  induction l as [|p l IH]; [reflexivity|].
  cbn [subprocKillAll_loop map]. rewrite bind_emit_run, IH. reflexivity.
Qed.

Lemma signals_of_kills l :
  signals_of (map (fun p => Kill (Common.pid p) SIGKILL) l)
  = map (fun p => (Common.pid p, SIGKILL)) l.
Proof. induction l as [|p l IH]; cbn; [reflexivity|now rewrite IH]. Qed.

(** On a roster with one record per pid: [subprocKillAll] sends SIGKILL
    once to the pid of every record, in roster order, and leaves the roster
    alone; when the reap that follows is told of the end of every child on
    the roster, the roster is empty afterwards and no further signal is
    sent. *)
Theorem subprocKillAll_then_reap_empties_roster (os : os_t) (c : nsjconf_t) :
  roster_nodup c ->
  (forall q, In q (pids_of c) -> In q (reaped_pids (os_waitpid os))) ->
  let r := (subprocKillAll ;; subprocReap os) c in
  events (subprocKillAll c) = map (fun p => Kill (Common.pid p) SIGKILL) (pids c)
  /\ final (subprocKillAll c) = c
  /\ result_of r = Ret tt
  /\ pids (final r) = []
  /\ signals_of (events r) = map (fun p => (Common.pid p, SIGKILL)) (pids c).
Proof.
  intros N H. cbv zeta.
  assert (K : subprocKillAll c
              = (Ret tt, c, map (fun p => Kill (Common.pid p) SIGKILL) (pids c))).
  { unfold subprocKillAll. rewrite bind_get_run. apply subprocKillAll_loop_run. }
  rewrite (bind_ret_run _ _ _ _ _ _ K), K.
  destruct (subprocReap_run os c N) as [e1 [e2 [R [S1 T]]]]. rewrite R.
  unfold result_of, final, events. cbn [fst snd pids set_pids].
  rewrite (without_pids_all _ _ H) in *.
  repeat split.
  rewrite !signals_of_app, signals_of_kills, S1. cbn [app].
  assert (S2 : signals_of e2 = []).
  { destruct (signals_of e2) as [|[q sg] s] eqn:E; [reflexivity|].
    assert (I : In (q, sg) (signals_of e2)) by (rewrite E; now left).
    apply in_signals_of in I. rewrite Forall_forall in T.
    destruct (T _ I q sg eq_refl). }
  rewrite S2. apply app_nil_r.
Qed.

Lemma subprocKillAll_then_reap_empties_roster_witness :
  roster_nodup conf_two_children
  /\ (forall q, In q (pids_of conf_two_children) ->
                In q (reaped_pids (os_waitpid os_reports_both)))
  /\ pids (final ((subprocKillAll ;; subprocReap os_reports_both)
                    conf_two_children)) = [].
Proof.
  assert (N : roster_nodup conf_two_children).
  { unfold roster_nodup, pids_of. cbn.
    repeat constructor; cbn; intuition discriminate. }
  assert (H : forall q, In q (pids_of conf_two_children) ->
                        In q (reaped_pids (os_waitpid os_reports_both))).
  { cbn. intuition. }
  split; [exact N|]. split; [exact H|].
  exact (proj1 (proj2 (proj2 (proj2
           (subprocKillAll_then_reap_empties_roster
              os_reports_both conf_two_children N H))))).
Defined.

End RosterMore.


(** ** net.c: more on the connection text, the limiter and the attacher *)

Module NetMore.

Import Libc Common Linux Proc Net Subproc Spec Parts Notions.
Import ProcFacts NetFacts RosterFacts.
Local Open Scope proc_scope.

Lemma substring_length_le s : forall n m,
  (String.length (String.substring n m s) <= m)%nat.
Proof.
  induction s as [|c s IH]; intros n m.
  - destruct n, m; cbn; lia.
  - destruct n as [|n]; [destruct m as [|m]|]; cbn; try lia.
    + specialize (IH 0%nat m). lia.
    + apply IH.
Qed.

Lemma snprintf_length s txt : (String.length (snprintf s txt) <= s - 1)%nat.
Proof. apply substring_length_le. Qed.

(** [netConnToText] always returns and leaves [nsjconf] alone.  The text
    fits the buffer.  The caller's address is written exactly when a
    pointer was passed, the descriptor is a socket and the name lookup
    succeeded: otherwise the memory behind [addr_or_null] keeps what it
    held.  Without a socket the text is the standalone sentinel and nothing
    is logged; when the lookup fails it is "[unknown]" and a warning is
    logged. *)
Theorem netConnToText_stores_address_only_for_named_sockets
    (os : os_t) (fd : Z) (remote : bool) (s : nat) (want : bool)
    (c : nsjconf_t) :
  exists txt stored,
    result_of (netConnToText os fd remote s want c) = Ret (txt, stored)
    /\ final (netConnToText os fd remote s want c) = c
    /\ (String.length txt <= s - 1)%nat
    /\ stored = (if want then name_of os fd remote else None)
    /\ (os_fd os fd = FdOther ->
        txt = snprintf s "[STANDALONE_MODE]"
        /\ events (netConnToText os fd remote s want c) = [])
    /\ (os_fd os fd <> FdOther -> name_of os fd remote = None ->
        txt = snprintf s "[unknown]"
        /\ events (netConnToText os fd remote s want c)
           = [PLog WARNING (if remote then "getpeername(%d)"
                            else "getsockname(%d)") [AInt fd]]).
Proof.
  unfold netConnToText, netIsSocket, name_of.
  destruct (os_fd os fd) as [|peer local] eqn:F; cbn [negb].
  - eexists _, _.
    split; [reflexivity|]. split; [reflexivity|].
    split; [apply snprintf_length|]. split; [now destruct want|].
    split; [intros _; split; reflexivity|]. intros N. now destruct N.
  - destruct (if remote then peer else local) as [addr|] eqn:Nm.
    + destruct (os_inet_ntop os (sin6_addr addr) s);
        eexists _, _;
        (split; [reflexivity|]); (split; [reflexivity|]);
        (split; [apply snprintf_length|]); (split; [reflexivity|]);
        (split; [discriminate|]); intros _; discriminate.
    + eexists _, _.
      split; [reflexivity|]. split; [reflexivity|].
      split; [apply snprintf_length|]. split; [now destruct want|].
      split; [discriminate|]. intros _ _. split; reflexivity.
Qed.

(** On a socket whose peer is known the address handed back is the
    peer's. *)
Lemma netConnToText_peer os fd s want c peer local :
  os_fd os fd = FdSocket (Some peer) local ->
  exists txt ev,
    netConnToText os fd true s want c
    = (Ret (txt, if want then Some peer else None), c, ev)
    /\ Forall is_log ev.
Proof.
  intros F. unfold netConnToText, netIsSocket. rewrite F. cbn [negb].
  destruct (os_inet_ntop os (sin6_addr peer) s);
    eexists _, _; (split; [reflexivity|]); repeat constructor.
Qed.

(** The verdict of the rate limiter on a socket whose peer is known. *)
Lemma netLimitConns_verdict
    (os : os_t) (fd : Z) (c : nsjconf_t) (peer : sockaddr_in6)
    (local : option sockaddr_in6) :
  os_fd os fd = FdSocket (Some peer) local ->
  (1 <= List.length (sin6_addr peer))%nat ->
  addresses_present (pids c) ->
  Z.of_nat (List.length (pids c)) < 2 ^ 32 ->
  let r := netLimitConns os fd c in
  result_of r
  = Ret ((max_conns_per_ip c =? 0)
         || (first_byte_count peer (pids c) <? max_conns_per_ip c))
  /\ final r = c
  /\ Forall is_log (events r)
  /\ (result_of r = Ret false ->
      exists txt,
        In (Log WARNING
              "Rejecting connection from '%s', max_conns_per_ip limit reached: %u"
              [AStr txt; AInt (max_conns_per_ip c)]) (events r)).
Proof.
  intros F Hp Hr Hlen. cbv zeta.
  unfold netLimitConns. rewrite bind_get_run.
  destruct (max_conns_per_ip c =? 0) eqn:Z0.
  { unfold ret, result_of, final, events. cbn [fst snd orb].
    split; [reflexivity|]. split; [reflexivity|].
    split; [constructor|discriminate]. }
  destruct (netConnToText_peer os fd 64 true c peer local F) as [txt [ev [R L]]].
  rewrite (bind_ret_run _ _ _ _ _ _ R). cbn [fst snd orb].
  rewrite (netLimitConns_count_first_byte peer (pids c) 0 Hp Hr) by lia.
  rewrite Z.add_0_l. fold (first_byte_count peer (pids c)).
  rewrite Z.geb_leb, Z.ltb_antisym.
  destruct (max_conns_per_ip c <=? first_byte_count peer (pids c));
    cbn [negb]; [rewrite bind_emit_run|];
    unfold ret, result_of, final, events; cbn [fst snd].
  - split; [reflexivity|]. split; [reflexivity|]. split.
    + apply Forall_app. split; [assumption|repeat constructor].
    + intros _. exists txt. apply in_or_app. right. now left.
  - split; [reflexivity|]. split; [reflexivity|]. split.
    + now rewrite app_nil_r.
    + discriminate.
Qed.

(** The verdict of the rate limiter for a connection whose peer address
    is known: the connection is admitted when the cap is 0, and otherwise
    exactly when fewer records than the cap have the FIRST byte of their
    address equal to the first byte of the peer's address.  The roster and
    the configuration are never changed; a rejection is logged with a
    warning. *)
Theorem netLimitConns_counts_first_byte_matches
    (os : os_t) (fd : Z) (c : nsjconf_t) (peer : sockaddr_in6)
    (local : option sockaddr_in6) :
  os_fd os fd = FdSocket (Some peer) local ->
  (1 <= List.length (sin6_addr peer))%nat ->
  addresses_present (pids c) ->
  Z.of_nat (List.length (pids c)) < 2 ^ 32 ->
  let r := netLimitConns os fd c in
  result_of r
  = Ret ((max_conns_per_ip c =? 0)
         || (first_byte_count peer (pids c) <? max_conns_per_ip c))
  /\ final r = c
  /\ Forall is_log (events r)
  /\ (result_of r = Ret false ->
      exists txt,
        In (Log WARNING
              "Rejecting connection from '%s', max_conns_per_ip limit reached: %u"
              [AStr txt; AInt (max_conns_per_ip c)]) (events r)).
Proof.
  exact (netLimitConns_verdict os fd c peer local).
Qed.

Lemma netLimitConns_counts_first_byte_matches_witness :
  os_fd os_clone_fails 5
  = FdSocket (Some (sockaddr_of ip_2 16540)) (Some (sockaddr_of zero16 27002))
  /\ (1 <= List.length (sin6_addr (sockaddr_of ip_2 16540)))%nat
  /\ addresses_present (pids conf_one_child)
  /\ Z.of_nat (List.length (pids conf_one_child)) < 2 ^ 32
  /\ result_of (netLimitConns os_clone_fails 5 conf_one_child) = Ret true.
Proof.
  assert (H2 : (1 <= List.length (sin6_addr (sockaddr_of ip_2 16540)))%nat)
    by (cbn; lia).
  assert (H3 : addresses_present (pids conf_one_child))
    by (repeat constructor; cbn; lia).
  assert (H4 : Z.of_nat (List.length (pids conf_one_child)) < 2 ^ 32)
    by (cbn; lia).
  split; [reflexivity|]. split; [exact H2|]. split; [exact H3|].
  split; [exact H4|].
  exact (proj1 (netLimitConns_counts_first_byte_matches
                  os_clone_fails 5 conf_one_child _ _ eq_refl H2 H3 H4)).
Defined.

Lemma attach_calls_app a b : attach_calls (a ++ b) = attach_calls a ++ attach_calls b.
Proof.
  induction a as [|e a IH]; [reflexivity|].
  destruct e; cbn; now rewrite ?IH.
Qed.

(** The net attacher attaches the macvtap interface first and the macvlan
    interface second, each only if it is configured.  It answers true
    exactly when every attach it tried succeeded; after a failed macvtap
    attach the macvlan attach is not tried.  With no interface configured
    it answers true without calling the attacher.  The configuration is
    never changed. *)
Theorem netCloneNetIfaces_stops_at_first_failure
    (os : os_t) (pid : Z) (c : nsjconf_t) :
  let r := netCloneNetIfaces os pid c in
  let tap := match iface_macvtap c with
             | Some i => os_macv os "macvtap" "vt0" i pid
             | None => true
             end in
  let lan := match iface_macvlan c with
             | Some i => os_macv os "macvlan" "vl0" i pid
             | None => true
             end in
  result_of r = Ret (tap && lan)
  /\ final r = c
  /\ attach_calls (events r)
     = match iface_macvtap c with
       | Some i => [("macvtap"%string, "vt0"%string, i, tap)]
       | None => []
       end ++
       (if tap
        then match iface_macvlan c with
             | Some i => [("macvlan"%string, "vl0"%string, i, lan)]
             | None => []
             end
        else []).
Proof.
  cbv zeta.
  unfold netCloneNetIfaces, netCloneMacV, bind, get, emit, ret,
    result_of, final, events. cbn.
  destruct (iface_macvtap c) as [i1|]; cbn;
    [destruct (os_macv os "macvtap" "vt0" i1 pid); cbn|];
    (destruct (iface_macvlan c) as [i2|]; cbn;
     [destruct (os_macv os "macvlan" "vl0" i2 pid); cbn|]);
    repeat split.
Qed.

End NetMore.


(** ** subproc.c: more on spawning *)

Module SpawnMore.

Import Libc Common Linux Proc Net Subproc Spec Parts Notions Later.
Import ProcFacts NetFacts BuilderFacts RosterFacts SpawnFacts RosterMore NetMore.
Local Open Scope proc_scope.

(** *** The read loop *)

Lemma drain_log_pipe_chunks os fd n : forall fuel k c,
  (forall i, (i < n)%nat -> os_read os (k + i) > 0) ->
  os_read os (k + n) <= 0 ->
  (n < fuel)%nat ->
  drain_log_pipe os fuel k fd c
  = (Ret tt, c, forwarded os fd k n ++ [Read fd (os_read os (k + n))]).
Proof.
  induction n as [|n IH]; intros fuel k c Hpos Hend Hf;
    (destruct fuel as [|fuel]; [inversion Hf|]); cbn [drain_log_pipe];
    rewrite bind_emit_run.
  - rewrite Nat.add_0_r in *.
    replace (os_read os k >? 0) with false
      by (symmetry; rewrite Z.gtb_ltb; apply Z.ltb_ge; lia).
    reflexivity.
  - pose proof (Hpos 0%nat ltac:(lia)) as H0. rewrite Nat.add_0_r in H0.
    replace (os_read os k >? 0) with true
      by (symmetry; apply Z.gtb_lt; lia).
    rewrite bind_emit_run.
    rewrite (IH fuel (S k) c); [| |now rewrite Nat.add_succ_comm|lia].
    + unfold result_of, final, events, forwarded. cbn [fst snd seq flat_map app].
      now rewrite Nat.add_succ_comm.
    + intros i Hi. rewrite Nat.add_succ_comm. apply Hpos. lia.
Qed.

(** The read loop forwards every chunk, in the order read, and stops at
    the first [read] that returns 0 or less, which is its last event. *)
Theorem drain_log_pipe_forwards_every_chunk
    (os : os_t) (fd : Z) (n fuel k : nat) (c : nsjconf_t) :
  (forall i, (i < n)%nat -> os_read os (k + i) > 0) ->
  os_read os (k + n) <= 0 ->
  (n < fuel)%nat ->
  let r := drain_log_pipe os fuel k fd c in
  result_of r = Ret tt
  /\ final r = c
  /\ events r = forwarded os fd k n ++ [Read fd (os_read os (k + n))]
  /\ List.length (reads_of (events r)) = S n.
Proof.
  intros Hpos Hend Hf. cbv zeta.
  rewrite (drain_log_pipe_chunks os fd n fuel k c Hpos Hend Hf).
  unfold result_of, final, events. cbn [fst snd]. repeat split.
  unfold forwarded. generalize (os_read os (k + n)) as z. clear.
  generalize k. induction n as [|n IH]; intros j z.
  - reflexivity.
  - cbn [seq flat_map app reads_of List.length]. now rewrite IH.
Qed.

Lemma drain_log_pipe_forwards_every_chunk_witness :
  (forall i, (i < 2)%nat -> os_read os_spawn_ok (0 + i) > 0)
  /\ os_read os_spawn_ok (0 + 2) <= 0
  /\ (2 < 3)%nat
  /\ events (drain_log_pipe os_spawn_ok 3 0 7 conf_one_child)
     = [Read 7 10; LogDirectlyToFD 10; Read 7 20; LogDirectlyToFD 20; Read 7 0].
Proof.
  assert (H1 : forall i, (i < 2)%nat -> os_read os_spawn_ok (0 + i) > 0).
  { intros [|[|i]] Hi; cbn; lia. }
  assert (H2 : os_read os_spawn_ok (0 + 2) <= 0) by (cbn; lia).
  assert (H3 : (2 < 3)%nat) by lia.
  split; [exact H1|]. split; [exact H2|]. split; [exact H3|].
  exact (proj1 (proj2 (proj2 (drain_log_pipe_forwards_every_chunk
                                os_spawn_ok 7 2 3 0 conf_one_child H1 H2 H3)))).
Defined.

(** *** The record a spawn leaves *)

Lemma netConnToText_shape os fd remote s want c :
  exists txt ev,
    netConnToText os fd remote s want c
    = (Ret (txt, if want then name_of os fd remote else None), c, ev)
    /\ Forall is_log ev.
Proof.
  unfold netConnToText, netIsSocket, name_of.
  destruct (os_fd os fd) as [|peer local]; cbn [negb].
  - eexists _, _. split; [now destruct want|constructor].
  - destruct (if remote then peer else local) as [addr|].
    + destruct (os_inet_ntop os (sin6_addr addr) s);
        eexists _, _; (split; [reflexivity|]); repeat constructor.
    + eexists _, _. split; [now destruct want|repeat constructor].
Qed.

Lemma subprocAdd_record os pid sock c p0 :
  os_malloc os = Some p0 ->
  exists txt ev,
    subprocAdd os pid sock c
    = (Ret tt, set_pids (spawned_record os pid sock p0 txt :: pids c) c, ev).
Proof.
  intros Hm.
  destruct (netConnToText_shape os sock true sizeof_remote_txt true c)
    as [txt [ev [Ht _]]].
  pose proof (subprocAdd_inserts os pid sock c p0 _ ev Hm Ht) as Ha.
  cbv zeta in Ha. unfold record_of in Ha. cbn [fst snd] in Ha.
  exists txt. rewrite Ha. unfold spawned_record.
  destruct (name_of os sock true); eexists; reflexivity.
Qed.

(** The parent's part once the read loop has returned. *)
Lemma spawn_parent_after_drain os fuel pid pipefd0 fd_in c e3 p0 :
  drain_log_pipe os fuel 0 pipefd0 c = (Ret tt, c, e3) ->
  os_malloc os = Some p0 ->
  exists txt ev,
    spawn_parent os fuel pid pipefd0 fd_in c
    = (Ret tt, set_pids (spawned_record os pid fd_in p0 txt :: pids c) c, ev).
Proof.
  intros R3 Hm. unfold spawn_parent.
  destruct (netCloneNetIfaces_run os pid c) as [b [e1 [R1 _]]].
  rewrite (bind_ret_run _ _ _ _ _ _ R1).
  set (warn := when (negb b) _).
  assert (Hw : exists e2, warn c = (Ret tt, c, e2)).
  { subst warn. destruct b; cbn; eexists; reflexivity. }
  destruct Hw as [e2 R2].
  rewrite (bind_ret_run _ _ _ _ _ _ R2).
  rewrite (bind_ret_run _ _ _ _ _ _ R3), bind_emit_run.
  destruct (subprocAdd_record os pid fd_in c p0 Hm) as [txt [e4 R4]].
  rewrite (bind_ret_run _ _ _ _ _ _ R4).
  set (c' := set_pids _ c).
  destruct (netConnToText_run os fd_in true 64 false c') as [r [e5 [R5 _]]].
  rewrite (bind_ret_run _ _ _ _ _ _ R5), bind_get_run.
  unfold emit, result_of, final, events. cbn [fst snd].
  exists txt. eexists. reflexivity.
Qed.

(** A spawn that goes through puts exactly one record on the roster, at
    its head: the record of the pid [clone] returned, stamped with the
    current time and carrying the peer address of the connection (or, when
    there is none, whatever the allocated block held).  Everything else in
    the configuration is as before, and a roster with one record per pid
    stays so when the pid is new. *)
Theorem subprocRunChild_adds_one_record
    (os : os_t) (fuel : nat) (fd_in fd_out fd_err : Z) (c : nsjconf_t)
    (r0 w0 : Z) (p0 : pids_t) (k : nat) :
  result_of (netLimitConns os fd_in c) = Ret true ->
  os_pipe2 os = Some (r0, w0) ->
  0 < os_clone os ->
  os_malloc os = Some p0 ->
  os_read os k <= 0 -> (k < fuel)%nat ->
  let r := subprocRunChild os fuel fd_in fd_out fd_err c in
  result_of r = Ret tt
  /\ (exists txt,
        final r
        = set_pids (spawned_record os (os_clone os) fd_in p0 txt :: pids c) c)
  /\ subprocCount (final r) = subprocCount c + 1
  /\ (roster_nodup c -> ~ In (os_clone os) (pids_of c) ->
      roster_nodup (final r)).
Proof.
  intros Ha P Hpid Hm Hr Hf. cbv zeta.
  destruct (netLimitConns_run os fd_in c) as [b [ev0 [R0 _]]].
  rewrite R0 in Ha. unfold result_of in Ha. cbn [fst] in Ha.
  inversion Ha; subst b.
  rewrite (subprocRunChild_in_parent _ _ _ _ _ _ _ _ _ R0 P) by lia.
  destruct (drain_log_pipe_returns os r0 k fuel 0%nat c Hr Hf) as [e3 [R3 _]].
  destruct (spawn_parent_after_drain os fuel (os_clone os) r0 fd_in c e3 p0 R3 Hm)
    as [txt [ev R]].
  rewrite R. unfold result_of, final. cbn [fst snd].
  split; [reflexivity|]. split; [now exists txt|]. split.
  - unfold subprocCount. cbn [pids set_pids List.length]. lia.
  - unfold roster_nodup, pids_of. cbn [pids set_pids map spawned_record Common.pid].
    intros N F. now constructor.
Qed.

Lemma subprocRunChild_adds_one_record_witness :
  result_of (netLimitConns os_spawn_ok 5 conf_one_child) = Ret true
  /\ os_pipe2 os_spawn_ok = Some (7, 8)
  /\ 0 < os_clone os_spawn_ok
  /\ os_malloc os_spawn_ok = Some child_200
  /\ os_read os_spawn_ok 2 <= 0
  /\ (2 < 3)%nat
  /\ subprocCount (final (subprocRunChild os_spawn_ok 3 5 5 5 conf_one_child))
     = subprocCount conf_one_child + 1.
Proof.
  assert (H3 : 0 < os_clone os_spawn_ok) by reflexivity.
  assert (H5 : os_read os_spawn_ok 2 <= 0) by (cbn; lia).
  assert (H6 : (2 < 3)%nat) by lia.
  split; [reflexivity|]. split; [reflexivity|]. split; [exact H3|].
  split; [reflexivity|]. split; [exact H5|]. split; [exact H6|].
  exact (proj1 (proj2 (proj2 (subprocRunChild_adds_one_record
           os_spawn_ok 3 5 5 5 conf_one_child 7 8 child_200 2
           eq_refl eq_refl H3 eq_refl H5 H6)))).
Defined.

(** *** The cap on connections per address *)

Lemma same_first_byte_count a b l :
  same_first_byte a b = true -> first_byte_count a l = first_byte_count b l.
Proof.
  intros E. unfold same_first_byte in E. apply byte_list_eqb_eq in E.
  unfold first_byte_count. do 2 f_equal. apply filter_ext.
  intros p. unfold same_first_byte. now rewrite E.
Qed.

Lemma first_byte_count_cons a p l :
  first_byte_count a (p :: l)
  = (if same_first_byte a (remote_addr p) then 1 else 0) + first_byte_count a l.
Proof.
  unfold first_byte_count. cbn [filter].
  destruct (same_first_byte a (remote_addr p)); cbn [List.length]; lia.
Qed.

(** When the system gives the same answers throughout,
    [subprocRunChild_later] is [subprocRunChild]. *)
Lemma subprocRunChild_later_same os fuel fd_in fd_out fd_err :
  subprocRunChild_later os os os fuel fd_in fd_out fd_err
  = subprocRunChild os fuel fd_in fd_out fd_err.
Proof. reflexivity. Qed.

(** How the parent's part can leave the configuration. *)
Lemma spawn_parent_later_cases os os_add os_log fuel pid pipefd0 fd_in c :
  final (spawn_parent_later os os_add os_log fuel pid pipefd0 fd_in c) = c
  \/ exists p0 txt,
       os_malloc os_add = Some p0
       /\ final (spawn_parent_later os os_add os_log fuel pid pipefd0 fd_in c)
          = set_pids (spawned_record os_add pid fd_in p0 txt :: pids c) c.
Proof.
  unfold spawn_parent_later.
  destruct (netCloneNetIfaces_run os pid c) as [b [e1 [R1 _]]].
  rewrite (bind_ret_run _ _ _ _ _ _ R1).
  set (warn := when (negb b) _).
  assert (Hw : exists e2, warn c = (Ret tt, c, e2)).
  { subst warn. destruct b; cbn; eexists; reflexivity. }
  destruct Hw as [e2 R2].
  rewrite (bind_ret_run _ _ _ _ _ _ R2).
  destruct (drain_log_pipe_run os pipefd0 fuel 0%nat c) as [o3 [e3 [R3 [_ T3]]]].
  destruct T3 as [->|[-> _]].
  { left. rewrite (bind_out_of_fuel_run _ _ _ _ _ R3). reflexivity. }
  rewrite (bind_ret_run _ _ _ _ _ _ R3), bind_emit_run.
  destruct (os_malloc os_add) as [p0|] eqn:Hm.
  - destruct (subprocAdd_record os_add pid fd_in c p0 Hm) as [txt [e4 R4]].
    rewrite (bind_ret_run _ _ _ _ _ _ R4).
    set (c' := set_pids _ c).
    destruct (netConnToText_run os_log fd_in true 64 false c') as [r [e5 [R5 _]]].
    rewrite (bind_ret_run _ _ _ _ _ _ R5), bind_get_run.
    right. exists p0, txt. split; reflexivity.
  - rewrite (bind_ret_run _ _ _ _ _ _ (subprocAdd_no_memory os_add pid fd_in c Hm)).
    destruct (netConnToText_run os_log fd_in true 64 false c) as [r [e5 [R5 _]]].
    rewrite (bind_ret_run _ _ _ _ _ _ R5), bind_get_run.
    left. reflexivity.
Qed.

(** How a run of [subprocRunChild_later] can leave the configuration. *)
Lemma subprocRunChild_later_final_cases
    os os_add os_log fuel fd_in fd_out fd_err c :
  final (subprocRunChild_later os os_add os_log fuel fd_in fd_out fd_err c) = c
  \/ (result_of (netLimitConns os fd_in c) = Ret true
      /\ exists p0 txt,
           os_malloc os_add = Some p0
           /\ final (subprocRunChild_later os os_add os_log fuel
                       fd_in fd_out fd_err c)
              = set_pids (spawned_record os_add (os_clone os) fd_in p0 txt
                            :: pids c) c).
Proof.
  destruct (netLimitConns_run os fd_in c) as [b [ev0 [R0 _]]].
  unfold subprocRunChild_later.
  rewrite (bind_ret_run _ _ _ _ _ _ R0).
  destruct b; cbn [negb]; [|left; reflexivity].
  rewrite bind_get_run. cbv zeta. rewrite !bind_emit_run.
  destruct (os_pipe2 os) as [[r0 w0]|]; [|left; reflexivity].
  rewrite bind_emit_run.
  destruct (os_clone os =? 0) eqn:K0; cbn [when].
  - left.
    destruct (subprocNewProc_run os fd_in fd_out fd_err w0 c)
      as [_ [_ [Ro Rc]]].
    unfold result_of, final, events in *.
    destruct (subprocNewProc os fd_in fd_out fd_err w0 c) as [[o c'] ev] eqn:Run.
    cbn [fst snd] in *. subst o c'.
    destruct (all_ok (os_contain os) && os_execve os).
    + rewrite (bind_execed_run _ _ _ _ _
                 (bind_execed_run _ (fun _ => ret tt) _ _ _ Run)).
      reflexivity.
    + rewrite (bind_exited_run _ _ _ _ _ _
                 (bind_exited_run _ (fun _ => ret tt) _ _ _ _ Run)).
      reflexivity.
  - rewrite (bind_ret_run (ret tt) _ c tt c [] eq_refl).
    destruct (os_clone os =? -1); [left; reflexivity|].
    fold (spawn_parent_later os os_add os_log fuel (os_clone os) r0 fd_in).
    unfold final at 1 3. cbn [fst snd].
    destruct (spawn_parent_later_cases os os_add os_log fuel (os_clone os) r0 fd_in c)
      as [H|[p0 [txt [Hm Hf]]]].
    + now left.
    + right. split; [now rewrite R0|]. exists p0, txt. auto.
Qed.

(** Spawning for connections whose peer is known keeps the cap, as the
    limiter counts, provided the peer is still known when the record is
    written.  [subprocRunChild] asks for the peer of [fd_in] in
    [netLimitConns] and again in [subprocAdd], after the read loop on the log
    pipe; the system may answer differently the second time.  If both
    answers are the same peer address, then: if no first address byte is
    shared by more records than [max_conns_per_ip] before the call, none is
    afterwards, however the call ends and whatever the system answers for
    the last log line. *)
Theorem subprocRunChild_keeps_within_cap
    (os os_add os_log : os_t) (fuel : nat) (fd_in fd_out fd_err : Z)
    (c : nsjconf_t) (peer : sockaddr_in6)
    (local local_add : option sockaddr_in6) :
  0 < max_conns_per_ip c ->
  os_fd os fd_in = FdSocket (Some peer) local ->
  os_fd os_add fd_in = FdSocket (Some peer) local_add ->
  (1 <= List.length (sin6_addr peer))%nat ->
  addresses_present (pids c) ->
  Z.of_nat (List.length (pids c)) < 2 ^ 32 ->
  within_cap c ->
  let r := subprocRunChild_later os os_add os_log fuel fd_in fd_out fd_err c in
  within_cap (final r)
  /\ addresses_present (pids (final r))
  /\ max_conns_per_ip (final r) = max_conns_per_ip c.
Proof.
  intros Hcap F Fadd Hp Hr Hlen W. cbv zeta.
  destruct (subprocRunChild_later_final_cases
              os os_add os_log fuel fd_in fd_out fd_err c)
    as [->|[Ha [p0 [txt [_ ->]]]]]; [auto|].
  destruct (netLimitConns_verdict os fd_in c peer local F Hp Hr Hlen)
    as [V _]. cbv zeta in V. rewrite V in Ha. inversion Ha as [Hv].
  replace (max_conns_per_ip c =? 0) with false in Hv
    by (symmetry; apply Z.eqb_neq; lia).
  cbn [orb] in Hv. apply Z.ltb_lt in Hv.
  assert (Ra : remote_addr (spawned_record os_add (os_clone os) fd_in p0 txt)
               = peer).
  { unfold spawned_record, name_of. cbn [remote_addr]. now rewrite Fadd. }
  split; [|split].
  - intros a. cbn [pids set_pids max_conns_per_ip].
    rewrite first_byte_count_cons, Ra.
    destruct (same_first_byte a peer) eqn:S.
    + rewrite (same_first_byte_count _ _ _ S). lia.
    + specialize (W a). lia.
  - cbn [pids set_pids]. constructor; [now rewrite Ra|assumption].
  - reflexivity.
Qed.

Lemma subprocRunChild_keeps_within_cap_witness :
  0 < max_conns_per_ip conf_one_child
  /\ os_fd os_spawn_ok 5
     = FdSocket (Some (sockaddr_of ip_2 16540)) (Some (sockaddr_of zero16 27002))
  /\ (1 <= List.length (sin6_addr (sockaddr_of ip_2 16540)))%nat
  /\ addresses_present (pids conf_one_child)
  /\ Z.of_nat (List.length (pids conf_one_child)) < 2 ^ 32
  /\ within_cap conf_one_child
  /\ within_cap
       (final (subprocRunChild_later os_spawn_ok os_spawn_ok os_ip_3_gone
                 3 5 5 5 conf_one_child))
  /\ subprocCount
       (final (subprocRunChild_later os_spawn_ok os_spawn_ok os_ip_3_gone
                 3 5 5 5 conf_one_child)) = 2.
Proof.
  assert (H1 : 0 < max_conns_per_ip conf_one_child) by reflexivity.
  assert (H3 : (1 <= List.length (sin6_addr (sockaddr_of ip_2 16540)))%nat)
    by (cbn; lia).
  assert (H4 : addresses_present (pids conf_one_child))
    by (repeat constructor; cbn; lia).
  assert (H5 : Z.of_nat (List.length (pids conf_one_child)) < 2 ^ 32)
    by (cbn; lia).
  assert (H6 : within_cap conf_one_child).
  { intros a. cbn [pids conf_one_child sample_conf max_conns_per_ip].
    rewrite first_byte_count_cons.
    destruct (same_first_byte a (remote_addr child_of_ip_1)); cbn; lia. }
  split; [exact H1|]. split; [reflexivity|]. split; [exact H3|].
  split; [exact H4|]. split; [exact H5|]. split; [exact H6|].
  split; [|reflexivity].
  exact (proj1 (subprocRunChild_keeps_within_cap
                  os_spawn_ok os_spawn_ok os_ip_3_gone 3 5 5 5 conf_one_child
                  _ _ _ H1 eq_refl eq_refl H3 H4 H5 H6)).
Defined.

(** The condition on the second answer is needed.  With a cap of one and
    one child from 2001:db8::1 on the roster, a connection from fe80::1 is
    admitted; if its peer is gone when the read loop ends, [getpeername]
    fails in [subprocAdd], the record keeps the bytes the allocated block
    held, here an address that starts with the byte of 2001:db8::1, and the
    limiter then counts two records for that byte against a cap of one. *)
Example cap_exceeded_when_peer_is_gone :
  let r := subprocRunChild_later os_ip_3 os_ip_3_gone os_ip_3_gone
             1 5 5 5 conf_cap_1 in
  first_byte_count (sockaddr_of ip_1 0) (pids conf_cap_1) = 1
  /\ max_conns_per_ip conf_cap_1 = 1
  /\ result_of r = Ret tt
  /\ map remote_addr (pids (final r))
     = [sockaddr_of ip_1 16540; sockaddr_of ip_1 16540]
  /\ first_byte_count (sockaddr_of ip_1 0) (pids (final r)) = 2
  /\ max_conns_per_ip (final r) = 1.
Proof. cbv zeta. repeat split; vm_compute; reflexivity. Qed.

(** *** What a spawn that is turned away does not do *)

(** A connection the limiter rejects costs nothing but the limiter's log:
    no pipe, no [clone], no change.  When [pipe2] fails the spawn is given
    up before [clone]; when [clone] returns 0, that is in the child, the
    roster of that process is never touched. *)
Theorem subprocRunChild_gives_up_early
    (os : os_t) (fuel : nat) (fd_in fd_out fd_err : Z) (c : nsjconf_t) :
  let r := subprocRunChild os fuel fd_in fd_out fd_err c in
  (result_of (netLimitConns os fd_in c) = Ret false ->
   result_of r = Ret tt /\ final r = c
   /\ events r = events (netLimitConns os fd_in c))
  /\ (os_pipe2 os = None ->
      result_of r = Ret tt /\ final r = c
      /\ Forall (fun e => ~ is_clone e) (events r)
      /\ Forall is_bystander (events r))
  /\ (os_clone os = 0 ->
      final r = c /\ Forall is_bystander (events r)
      /\ forall v, result_of r = Ret v ->
                   result_of (netLimitConns os fd_in c) = Ret false
                   \/ os_pipe2 os = None).
Proof.
  cbv zeta.
  destruct (netLimitConns_run os fd_in c) as [b [ev0 [R0 L0]]].
  pose proof (Forall_log_bystander _ L0) as B0.
  pose proof (log_no_clone _ L0) as N0.
  rewrite R0. unfold result_of at 1 4. cbn [fst].
  destruct b.
  2:{ rewrite (subprocRunChild_rejected _ _ _ _ _ _ _ R0).
      unfold result_of, final, events. cbn [fst snd].
      repeat split; auto. }
  split; [discriminate|].
  destruct (os_pipe2 os) as [[r0 w0]|] eqn:P.
  2:{ rewrite (subprocRunChild_no_pipe _ _ _ _ _ _ _ R0 P).
      unfold result_of, final, events. cbn [fst snd].
      assert (Forall (fun e => ~ is_clone e)
                (ev0 ++ spawn_head os c ++
                 [PLog ERROR "pipe2(pipefd, O_CLOEXEC) failed" []])
              /\ Forall is_bystander
                   (ev0 ++ spawn_head os c ++
                    [PLog ERROR "pipe2(pipefd, O_CLOEXEC) failed" []])) as [X Y].
      { split; (apply Forall_app; split; [assumption|]);
          repeat constructor; intros []. }
      repeat split; auto. }
  split; [discriminate|].
  intros K0. rewrite (subprocRunChild_in_child _ _ _ _ _ _ _ _ _ R0 P K0).
  unfold result_of, final, events. cbn [fst snd].
  split; [reflexivity|]. split.
  - apply Forall_app. split; [assumption|].
    apply Forall_app. split; [repeat constructor|].
    constructor; [exact I|]. apply subprocNewProc_bystander.
  - intros v H. destruct (all_ok (os_contain os) && os_execve os); discriminate.
Qed.

End SpawnMore.


(** ** cmdline.c: more on options, numerals and ids *)

Module CmdlineMore.

Import Libc Common Linux Cmdline CmdlineIds Subproc Spec Parts CmdlineNotions.
Import LibcFacts CmdlineFacts.

(** *** Options that disable a namespace *)

(** Each option that disables a namespace is accepted, clears the bit of
    its namespace in the clone flags of later spawns and no other bit,
    changes neither the roster nor the limits nor the rlimits, and may be
    given twice without further effect. *)
Theorem disable_clone_option_clears_its_flag
    (env : rlimit_env) (optarg : string) (c : nsjconf_t) :
  Forall (fun o : Z * Z =>
            exists c',
              cmdlineParse_case env (fst o) optarg c = Some (Ok c')
              /\ Z.land (clone_flags c') (snd o) = 0
              /\ clone_flags c' = Z.land (clone_flags c) (Z.lnot (snd o))
              /\ Z.land (clone_flags c') 0xff = SIGCHLD
              /\ pids c' = pids c
              /\ max_conns_per_ip c' = max_conns_per_ip c
              /\ tlimit c' = tlimit c
              /\ (forall res, rl_field res c' = rl_field res c)
              /\ cmdlineParse_case env (fst o) optarg c' = Some (Ok c'))
         namespace_options.
Proof.
  unfold namespace_options.
  repeat constructor; cbn [fst snd]; eexists;
    (split; [reflexivity|]);
    (repeat split; try (intros []; reflexivity));
    unfold clone_flags; cbn [clone_newnet clone_newuser clone_newns
      clone_newpid clone_newipc clone_newuts set_clone_newnet
      set_clone_newuser set_clone_newns set_clone_newpid set_clone_newipc
      set_clone_newuts];
    destruct (clone_newnet c), (clone_newuser c), (clone_newns c),
      (clone_newpid c), (clone_newipc c), (clone_newuts c); reflexivity.
Qed.

(** *** Options that set an rlimit *)

(** An rlimit option either is fatal, exactly when [cmdlineParseRLimit] is
    for its resource and unit, or stores the parsed value in the field of
    its resource and leaves every other rlimit, the clone flags, the roster,
    the cap and the time limit as they were. *)
Theorem rlimit_option_sets_only_its_field
    (env : rlimit_env) (res : rlimit_resource) (optarg : string)
    (c : nsjconf_t) :
  match cmdlineParse_case env (rlimit_option_code res) optarg c with
  | Some (Ok c') =>
      cmdlineParseRLimit env res optarg (rlimit_unit res) = Ok (rl_field res c')
      /\ (forall res', res' <> res -> rl_field res' c' = rl_field res' c)
      /\ clone_flags c' = clone_flags c
      /\ pids c' = pids c
      /\ max_conns_per_ip c' = max_conns_per_ip c
      /\ tlimit c' = tlimit c
  | Some (Fatal why) =>
      cmdlineParseRLimit env res optarg (rlimit_unit res) = Fatal why
  | None => False
  end.
Proof.
  destruct res; unfold cmdlineParse_case, rlimit_option_code, rlimit_unit, MB;
    cbn [Z.eqb Pos.eqb];
    match goal with
    | |- context [cmdlineParseRLimit ?e ?r ?o ?m] =>
        destruct (cmdlineParseRLimit e r o m) as [v|why]
    end; cbn [on_ok]; try reflexivity;
    (split; [reflexivity|]); (split; [|repeat split]);
    intros res' N; destruct res'; try reflexivity; contradiction.
Qed.

(** *** Numerals in C notation *)

Lemma radix_from_ge base s : forall acc,
  1 <= base -> 0 <= acc -> string_forallb isdigit s = true ->
  acc <= radix_from base acc s.
Proof.
  induction s as [|ch s IH]; intros acc Hb Hacc Hs; cbn in *; [lia|].
  apply andb_true_iff in Hs. destruct Hs as [Hc Hs].
  apply isdigit_range in Hc.
  specialize (IH (acc * base + (code ch - 48)) Hb ltac:(nia) Hs). nia.
Qed.

Lemma digit_in_decimal_digit base ch :
  isdigit ch = true -> code ch - 48 < base ->
  digit_in base ch = Some (code ch - 48).
Proof.
  intros H Hlt. apply isdigit_range in H. unfold digit_in, digit_value.
  replace (48 <=? code ch) with true by (symmetry; apply Z.leb_le; lia).
  replace (code ch <=? 57) with true by (symmetry; apply Z.leb_le; lia).
  cbn [andb]. replace (code ch - 48 <? base) with true; [reflexivity|].
  symmetry. apply Z.ltb_lt. lia.
Qed.

(** On a run of decimal digits that are digits of the radix and whose
    value fits, the digit loop of [strtoul] computes the value. *)
Lemma strtoul_digits_radix base s : forall acc,
  1 <= base -> 0 <= acc ->
  string_forallb (fun ch => isdigit ch && (code ch - 48 <? base)) s = true ->
  radix_from base acc s <= ULONG_MAX ->
  strtoul_digits base s acc false = (radix_from base acc s, false).
Proof.
  induction s as [|ch s IH]; intros acc Hb Hacc Hs Hfit; [reflexivity|].
  cbn [string_forallb] in Hs. apply andb_true_iff in Hs. destruct Hs as [Hc Hs].
  apply andb_true_iff in Hc. destruct Hc as [Hd Hlt]. apply Z.ltb_lt in Hlt.
  cbn [strtoul_digits radix_from] in *.
  rewrite (digit_in_decimal_digit _ _ Hd Hlt).
  pose proof (proj1 (isdigit_range ch) Hd) as Hr.
  assert (Hs' : string_forallb isdigit s = true).
  { apply string_forallb_forall. intros a Ha.
    pose proof (proj1 (string_forallb_forall _ _) Hs a Ha) as Q.
    now apply andb_true_iff in Q. }
  pose proof (radix_from_ge base s (acc * base + (code ch - 48)) Hb ltac:(nia) Hs').
  match goal with |- context [?a >? ?b] => destruct (a >? b) eqn:E end.
  - exfalso. apply Z.gtb_lt in E. lia.
  - apply IH; [assumption|nia|assumption|assumption].
Qed.

Lemma first_digit_not_word ch s (w : string) :
  isdigit ch = true ->
  match w with
  | String y _ => isdigit (tolower y) = false
  | EmptyString => True
  end ->
  (strcasecmp (String ch s) w =? 0) = false.
Proof.
  intros Hd Hw. destruct w as [|y w]; cbn [strcasecmp].
  - rewrite (isdigit_tolower _ Hd). apply isdigit_range in Hd.
    apply Z.eqb_neq. lia.
  - rewrite (isdigit_tolower _ Hd).
    destruct (code ch =? code (tolower y)) eqn:E.
    + apply Z.eqb_eq, code_inj in E. congruence.
    + apply Z.eqb_neq in E. apply Z.eqb_neq. lia.
Qed.

Lemma octal_digit_facts ch :
  is_octal_digit ch = true ->
  isdigit ch = true /\ code ch - 48 < 8 /\ is_x ch = false
  /\ isspace ch = false /\ (code ch =? 45) = false /\ (code ch =? 43) = false.
Proof.
  unfold is_octal_digit, isdigit, is_x, isspace. intros H.
  apply andb_true_iff in H. destruct H as [H1 H2]. apply Z.leb_le in H1, H2.
  repeat split.
  - apply andb_true_iff. split; apply Z.leb_le; lia.
  - lia.
  - apply orb_false_iff. split; apply Z.eqb_neq; lia.
  - apply orb_false_iff. split; [apply Z.eqb_neq; lia|].
    apply andb_false_iff. right. apply Z.leb_gt. lia.
  - apply Z.eqb_neq. lia.
  - apply Z.eqb_neq. lia.
Qed.

Lemma strtoul0_octal s errno :
  octal_numeral s = true -> radix_from 8 0 s <= ULONG_MAX ->
  strtoul0 s errno = (radix_from 8 0 s, errno).
Proof.
  destruct s as [|z t]; [discriminate|]. unfold octal_numeral.
  intros H Hfit. apply andb_true_iff in H. destruct H as [Hz Ht].
  assert (Oz : is_octal_digit z = true).
  { apply Z.eqb_eq in Hz. unfold is_octal_digit. rewrite Hz. reflexivity. }
  destruct (octal_digit_facts z Oz) as [_ [_ [_ [Sz [Mz Pz]]]]].
  assert (All : string_forallb (fun ch => isdigit ch && (code ch - 48 <? 8))
                  (String z t) = true).
  { apply string_forallb_forall. intros a Ha.
    assert (Oa : is_octal_digit a = true).
    { destruct Ha as [<-|Ha]; [assumption|].
      exact (proj1 (string_forallb_forall _ _) Ht a Ha). }
    destruct (octal_digit_facts a Oa) as [Da [La _]].
    rewrite Da. apply Z.ltb_lt. exact La. }
  assert (D : strtoul_unsigned0 (String z t) = (radix_from 8 0 (String z t), false)).
  { unfold strtoul_unsigned0. rewrite Hz.
    destruct t as [|x [|h t']];
      try (apply strtoul_digits_radix; (lia || assumption)).
    assert (Ox : is_octal_digit x = true).
    { cbn [string_forallb] in Ht. now apply andb_true_iff in Ht. }
    destruct (octal_digit_facts x Ox) as [_ [_ [Xx _]]]. rewrite Xx.
    apply strtoul_digits_radix; (lia || assumption). }
  unfold strtoul0. cbn [skip_space]. rewrite Sz, Mz, Pz, D. reflexivity.
Qed.

Lemma strtoul0_hex s errno :
  hex_numeral s = true -> radix_from 16 0 (hex_digits s) <= ULONG_MAX ->
  strtoul0 s errno = (radix_from 16 0 (hex_digits s), errno).
Proof.
  destruct s as [|z [|x [|h t]]]; try discriminate. unfold hex_numeral.
  cbn [hex_digits]. intros H Hfit.
  apply andb_true_iff in H. destruct H as [H Hd].
  apply andb_true_iff in H. destruct H as [Hz Hx].
  assert (Oz : is_octal_digit z = true).
  { apply Z.eqb_eq in Hz. unfold is_octal_digit. rewrite Hz. reflexivity. }
  destruct (octal_digit_facts z Oz) as [_ [_ [_ [Sz [Mz Pz]]]]].
  assert (All : string_forallb (fun ch => isdigit ch && (code ch - 48 <? 16))
                  (String h t) = true).
  { apply string_forallb_forall. intros a Ha.
    pose proof (proj1 (string_forallb_forall _ _) Hd a Ha) as Da.
    rewrite Da. apply isdigit_range in Da. apply Z.ltb_lt. lia. }
  assert (Dh : isdigit h = true).
  { cbn [string_forallb] in Hd. now apply andb_true_iff in Hd. }
  unfold strtoul0. cbn [skip_space]. rewrite Sz, Mz, Pz.
  unfold strtoul_unsigned0. rewrite Hz. unfold is_x. rewrite Hx. cbn [orb].
  rewrite (digit_in_decimal_digit 16 h Dh)
    by (apply isdigit_range in Dh; lia).
  rewrite strtoul_digits_radix by (lia || assumption). reflexivity.
Qed.

Lemma forallb_weaken (f g : ascii -> bool) s :
  (forall ch, f ch = true -> g ch = true) ->
  string_forallb f s = true -> string_forallb g s = true.
Proof.
  intros H F. apply string_forallb_forall. intros a Ha.
  apply H. exact (proj1 (string_forallb_forall _ _) F a Ha).
Qed.

(** The common end of the numeral cases of [cmdlineParseRLimit]. *)
Lemma cmdlineParseRLimit_numeral env res z t mul cur v :
  getrlimit env res = Some cur ->
  isdigit z = true ->
  string_forallb digit_or_x (String z t) = true ->
  strtoul0 (String z t) (errno_in env) = (v, errno_in env) ->
  0 <= v * mul < ULONG_MAX ->
  cmdlineParseRLimit env res (String z t) mul = Ok (v * mul).
Proof.
  intros G Dz Hn Hv Hfit. unfold cmdlineParseRLimit. rewrite G.
  rewrite !(first_digit_not_word z t) by (assumption || reflexivity).
  rewrite cmdlineIsANumber_forallb, Hn. cbn [negb]. rewrite Hv.
  rewrite u64_small by (unfold ULONG_MAX in *; lia).
  replace (v * mul =? ULONG_MAX) with false by (symmetry; apply Z.eqb_neq; lia).
  reflexivity.
Qed.

(** Rlimit values are read as C numerals: with a leading 0 the digits are
    octal, with a leading 0x they are hexadecimal (decimal digits only: a
    letter a-f is rejected by the character test), and the value, not the
    decimal reading of the digits, is multiplied by the unit. *)
Theorem cmdlineParseRLimit_reads_octal_and_hex
    (env : rlimit_env) (res : rlimit_resource) (optarg : string) (mul : Z)
    (cur : rlimit) :
  getrlimit env res = Some cur ->
  1 <= mul ->
  (octal_numeral optarg = true ->
   radix_from 8 0 optarg * mul < ULONG_MAX ->
   cmdlineParseRLimit env res optarg mul = Ok (radix_from 8 0 optarg * mul))
  /\ (hex_numeral optarg = true ->
      radix_from 16 0 (hex_digits optarg) * mul < ULONG_MAX ->
      cmdlineParseRLimit env res optarg mul
      = Ok (radix_from 16 0 (hex_digits optarg) * mul)).
Proof.
  intros G Hmul. split.
  - intros Ho Hfit. destruct optarg as [|z t]; [discriminate|].
    pose proof Ho as Ho'. unfold octal_numeral in Ho'.
    apply andb_true_iff in Ho'. destruct Ho' as [Hz Ht].
    assert (Oz : is_octal_digit z = true).
    { apply Z.eqb_eq in Hz. unfold is_octal_digit. rewrite Hz. reflexivity. }
    assert (Hall : string_forallb is_octal_digit (String z t) = true).
    { cbn [string_forallb]. now rewrite Oz. }
    assert (Hd : string_forallb isdigit (String z t) = true).
    { revert Hall. apply forallb_weaken. intros ch H.
      apply (octal_digit_facts ch H). }
    pose proof (radix_from_ge 8 (String z t) 0 ltac:(lia) ltac:(lia) Hd) as Hge.
    apply cmdlineParseRLimit_numeral with (cur := cur); try assumption.
    + apply (octal_digit_facts z Oz).
    + revert Hd. apply forallb_weaken. intros ch H.
      unfold digit_or_x. now rewrite H.
    + apply strtoul0_octal; [assumption|nia].
    + nia.
  - intros Hh Hfit. destruct optarg as [|z [|x [|h t]]]; try discriminate.
    cbn [hex_digits] in *.
    pose proof Hh as Hh'. unfold hex_numeral in Hh'.
    apply andb_true_iff in Hh'. destruct Hh' as [H Hd].
    apply andb_true_iff in H. destruct H as [Hz Hx].
    assert (Oz : is_octal_digit z = true).
    { apply Z.eqb_eq in Hz. unfold is_octal_digit. rewrite Hz. reflexivity. }
    pose proof (radix_from_ge 16 (String h t) 0 ltac:(lia) ltac:(lia) Hd) as Hge.
    apply cmdlineParseRLimit_numeral with (cur := cur); try assumption.
    + apply (octal_digit_facts z Oz).
    + change (digit_or_x z
              && (digit_or_x x && string_forallb digit_or_x (String h t)) = true).
      apply andb_true_iff. split.
      { unfold digit_or_x. now rewrite (proj1 (octal_digit_facts z Oz)). }
      apply andb_true_iff. split.
      { unfold digit_or_x. now rewrite Hx, orb_true_r. }
      revert Hd. apply forallb_weaken. intros ch H0.
      unfold digit_or_x. now rewrite H0.
    + apply (strtoul0_hex (String z (String x (String h t)))); [assumption|].
      cbn [hex_digits]. nia.
    + nia.
Qed.

Lemma cmdlineParseRLimit_reads_octal_and_hex_witness :
  getrlimit sample_rlimit_env RLIMIT_NOFILE
  = Some {| rlim_cur := 1024; rlim_max := 4096 |}
  /\ 1 <= 1
  /\ cmdlineParseRLimit sample_rlimit_env RLIMIT_NOFILE "010" 1 = Ok 8
  /\ cmdlineParseRLimit sample_rlimit_env RLIMIT_NOFILE "0x10" 1 = Ok 16.
Proof.
  split; [reflexivity|]. split; [lia|]. split.
  - apply (proj1 (cmdlineParseRLimit_reads_octal_and_hex
                    sample_rlimit_env RLIMIT_NOFILE "010" 1 _ eq_refl
                    ltac:(lia)));
      [reflexivity|vm_compute; reflexivity].
  - apply (proj2 (cmdlineParseRLimit_reads_octal_and_hex
                    sample_rlimit_env RLIMIT_NOFILE "0x10" 1 _ eq_refl
                    ltac:(lia)));
      [reflexivity|vm_compute; reflexivity].
Defined.

(** *** The user and the group *)







(** With databases that know only "nobody": the defaults resolve through
    the database, the user "1000" is the uid 1000, the user "x" is the
    uid 0, the group "010" is the gid 8 and the group "0x10" the gid 16. *)
Example cmdlineParse_ids_samples :
  cmdlineParse_ids only_nobody "nobody" "nobody" = Ids 65534 65534
  /\ cmdlineParse_ids only_nobody "1000" "nobody" = Ids 1000 65534
  /\ cmdlineParse_ids only_nobody "x" "nobody" = Ids 0 65534
  /\ cmdlineParse_ids only_nobody "root" "nobody" = NoSuchUser "root"
  /\ cmdlineParse_ids only_nobody "0" "010" = Ids 0 8
  /\ cmdlineParse_ids only_nobody "1000" "0x10" = Ids 1000 16.
Proof. repeat split; vm_compute; reflexivity. Qed.

End CmdlineMore.


(** ** net.c: the listening socket *)

Module ListenFacts.

Import Libc Common Proc Net Spec Listen Listener.
Import NetFacts SpawnMore.
Local Open Scope listen_scope.

Lemma socket_calls_seen ev : socket_calls (map Seen ev) = [].
Proof. induction ev as [|e ev IH]; [reflexivity|exact IH]. Qed.

Lemma socket_calls_app a b :
  socket_calls (a ++ b) = socket_calls a ++ socket_calls b.
Proof.
  induction a as [|k a IH]; [reflexivity|].
  destruct k; cbn; now rewrite ?IH.
Qed.

(** [netConnToText] as the listener runs it. *)
Lemma lift_netConnToText_run los fd remote c :
  exists txt ev,
    lift (netConnToText (l_os los) fd remote 64 false) c
    = (Ret (txt, None), c, map Seen ev)
    /\ Forall is_log ev.
Proof.
  destruct (netConnToText_shape (l_os los) fd remote 64 false c)
    as [txt [ev [R L]]].
  exists txt, ev. unfold lift. now rewrite R.
Qed.

Lemma keeps_open_logs ev : Forall is_log ev -> Forall keeps_open (map Seen ev).
Proof.
  intros L. apply Forall_forall. intros k Hk fd E. subst k.
  apply in_map_iff in Hk. destruct Hk as [e [He Ie]]. inversion He; subst e.
  rewrite Forall_forall in L. exact (L _ Ie).
Qed.

Lemma lbind_ret_run {A B} (m : L A) (k : A -> L B) c a c1 e1 :
  m c = (Ret a, c1, e1) ->
  lbind m k c = (answer (k a c1), conf_after (k a c1), e1 ++ calls (k a c1)).
Proof.
  intros E. unfold lbind. rewrite E. now destruct (k a c1) as [[o c2] e2].
Qed.

(** [netGetRecvSocket] never changes the configuration.  For a port
    outside 1..65535 it is fatal before any socket is created.  For a port
    in range it calls socket, setsockopt (SO_REUSEADDR), bind and listen in
    this order and stops at the first that fails; it returns the socket when
    all four succeed and -1 otherwise, after exactly one error report; on no
    path does it close the socket it created. *)
Theorem netGetRecvSocket_outcomes (los : listen_os) (port : Z) (c : nsjconf_t) :
  let r := netGetRecvSocket los port c in
  conf_after r = c
  /\ Forall keeps_open (calls r)
  /\ (port < 1 \/ 65535 < port ->
      answer r = Exited 1 /\ socket_calls (calls r) = [])
  /\ (1 <= port <= 65535 ->
      answer r = Ret (if listen_ok los then l_socket los else -1)
      /\ socket_calls (calls r) = listen_sequence los port
      /\ (listen_ok los = false -> List.length (complaints (calls r)) = 1%nat)).
Proof.
  cbv zeta. unfold netGetRecvSocket.
  destruct ((port <? 1) || (port >? 65535)) eqn:B.
  - unfold lwhen, LOG_F, lbind, does, lexit, answer, conf_after, calls.
    cbn [fst snd app].
    split; [reflexivity|]. split; [repeat constructor; discriminate|].
    split; [intros _; split; reflexivity|].
    intros H. exfalso. apply orb_true_iff in B.
    destruct B as [B|B]; [apply Z.ltb_lt in B|apply Z.gtb_lt in B]; lia.
  - assert (InRange : ~ (port < 1 \/ 65535 < port)).
    { apply orb_false_iff in B. destruct B as [B1 B2].
      apply Z.ltb_ge in B1. rewrite Z.gtb_ltb in B2. apply Z.ltb_ge in B2. lia. }
    unfold listen_sequence, listen_ok.
    destruct (lift_netConnToText_run los (l_socket los) false c)
      as [txt [ev [R Lg]]].
    apply keeps_open_logs in Lg.
    unfold lwhen.
    rewrite (lbind_ret_run (lret tt) _ c tt c [] eq_refl).
    rewrite (lbind_ret_run (does _) _ c tt c [_] eq_refl).
    destruct (l_socket los =? -1).
    { unfold lbind, lift, emit, lret, does, answer, conf_after, calls.
      cbn [fst snd app map negb andb].
      split; [reflexivity|]. split; [repeat constructor; discriminate|].
      split; [intros H; contradiction|]. intros _. repeat split. }
    rewrite (lbind_ret_run (does _) _ c tt c [_] eq_refl).
    destruct (l_reuseaddr los =? -1).
    { unfold lbind, lift, emit, lret, does, answer, conf_after, calls.
      cbn [fst snd app map negb andb].
      split; [reflexivity|]. split; [repeat constructor; discriminate|].
      split; [intros H; contradiction|]. intros _. repeat split. }
    rewrite (lbind_ret_run (does _) _ c tt c [_] eq_refl).
    destruct (l_bind los =? -1).
    { unfold lbind, lift, emit, lret, does, answer, conf_after, calls.
      cbn [fst snd app map negb andb].
      split; [reflexivity|]. split; [repeat constructor; discriminate|].
      split; [intros H; contradiction|]. intros _. repeat split. }
    rewrite (lbind_ret_run (does _) _ c tt c [_] eq_refl).
    destruct (l_listen los =? -1).
    { unfold lbind, lift, emit, lret, does, answer, conf_after, calls.
      cbn [fst snd app map negb andb].
      split; [reflexivity|]. split; [repeat constructor; discriminate|].
      split; [intros H; contradiction|]. intros _. repeat split. }
    rewrite (lbind_ret_run _ _ _ _ _ _ R).
    unfold lbind, lift, emit, lret, does, answer, conf_after, calls.
    cbn [fst snd app map negb andb].
    split; [reflexivity|]. split.
    { repeat (constructor; [discriminate|]).
      apply Forall_app. split; [assumption|].
      repeat constructor; discriminate. }
    split; [intros H; contradiction|]. intros _.
    split; [reflexivity|]. split; [|discriminate].
    cbn [socket_calls]. rewrite socket_calls_app, socket_calls_seen.
    reflexivity.
Qed.

(** [netAcceptConn] returns what [accept] returned and never changes the
    configuration or closes a descriptor.  A failed [accept] is reported,
    except when it was interrupted by a signal (EINTR), which is silent.
    On an accepted connection the only socket call that follows is the
    setsockopt for TCP_CORK, whose failure is reported with a warning and
    does not lose the connection. *)
Theorem netAcceptConn_outcomes (los : listen_os) (listenfd : Z) (c : nsjconf_t) :
  let r := netAcceptConn los listenfd c in
  answer r = Ret (l_accept los)
  /\ conf_after r = c
  /\ Forall keeps_open (calls r)
  /\ (l_accept los = -1 ->
      calls r
      = Accept listenfd (-1) ::
        (if l_errno los =? EINTR then []
         else [Seen (PLog ERROR "accept(%d)" [AInt listenfd])]))
  /\ (l_accept los <> -1 ->
      socket_calls (calls r)
      = [Accept listenfd (l_accept los);
         SetsockoptCork (l_accept los) (l_cork los)]
      /\ exists pre,
           calls r
           = pre ++ SetsockoptCork (l_accept los) (l_cork los) ::
             (if l_cork los =? -1
              then [Seen (PLog WARNING "setsockopt(%d, TCP_CORK)"
                            [AInt (l_accept los)])]
              else [])).
Proof.
  cbv zeta. unfold netAcceptConn.
  rewrite (lbind_ret_run (does _) _ c tt c [_] eq_refl).
  destruct (Z.eqb_spec (l_accept los) (-1)) as [E|N].
  - rewrite E.
    destruct (l_errno los =? EINTR);
      unfold lwhen, lbind, lift, emit, lret, does, answer, conf_after, calls;
      cbn [fst snd app map negb];
      (split; [reflexivity|]); (split; [reflexivity|]);
      (split; [repeat constructor; discriminate|]);
      (split; [reflexivity|]); intros H; contradiction.
  - destruct (lift_netConnToText_run los (l_accept los) true c)
      as [t1 [e1 [R1 L1]]].
    destruct (lift_netConnToText_run los (l_accept los) false c)
      as [t2 [e2 [R2 L2]]].
    apply keeps_open_logs in L1, L2.
    rewrite (lbind_ret_run _ _ _ _ _ _ R1), (lbind_ret_run _ _ _ _ _ _ R2).
    destruct (l_cork los =? -1);
      unfold lwhen, lbind, lift, emit, lret, does, answer, conf_after, calls;
      cbn [fst snd app map negb];
      (split; [reflexivity|]); (split; [reflexivity|]);
      (split; [constructor; [discriminate|];
               apply Forall_app; split; [assumption|];
               apply Forall_app; split; [assumption|];
               repeat constructor; discriminate|]);
      (split; [intros H; contradiction|]); intros _;
      (split; [cbn [socket_calls];
               rewrite !socket_calls_app, !socket_calls_seen; reflexivity|]).
    + exists (Accept listenfd (l_accept los) :: map Seen e1 ++ map Seen e2 ++
              [Seen (Log INFO "New connection from: %s on: %s"
                       [AStr t1; AStr t2])]).
      cbn [app]. now rewrite <- !app_assoc.
    + exists (Accept listenfd (l_accept los) :: map Seen e1 ++ map Seen e2 ++
              [Seen (Log INFO "New connection from: %s on: %s"
                       [AStr t1; AStr t2])]).
      cbn [app]. now rewrite <- !app_assoc.
Qed.

End ListenFacts.


(** ** net.c: cloning an interface over netlink *)

Module NetlinkFacts.

Import Netlink.

(** [netCloneMacV] answers true exactly when each of its five steps
    succeeds, and cleans up on every path: the netlink socket is freed
    exactly once and last, the link is released exactly once if it was
    allocated and never otherwise, the link cache is freed exactly once if
    it was allocated and never otherwise, and a failure is reported exactly
    once.  The link is added only after it was given its name, master, type
    and target namespace. *)
Theorem netCloneMacV_releases_what_it_allocated
    (nl : nl_os) (type name iface : string) (pid : Z) :
  let r := netCloneMacV nl type name iface pid in
  fst r = nl_all_ok nl
  /\ occurrences NlSocketAlloc (snd r) = 1%nat
  /\ occurrences NlSocketFree (snd r) = 1%nat
  /\ (exists pre, snd r = pre ++ [NlSocketFree])
  /\ occurrences LinkPut (snd r) = (if link_allocated nl then 1 else 0)%nat
  /\ occurrences NlCacheFree (snd r) = (if cache_allocated nl then 1 else 0)%nat
  /\ List.length (filter (fun k => match k with NlLogE _ => true | _ => false end)
                         (snd r))
     = (if nl_all_ok nl then 0 else 1)%nat
  /\ (forall err, In (LinkAdd err) (snd r) ->
      exists a b,
        snd r = a ++ [LinkSetName name; LinkSetLink (nl_name2i nl);
                      LinkSetType type; LinkSetNsPid pid; LinkAdd err] ++ b).
Proof.
  cbv zeta.
  unfold netCloneMacV, nl_all_ok, cache_allocated, link_allocated, occurrences,
    out_cache, out_link, out_sock.
  destruct (nl_connect nl <? 0);
    [| destruct (nl_macvlan_alloc nl);
       [ destruct (nl_alloc_cache nl <? 0);
         [| destruct (nl_name2i nl =? 0);
            [| destruct (nl_link_add nl <? 0) ] ] |] ];
    cbn [negb andb fst snd app filter is_call List.length];
    (do 3 (split; [reflexivity|]));
    (split; [ match goal with
              | |- exists pre, ?l = pre ++ _ =>
                  exists (removelast l); reflexivity
              end |]);
    (do 3 (split; [reflexivity|]));
    intros err H; cbn [In] in H;
    repeat (destruct H as [H|H]; [ try discriminate H |]);
    try contradiction;
    inversion H; subst err;
    match goal with
    | |- exists a b, ?l = _ => exists (firstn 5 l), (skipn 10 l); reflexivity
    end.
Qed.

End NetlinkFacts.
